(** * File-metadata preservation in restic (zmanda fork): a shallow embedding

    The development embeds, function by function, the Go code that captures
    and replays OS-specific file metadata:

    - [internal/fs/ea_windows.go]: the Windows extended-attribute (EA) codec
      and the growing-buffer query [GetFileEA];
    - the xattr adapter of the darwin/freebsd/linux/solaris build
      ([fillExtendedAttributes], [restoreExtendedAttributes],
      [handleXattrErr]);
    - [internal/restic/node_windows.go]: generic attributes on Windows,
      including the encryption fix-up, and the earlier copy of the same file
      that the sources also carry;
    - the no-op adapters (aix, netbsd, openbsd).

    Go values are modelled as follows.  A [[]byte] is a [list byte], a Go
    [string] is a [string] (both are byte sequences); where the code takes a
    slice expression of a value it did not allocate, the bytes between the
    length and the capacity of the value are kept beside it, because Go
    checks a slice expression against the capacity.  Fixed-width integers
    are [Z] with the wrap-around written out, the pair [(T, error)] returned
    by a Go function is a pair whose second component is an [option error]
    ([None] is the nil error), a nil slice and an empty slice are both [[]].
    Calls into the operating system thread an abstract world through a small
    state monad; a run-time panic is an explicit outcome. *)

From stdpp Require Import base option list strings gmap.
From Stdlib Require Import ZArith Lia.
From Stdlib.Strings Require Import Byte.

Local Open Scope Z_scope.

(** ** Go integers, bytes and slices *)

Module GoBytes.

Definition len {A : Type} (l : list A) : Z := Z.of_nat (length l).

Definition strlen (s : string) : Z := Z.of_nat (String.length s).

(** Conversions to unsigned fixed-width types truncate. *)
Definition uint8 (z : Z) : Z := z mod 2 ^ 8.
Definition uint16 (z : Z) : Z := z mod 2 ^ 16.
Definition uint32 (z : Z) : Z := z mod 2 ^ 32.

(** Go's [int] is 64 bits wide on the platforms restic ships for Windows;
    arithmetic wraps in two's complement. *)
Definition int_bits : Z := 64.

Definition wrap_int (z : Z) : Z :=
  (z + 2 ^ (int_bits - 1)) mod 2 ^ int_bits - 2 ^ (int_bits - 1).

Definition byte_of_Z (z : Z) : byte :=
  match Byte.of_N (Z.to_N (z mod 256)) with
  | Some b => b
  | None => x00
  end.

Definition Z_of_byte (b : byte) : Z := Z.of_N (Byte.to_N b).

(** [binary.LittleEndian.PutUint16] / [PutUint32]. *)
Definition PutUint16 (v : Z) : list byte :=
  [byte_of_Z (Z.land v 255); byte_of_Z (Z.land (Z.shiftr v 8) 255)].

Definition PutUint32 (v : Z) : list byte :=
  [byte_of_Z (Z.land v 255);
   byte_of_Z (Z.land (Z.shiftr v 8) 255);
   byte_of_Z (Z.land (Z.shiftr v 16) 255);
   byte_of_Z (Z.land (Z.shiftr v 24) 255)].

(** [binary.LittleEndian.Uint16] / [Uint32]: [None] is the index-out-of-range
    panic on a slice that is too short. *)
Definition Uint16 (b : list byte) : option Z :=
  match b with
  | b0 :: b1 :: _ => Some (Z.lor (Z_of_byte b0) (Z.shiftl (Z_of_byte b1) 8))
  | _ => None
  end.

Definition Uint32 (b : list byte) : option Z :=
  match b with
  | b0 :: b1 :: b2 :: b3 :: _ =>
      Some (Z.lor (Z.lor (Z.lor (Z_of_byte b0) (Z.shiftl (Z_of_byte b1) 8))
                         (Z.shiftl (Z_of_byte b2) 16))
                  (Z.shiftl (Z_of_byte b3) 24))
  | _ => None
  end.

(** The slice expression [b[i:j]], for [0 <= i <= j <= len(b)]. *)
Definition slice {A : Type} (b : list A) (i j : Z) : list A :=
  take (Z.to_nat (j - i)) (drop (Z.to_nat i) b).

(** The slice expression [b[i:j]] on a slice whose backing array holds
    [beyond] after the elements of the slice: Go checks the bounds against
    the capacity, [len(b) + len(beyond)], not against the length, and the
    result can hold bytes that lie past the length.  It panics ([None])
    when [j] exceeds the capacity. *)
Definition slice_within_cap {A : Type} (b beyond : list A) (i j : Z)
  : option (list A) :=
  if (0 <=? i) && (i <=? j) && (j <=? len b + len beyond)
  then Some (slice (b ++ beyond) i j)
  else None.

(** The slice expression [b[i:]], for [0 <= i <= len(b)]. *)
Definition slice_from {A : Type} (b : list A) (i : Z) : list A :=
  drop (Z.to_nat i) b.

(** [string(b)] and [[]byte(s)]. *)
Definition string_of_bytes (b : list byte) : string := String.string_of_list_byte b.
Definition bytes_of_string (s : string) : list byte := String.list_byte_of_string s.

End GoBytes.

(** ** Go error values *)

Module GoErrors.

#[local] Unset Elimination Schemes.
Inductive error : Type :=
| Errno (code : Z)
    (** [syscall.Errno(code)], also the [windows.ERROR_*] constants *)
| ErrNew (msg : string)
    (** [errors.New(msg)] *)
| Errorf1 (format : string) (cause : error)
    (** [fmt.Errorf(format, cause)] *)
| Errorf2 (format : string) (path : string) (cause : error)
    (** [fmt.Errorf(format, path, cause)] *)
| PathError (op path : string) (cause : error)
    (** [*os.PathError] *)
| XattrError (op path name : string) (cause : error)
    (** [*xattr.Error] of github.com/pkg/xattr *)
| WithStack (cause : error)
    (** the value [errors.WithStack(cause)] returns for a non-nil [cause]:
        the same error annotated with a stack trace *)
| Combined (errs : list error)
    (** the aggregate built by [errors.CombineErrors] *).
#[local] Set Elimination Schemes.

(** [err == c] for an [error] interface value and an [Errno] constant. *)
Definition is_errno (err : error) (c : Z) : bool :=
  match err with
  | Errno code => code =? c
  | _ => false
  end.

End GoErrors.

(** ** [internal/fs/ea_windows.go] *)

Module EA.
Import GoBytes GoErrors.

Definition errInvalidEaBuffer : error := ErrNew "invalid extended attribute buffer".
Definition errEaNameTooLarge : error := ErrNew "extended attribute name too large".
Definition errEaValueTooLarge : error := ErrNew "extended attribute value too large".

(** [noExtendedAttribsStatus]: no extended attributes were found. *)
Definition noExtendedAttribsStatus : Z := -1073741742.

(** [windows.ERROR_INSUFFICIENT_BUFFER] and [windows.ERROR_MORE_DATA]. *)
Definition ERROR_INSUFFICIENT_BUFFER : Z := 122.
Definition ERROR_MORE_DATA : Z := 234.

(** [ExtendedAttribute] represents a single Windows EA. *)
Record ExtendedAttribute : Type := mkEA {
  Name : string;
  Value : list byte;
  Flags : byte
}.

Record fileFullEaInformation : Type := mkInfo {
  NextEntryOffset : Z;  (* uint32 *)
  InfoFlags : byte;     (* uint8  *)
  NameLength : Z;       (* uint8  *)
  ValueLength : Z       (* uint16 *)
}.

(** [binary.Size(&fileFullEaInformation{})]. *)
Definition fileFullEaInformationSize : Z := 8.

(** [binary.Write(buf, binary.LittleEndian, &info)]: the fields in order. *)
Definition write_info (info : fileFullEaInformation) : list byte :=
  PutUint32 (NextEntryOffset info)
  ++ [InfoFlags info]
  ++ [byte_of_Z (NameLength info)]
  ++ PutUint16 (ValueLength info).

(** [binary.Read(bytes.NewReader(b), binary.LittleEndian, &info)]: fails
    unless eight bytes are available. *)
Definition read_info (b : list byte) : option fileFullEaInformation :=
  match b with
  | o0 :: o1 :: o2 :: o3 :: fl :: nl :: v0 :: v1 :: _ =>
      match Uint32 [o0; o1; o2; o3], Uint16 [v0; v1] with
      | Some next, Some vlen => Some (mkInfo next fl (Z_of_byte nl) vlen)
      | _, _ => None
      end
  | _ => None
  end.

Definition empty_ea : ExtendedAttribute := mkEA "" [] x00.

(** [parseEa] returns the attribute, the rest of the buffer ([nb], nil once
    [NextEntryOffset] is zero) and the error. *)
Definition parseEa (b : list byte)
  : ExtendedAttribute * list byte * option error :=
  match read_info b with
  | None => (empty_ea, [], Some errInvalidEaBuffer)
  | Some info =>
      let nameOffset := fileFullEaInformationSize in
      let nameLen := NameLength info in
      let valueOffset := nameOffset + NameLength info + 1 in
      let valueLen := ValueLength info in
      let nextOffset := wrap_int (NextEntryOffset info) in
      if (valueLen + valueOffset >? len b) || (nextOffset <? 0)
         || (nextOffset >? len b)
      then (empty_ea, [], Some errInvalidEaBuffer)
      else
        let ea := mkEA (string_of_bytes (slice b nameOffset (nameOffset + nameLen)))
                       (slice b valueOffset (valueOffset + valueLen))
                       (InfoFlags info) in
        let nb := if NextEntryOffset info =? 0 then []
                  else slice_from b (NextEntryOffset info) in
        (ea, nb, None)
  end.

(** The loop of [DecodeExtendedAttributes].  Every iteration that goes on
    shortens [b], so [length b] iterations always suffice; [None] is the
    fuel running out. *)
Fixpoint decode_loop (fuel : nat) (b : list byte) (eas : list ExtendedAttribute)
  : option (list ExtendedAttribute * option error) :=
  if len b =? 0 then Some (eas, None)
  else
    match fuel with
    | O => None
    | S fuel' =>
        match parseEa b with
        | (_, _, Some err) => Some ([], Some err)
        | (ea, nb, None) => decode_loop fuel' nb (eas ++ [ea])
        end
    end.

Definition DecodeExtendedAttributes (b : list byte)
  : option (list ExtendedAttribute * option error) :=
  decode_loop (length b) b [].

(** [writeEa] appends one record to the buffer.  Writes to a [bytes.Buffer]
    do not fail. *)
Definition writeEa (buf : list byte) (ea : ExtendedAttribute) (last : bool)
  : list byte * option error :=
  if negb (uint8 (strlen (Name ea)) =? strlen (Name ea)) then
    (buf, Some errEaNameTooLarge)
  else if negb (uint16 (len (Value ea)) =? len (Value ea)) then
    (buf, Some errEaValueTooLarge)
  else
    let entrySize :=
      uint32 (fileFullEaInformationSize + strlen (Name ea) + 1 + len (Value ea)) in
    let withPadding := Z.ldiff (uint32 (entrySize + 3)) 3 in
    let nextOffset := if last then 0 else withPadding in
    let info := mkInfo nextOffset (Flags ea)
                       (uint8 (strlen (Name ea))) (uint16 (len (Value ea))) in
    let buf := buf ++ write_info info in
    let buf := buf ++ bytes_of_string (Name ea) in
    let buf := buf ++ [x00] in
    let buf := buf ++ Value ea in
    let buf := buf ++ slice [x00; x00; x00] 0 (uint32 (withPadding - entrySize)) in
    (buf, None).

(** The loop of [EncodeExtendedAttributes]: [i] is the index of the head of
    [rest] in the slice of [n] attributes. *)
Fixpoint encode_loop (n : Z) (i : Z) (rest : list ExtendedAttribute)
    (buf : list byte) : list byte * option error :=
  match rest with
  | [] => (buf, None)
  | ea :: rest' =>
      let last := i =? n - 1 in
      match writeEa buf ea last with
      | (_, Some err) => ([], Some err)
      | (buf', None) => encode_loop n (i + 1) rest' buf'
      end
  end.

Definition EncodeExtendedAttributes (eas : list ExtendedAttribute)
  : list byte * option error :=
  encode_loop (len eas) 0 eas [].

(** *** The buffer layout

    The attributes the codec accepts, and the layout of the buffer as the
    kernel documents it: each record is the header, the name, a zero byte,
    the value and zero padding up to a multiple of four bytes; the header
    of every record but the last holds the padded size of the record. *)
Definition valid_ea (ea : ExtendedAttribute) : Prop :=
  strlen (Name ea) <= 255 /\ len (Value ea) <= 65535.

Definition entry_size (ea : ExtendedAttribute) : Z :=
  fileFullEaInformationSize + strlen (Name ea) + 1 + len (Value ea).

Definition padded_size (ea : ExtendedAttribute) : Z :=
  4 * ((entry_size ea + 3) / 4).

Definition ea_record (ea : ExtendedAttribute) (last : bool) : list byte :=
  write_info (mkInfo (if last then 0 else padded_size ea) (Flags ea)
                     (strlen (Name ea)) (len (Value ea)))
  ++ bytes_of_string (Name ea) ++ [x00] ++ Value ea
  ++ replicate (Z.to_nat (padded_size ea - entry_size ea)) x00.

Fixpoint ea_chain (eas : list ExtendedAttribute) : list byte :=
  match eas with
  | [] => []
  | ea :: rest =>
      match rest with
      | [] => ea_record ea true
      | _ :: _ => ea_record ea false ++ ea_chain rest
      end
  end.

(** *** [GetFileEA]

    One call of [NtQueryEaFile] and, for a negative status, of
    [RtlNtStatusToDosErrorNoTeb]: the status, the DOS error code the
    status translates to, and the bytes the kernel wrote to the buffer. *)
Record EaQueryReply : Type := mkReply {
  reply_status : Z;
  reply_doserr : Z;
  reply_data : list byte
}.

(** [status.Err()]. *)
Definition ntStatus_Err (r : EaQueryReply) : option error :=
  if reply_status r >=? 0 then None
  else if reply_doserr r =? 0 then None
  else Some (Errno (reply_doserr r)).

(** [make([]byte, n)] panics on a negative length. *)
Definition make_bytes (n : Z) : option (list byte) :=
  if n <? 0 then None else Some (replicate (Z.to_nat n) x00).

(** What the kernel leaves in a buffer of [length buf] bytes. *)
Definition fill_buffer (buf data : list byte) : list byte :=
  take (length buf) data ++ drop (length data) buf.

Inductive GetFileEAOutcome : Type :=
| Returned (r : option (list ExtendedAttribute * option error))
    (** a [return]; the option is that of [DecodeExtendedAttributes] *)
| AllocPanic
    (** [make] was asked for a negative length *)
| AwaitingReply
    (** the loop issued a query beyond the end of the replies *).

(** A query as the kernel sees it: the size of the buffer handed over and
    the [uint32] length announced for it. *)
Record EaQuery : Type := mkQuery {
  query_buflen : Z;
  query_len32 : Z
}.

(** The [for] loop of [GetFileEA], run against the replies of the kernel in
    the order the kernel gives them; the queries issued are recorded. *)
Fixpoint GetFileEA_loop (replies : list EaQueryReply) (bufLen : Z)
    (buf : list byte) (queries : list EaQuery)
  : list EaQuery * GetFileEAOutcome :=
  let queries := queries ++ [mkQuery (len buf) (uint32 bufLen)] in
  match replies with
  | [] => (queries, AwaitingReply)
  | r :: replies' =>
      if reply_status r =? noExtendedAttribsStatus then
        (queries, Returned (Some ([], None)))
      else
        match ntStatus_Err r with
        | Some err =>
            if is_errno err ERROR_INSUFFICIENT_BUFFER
               || is_errno err ERROR_MORE_DATA
            then
              let bufLen := wrap_int (bufLen * 2) in
              match make_bytes bufLen with
              | None => (queries, AllocPanic)
              | Some buf => GetFileEA_loop replies' bufLen buf queries
              end
            else
              (queries,
               Returned (Some ([], Some (Errorf1 "get file EA failed with: %w" err))))
        | None =>
            (queries,
             Returned (DecodeExtendedAttributes (fill_buffer buf (reply_data r))))
        end
  end.

Definition GetFileEA (replies : list EaQueryReply)
  : list EaQuery * GetFileEAOutcome :=
  let bufLen := 1024 in
  match make_bytes bufLen with
  | None => ([], AllocPanic)
  | Some buf => GetFileEA_loop replies bufLen buf []
  end.

(** The replies on which the loop retries: a failure status, other than the
    sentinel, that translates to one of the two buffer-size errors. *)
Definition insufficient_reply (r : EaQueryReply) : Prop :=
  reply_status r <> noExtendedAttribsStatus /\ reply_status r < 0 /\
  (reply_doserr r = ERROR_INSUFFICIENT_BUFFER \/ reply_doserr r = ERROR_MORE_DATA).

(** The first [k] queries of a run that starts at 1024 bytes and doubles. *)
Definition doubling_queries (k : nat) : list EaQuery :=
  map (fun i : nat => mkQuery (1024 * 2 ^ Z.of_nat i) (uint32 (1024 * 2 ^ Z.of_nat i)))
      (seq 0 k).

(** Attributes and replies used as concrete inputs below. *)
Definition ea_user_foo : ExtendedAttribute :=
  mkEA "user.foo" [x62; x61; x72] x00.

Definition ea_flagged : ExtendedAttribute := mkEA "B" [] x80.

Definition ea_oversized : ExtendedAttribute :=
  mkEA (string_of_bytes (replicate (Z.to_nat 256) x61))
       (replicate (Z.to_nat 65536) x00) x00.

Definition reply_insufficient : EaQueryReply :=
  mkReply (-1073741789) ERROR_INSUFFICIENT_BUFFER [].

Definition reply_more_data : EaQueryReply :=
  mkReply (-2147483643) ERROR_MORE_DATA [].

Definition reply_no_attributes : EaQueryReply :=
  mkReply noExtendedAttribsStatus 0 [].

End EA.

(** ** The process and the operating system

    Code that calls the operating system runs in a state monad over the
    process: the world behind the system calls, the process-wide set of
    generic-attribute types already reported as unknown, what was written to
    standard error and to the debug log, and a trace of the system calls
    made, kept to state which primitives a function invokes.  A run either
    returns or panics. *)

Module Runtime.
Import GoBytes GoErrors.

Inductive LogArg : Type :=
| LogStr (s : string)
| LogErr (e : error).

Inductive Call : Type :=
| CallEncryptFile (path : string)
| CallDecryptFile (path : string)
| CallClearSystem (path : string)
| CallGetFileAttributes (path : string)
| CallSetFileAttributes (path : string) (attrs : Z)
| CallCreateFile (path : string)
| CallSetFileTime (handle : Z) (low high : Z)
| CallCloseHandle (handle : Z)
| CallGetSecurityDescriptor (path : string)
| CallSetSecurityDescriptor (path : string) (sd : string)
| CallLList (path : string)
| CallLGet (path name : string)
| CallLSet (path name : string) (data : list byte).

Record Proc (W : Type) : Type := mkProc {
  world : W;
  unknownTypes : gset string;
  stderr : list string;
  debugLog : list (string * list LogArg);
  calls : list Call
}.
Arguments mkProc {W}.
Arguments world {W}.
Arguments unknownTypes {W}.
Arguments stderr {W}.
Arguments debugLog {W}.
Arguments calls {W}.

Inductive Res (A : Type) : Type :=
| Ret (a : A)
| Panic.
Arguments Ret {A}.
Arguments Panic {A}.

Definition M (W A : Type) : Type := Proc W -> Res A * Proc W.

Definition ret {W A : Type} (a : A) : M W A := fun s => (Ret a, s).

Definition panic {W A : Type} : M W A := fun s => (Panic, s).

Definition bind {W A B : Type} (m : M W A) (k : A -> M W B) : M W B :=
  fun s =>
    match m s with
    | (Ret a, s') => k a s'
    | (Panic, s') => (Panic, s')
    end.

(** A system call: the world moves on and the call is recorded. *)
Definition os_call {W A : Type} (c : Call) (f : W -> A * W) : M W A :=
  fun s =>
    let (a, w) := f (world s) in
    (Ret a, mkProc w (unknownTypes s) (stderr s) (debugLog s) (calls s ++ [c])).

(** [debug.Log(format, args...)]. *)
Definition debug_Log {W : Type} (format : string) (args : list LogArg) : M W unit :=
  fun s =>
    (Ret tt, mkProc (world s) (unknownTypes s) (stderr s)
                    (debugLog s ++ [(format, args)]) (calls s)).

(** A line written to [os.Stderr]. *)
Definition print_stderr {W : Type} (line : string) : M W unit :=
  fun s =>
    (Ret tt, mkProc (world s) (unknownTypes s) (stderr s ++ [line])
                    (debugLog s) (calls s)).

(** A process that has made no call yet. *)
Definition initial {W : Type} (w : W) : Proc W := mkProc w ∅ [] [] [].

(** [strings.Contains] and [strings.HasSuffix]. *)
Fixpoint strings_Contains (s substr : string) : bool :=
  String.prefix substr s
  || match s with
     | EmptyString => false
     | String _ s' => strings_Contains s' substr
     end.

Definition strings_HasSuffix (s suffix : string) : bool :=
  (String.length suffix <=? String.length s)%nat
  && String.eqb (String.substring (String.length s - String.length suffix)
                                  (String.length suffix) s) suffix.

End Runtime.

Declare Scope go_scope.
Delimit Scope go_scope with go.
Notation "x <- m ;; k" := (Runtime.bind m (fun x => k))
  (at level 100, m at next level, right associativity) : go_scope.
Notation "m ;;; k" := (Runtime.bind m (fun _ => k))
  (at level 100, right associativity) : go_scope.

(** ** The node and its attributes

    The fields of [Node] that the metadata code reads and writes, and the
    helpers of [internal/restic/node.go] it calls. *)

Module Node.
Import GoBytes GoErrors Runtime.
Local Open Scope go_scope.

(** [Attribute] (named [GenericAttribute] and [ExtendedAttribute] in the
    earlier sources): a name and a value.  The value is a Go slice: next to
    its elements the record keeps the bytes that the backing array holds
    between the length and the capacity of the slice, which a slice
    expression on the value can reach. *)
Record Attribute : Type := mkAttributeCap {
  Name : string;
  Value : list byte;
  ValueSpare : list byte
}.

(** An attribute whose value has no spare capacity.  The attributes the
    code builds itself are written this way: the code under study never
    reads past the length of a value it has built. *)
Abbreviation mkAttribute name value := (mkAttributeCap name value []).

Record Node : Type := mkNode {
  NodeType : string;
  ExtendedAttributes : list Attribute;
  GenericAttributes : list Attribute
}.

Definition set_ExtendedAttributes (node : Node) (l : list Attribute) : Node :=
  mkNode (NodeType node) l (GenericAttributes node).

Definition set_GenericAttributes (node : Node) (l : list Attribute) : Node :=
  mkNode (NodeType node) (ExtendedAttributes node) l.

(** Modelled from the spec: [NewGenericAttribute] (internal/restic/node.go)
    is not under src/.  A generic attribute is a type tag and a value, the
    tag stored as the attribute's name. *)
Definition NewGenericAttribute (type : string) (bytes : list byte) : Attribute :=
  mkAttribute type bytes.

(** Modelled from the spec: [handleUnknownGenericAttributeFound]
    (internal/restic/node.go) is not under src/.  It inserts the type into
    the process-wide unknown-type set and, only if the type was not already
    present, emits one diagnostic. *)
Definition unknown_diagnostic (type : string) : string :=
  String.append "Found an unknown generic attribute in the repo: " type.

Definition handleUnknownGenericAttributeFound {W : Type} (type : string) : M W unit :=
  fun s =>
    if decide (type ∈ unknownTypes s) then
      (Ret tt, mkProc (world s) ({[type]} ∪ unknownTypes s) (stderr s)
                      (debugLog s) (calls s))
    else
      (Ret tt, mkProc (world s) ({[type]} ∪ unknownTypes s)
                      (stderr s ++ [unknown_diagnostic type])
                      (debugLog s) (calls s)).

(** Modelled from the spec: [errors.CombineErrors] (internal/errors) is not
    under src/.  It returns nil when no error occurred and otherwise one
    aggregate error made of all the errors it was given. *)
Definition CombineErrors (errs : list error) : option error :=
  match errs with
  | [] => None
  | _ :: _ => Some (Combined errs)
  end.

End Node.

(** ** The Windows system interface

    What [node_windows.go] calls and does not define: system calls, the
    path functions of Go's library, functions of [internal/fs] that are not
    among the sources ([ClearSystem], [IsErrorOfType], the security
    descriptor bridge) and the three type tags of [node.go].  A Go result
    [(T, error)] of a system call is a sum: the value or the error. *)

Class WindowsAPI (W : Type) : Type := {
  (** [procEncryptFile.Call] and [procDecryptFile.Call]: the return value
      and the last error, which [LazyProc.Call] always returns *)
  EncryptFileW : string -> W -> (Z * GoErrors.error) * W;
  DecryptFileW : string -> W -> (Z * GoErrors.error) * W;
  GetFileAttributes : string -> W -> (Z + GoErrors.error) * W;
  SetFileAttributes : string -> Z -> W -> option GoErrors.error * W;
  CreateFile : string -> W -> (Z + GoErrors.error) * W;
  SetFileTime : Z -> Z -> Z -> W -> option GoErrors.error * W;
  CloseHandle : Z -> W -> option GoErrors.error * W;
  ClearSystem : string -> W -> option GoErrors.error * W;
  GetFileSecurityDescriptor : string -> W -> (string + GoErrors.error) * W;
  SetFileSecurityDescriptor : string -> string -> W -> option GoErrors.error * W;
  IsErrorOfType : GoErrors.error -> Z -> bool;
  filepath_Base : string -> string;
  filepath_Clean : string -> string;
  EINVAL : Z;
  TypeFileAttribute : string;
  TypeCreationTime : string;
  TypeSecurityDescriptor : string
}.

(** ** [internal/fs/file_windows.go] *)

Module FileWindows.
Import GoBytes GoErrors Runtime.

Definition ERROR_ACCESS_DENIED : Z := 5.

(** [IsAccessDeniedError] checks if the error is ERROR_ACCESS_DENIED. *)
Definition IsAccessDeniedError `{WindowsAPI W} (err : error) : bool :=
  IsErrorOfType err ERROR_ACCESS_DENIED.

(** [IsAccessDenied] checks if the error is ERROR_ACCESS_DENIED or a path
    error due to it. *)
Definition IsAccessDenied `{WindowsAPI W} (err : error) : bool :=
  let isAccessDenied := IsAccessDeniedError err in
  if negb isAccessDenied then
    match err with
    | PathError _ _ e => IsAccessDeniedError e
    | _ => isAccessDenied
    end
  else isAccessDenied.

End FileWindows.

(** ** [internal/restic/node_windows.go] *)

Module NodeWindows.
Import GoBytes GoErrors Runtime Node FileWindows.
Local Open Scope go_scope.

Section WithAPI.
Context {W : Type} `{API : WindowsAPI W}.

Definition FILE_ATTRIBUTE_ENCRYPTED : Z := 16384.

(** [syscall.Win32FileAttributeData], of which [statT] is a copy; the
    fields the code reads. *)
Record Win32FileAttributeData : Type := mkWin32FileAttributeData {
  FileAttributes : Z;
  CreationTimeLow : Z;
  CreationTimeHigh : Z
}.

(** [os.FileInfo]: what [fi.Sys()] holds when it is a non-nil
    [*syscall.Win32FileAttributeData]. *)
Record FileInfo : Type := mkFileInfo {
  Sys : option Win32FileAttributeData
}.

(** [syscall.UTF16PtrFromString]: fails on a string with a NUL byte; the
    pointer is represented by the string it points to. *)
Definition UTF16PtrFromString (s : string) : string + error :=
  if strings_Contains s (String Ascii.zero EmptyString)
  then inr (Errno EINVAL)
  else inl s.

(** [encryptFile] sets the encrypted flag on the file. *)
Definition encryptFile (pathPointer : string) : M W (option error) :=
  r <- os_call (CallEncryptFile pathPointer) (EncryptFileW pathPointer) ;;
  let '(ret_, err) := r in
  if ret_ =? 0 then ret (Some err) else ret None.

(** [decryptFile] removes the encrypted flag from the file. *)
Definition decryptFile (pathPointer : string) : M W (option error) :=
  r <- os_call (CallDecryptFile pathPointer) (DecryptFileW pathPointer) ;;
  let '(ret_, err) := r in
  if ret_ =? 0 then ret (Some err) else ret None.

(** [fixEncryptionAttribute]. *)
Definition fixEncryptionAttribute (path : string) (attrs : Z) (pathPointer : string)
  : M W (option error) :=
  if negb (Z.land attrs FILE_ATTRIBUTE_ENCRYPTED =? 0) then
    (* File should be encrypted. *)
    err <- encryptFile pathPointer ;;
    match err with
    | Some e =>
        if IsAccessDenied e then
          err <- os_call (CallClearSystem path) (ClearSystem path) ;;
          match err with
          | Some e =>
              ret (Some (Errorf2
                "failed to encrypt file: failed to clear system flag: %s : %v" path e))
          | None =>
              err <- encryptFile pathPointer ;;
              match err with
              | Some e => ret (Some (Errorf2 "failed to encrypt file: %s : %v" path e))
              | None => ret None
              end
          end
        else ret (Some (Errorf2 "failed to encrypt file: %s : %v" path e))
    | None => ret None
    end
  else
    r <- os_call (CallGetFileAttributes pathPointer) (GetFileAttributes pathPointer) ;;
    match r with
    | inr e =>
        ret (Some (Errorf2
          "failed to get file attributes for existing file: %s : %v" path e))
    | inl existingAttrs =>
        if negb (Z.land existingAttrs FILE_ATTRIBUTE_ENCRYPTED =? 0) then
          (* File should not be encrypted, but its already encrypted. *)
          err <- decryptFile pathPointer ;;
          match err with
          | Some e =>
              if IsAccessDenied e then
                err <- os_call (CallClearSystem path) (ClearSystem path) ;;
                match err with
                | Some e =>
                    ret (Some (Errorf2
                      "failed to decrypt file: failed to clear system flag: %s : %v"
                      path e))
                | None =>
                    err <- decryptFile pathPointer ;;
                    match err with
                    | Some e =>
                        ret (Some (Errorf2 "failed to decrypt file: %s : %v" path e))
                    | None => ret None
                    end
                end
              else ret (Some (Errorf2 "failed to decrypt file: %s : %v" path e))
          | None => ret None
          end
        else ret None
    end.

(** [handleFileAttributes] gets the file attributes from the data and sets
    them on the file or folder at the path. *)
Definition handleFileAttributes (path : string) (data : list byte)
  : M W (option error) :=
  match Uint32 data with
  | None => panic
  | Some attrs =>
      match UTF16PtrFromString path with
      | inr err => ret (Some err)
      | inl pathPointer =>
          err <- fixEncryptionAttribute path attrs pathPointer ;;
          match err with
          | Some e =>
              debug_Log "Could not change encryption attribute for path: %s: %v"
                        [LogStr path; LogErr e]
          | None => ret tt
          end ;;;
          os_call (CallSetFileAttributes pathPointer attrs)
                  (SetFileAttributes pathPointer attrs)
      end
  end.

(** The deferred [syscall.Close(handle)] with its log line. *)
Definition close_handle (path : string) (handle : Z) : M W unit :=
  err <- os_call (CallCloseHandle handle) (CloseHandle handle) ;;
  match err with
  | Some e => debug_Log "Error closing file handle for %s: %v\n" [LogStr path; LogErr e]
  | None => ret tt
  end.

(** [binary.LittleEndian.Uint32(data[i:i+4])]: the slice expression is
    checked against the capacity of [data], of which [beyond] holds the
    bytes past the length. *)
Definition word_at (data beyond : list byte) (i : Z) : option Z :=
  match slice_within_cap data beyond i (i + 4) with
  | Some b => Uint32 b
  | None => None
  end.

(** [handleCreationTime] gets the creation time from the data and sets it on
    the file or folder at the path.  [beyond] holds the bytes of the backing
    array of [data] between its length and its capacity.  The slice
    expressions [data[0:4]] and [data[4:8]] panic when the capacity of
    [data] is below their upper bound; the deferred close still runs. *)
Definition handleCreationTime (path : string) (data beyond : list byte)
  : M W (option error) :=
  match UTF16PtrFromString path with
  | inr err => ret (Some err)
  | inl pathPointer =>
      r <- os_call (CallCreateFile pathPointer) (CreateFile pathPointer) ;;
      match r with
      | inr err => ret (Some err)
      | inl handle =>
          match word_at data beyond 0, word_at data beyond 4 with
          | Some low, Some high =>
              err <- os_call (CallSetFileTime handle low high)
                             (SetFileTime handle low high) ;;
              close_handle path handle ;;;
              ret err
          | _, _ => close_handle path handle ;;; panic
          end
      end
  end.

(** [handleSecurityDescriptor]. *)
Definition handleSecurityDescriptor (path : string) (data : list byte)
  : M W (option error) :=
  os_call (CallSetSecurityDescriptor path (string_of_bytes data))
          (SetFileSecurityDescriptor path (string_of_bytes data)).

(** [restoreGenericAttribute] restores one generic attribute. *)
Definition restoreGenericAttribute (attr : Attribute) (path : string)
  : M W (option error) :=
  if String.eqb (Name attr) TypeFileAttribute then
    handleFileAttributes path (Value attr)
  else if String.eqb (Name attr) TypeCreationTime then
    handleCreationTime path (Value attr) (ValueSpare attr)
  else if String.eqb (Name attr) TypeSecurityDescriptor then
    handleSecurityDescriptor path (Value attr)
  else
    handleUnknownGenericAttributeFound (Name attr) ;;;
    ret None.

(** The loop of [restoreGenericAttributes]. *)
Fixpoint restore_loop (path : string) (attrs : list Attribute) (errs : list error)
  : M W (list error) :=
  match attrs with
  | [] => ret errs
  | attr :: attrs' =>
      errGen <- restoreGenericAttribute attr path ;;
      match errGen with
      | Some e =>
          restore_loop path attrs'
            (errs ++ [Errorf2 "error restoring generic attribute for: %s : %v" path e])
      | None => restore_loop path attrs' errs
      end
  end.

(** [restoreGenericAttributes] restores generic attributes for Windows. *)
Definition restoreGenericAttributes (node : Node) (path : string)
  : M W (option error) :=
  errs <- restore_loop path (GenericAttributes node) [] ;;
  ret (CombineErrors errs).

(** [appendGenericAttribute] appends a generic attribute to the node. *)
Definition appendGenericAttribute (node : Node) (genericAttribute : Attribute) : Node :=
  if negb (String.eqb (Name genericAttribute) "") then
    set_GenericAttributes node (GenericAttributes node ++ [genericAttribute])
  else node.

(** [UInt32ToBytes] converts a uint32 value to a byte array. *)
Definition UInt32ToBytes (value : Z) : list byte := PutUint32 value.

(** [getFileAttributes]. *)
Definition getFileAttributes (fileattr : Z) : Attribute :=
  NewGenericAttribute TypeFileAttribute (UInt32ToBytes fileattr).

Definition zero_Attribute : Attribute := mkAttribute "" [].

(** [GetCreationTime]. *)
Definition GetCreationTime (fi : FileInfo) (path : string) : M W Attribute :=
  match Sys fi with
  | Some attrib =>
      ret (NewGenericAttribute TypeCreationTime
             (PutUint32 (CreationTimeLow attrib) ++ PutUint32 (CreationTimeHigh attrib)))
  | None =>
      debug_Log "Could not get create time for path: %s" [LogStr path] ;;;
      ret zero_Attribute
  end.

(** [getSecurityDescriptor]. *)
Definition getSecurityDescriptor (path : string) : M W (Attribute * option error) :=
  r <- os_call (CallGetSecurityDescriptor path) (GetFileSecurityDescriptor path) ;;
  match r with
  | inr e =>
      let err := Errorf2 "Error getting file SecurityDescriptor for: %s : %v" path e in
      debug_Log "%v" [LogErr err] ;;;
      ret (zero_Attribute, Some err)
  | inl sd =>
      if negb (String.eqb sd "") then
        ret (NewGenericAttribute TypeSecurityDescriptor (bytes_of_string sd), None)
      else ret (zero_Attribute, None)
  end.

(** [fillGenericAttributes] fills in the generic attributes for Windows.
    The node is updated in place; the model returns it with the two
    results.  [stat] is dereferenced and is taken to be a non-nil pointer.
    The [err] assigned in the last block is a new variable of that block,
    so the [err] returned is the named result, which is never assigned. *)
Definition fillGenericAttributes (node : Node) (path : string) (fi : FileInfo)
    (stat : Win32FileAttributeData) : M W (Node * (bool * option error)) :=
  if strings_Contains (filepath_Base path) ":" then
    (* Do not process for Alternate Data Streams in Windows *)
    ret (node, (false, None))
  else
    node <- (if negb (strings_HasSuffix (filepath_Clean path) "\") then
               let node := appendGenericAttribute node
                             (getFileAttributes (FileAttributes stat)) in
               ct <- GetCreationTime fi path ;;
               ret (appendGenericAttribute node ct)
             else ret node) ;;
    node <- (if String.eqb (NodeType node) "file" || String.eqb (NodeType node) "dir"
             then
               r <- getSecurityDescriptor path ;;
               let '(sd, err) := r in
               match err with
               | None => ret (appendGenericAttribute node sd)
               | Some _ => ret node
               end
             else ret node) ;;
    ret (node, (true, None)).

(** The write-up of a failed fix-up in the debug log. *)
Definition logged_failure (path : string) (e : error) (s : Proc W) : Proc W :=
  mkProc (world s) (unknownTypes s) (stderr s)
         (debugLog s
          ++ [("Could not change encryption attribute for path: %s: %v",
               [LogStr path; LogErr e])])
         (calls s).

(** Every attribute handled in turn, whatever the earlier ones returned,
    with the result of each; and the errors [restoreGenericAttributes]
    records for those results. *)
Fixpoint attempt_all (path : string) (attrs : list Attribute)
  : M W (list (option error)) :=
  match attrs with
  | [] => ret []
  | attr :: attrs' =>
      errGen <- restoreGenericAttribute attr path ;;
      rest <- attempt_all path attrs' ;;
      ret (errGen :: rest)
  end.

Definition recorded_failure (path : string) (errGen : option error) : list error :=
  match errGen with
  | Some e => [Errorf2 "error restoring generic attribute for: %s : %v" path e]
  | None => []
  end.

Definition recorded_failures (path : string) (results : list (option error))
  : list error :=
  concat (map (recorded_failure path) results).

(** What the first block of [fillGenericAttributes] captures for a path
    that is no drive root: the file attributes and the creation time, each
    kept only under a non-empty name. *)
Definition creation_time_attribute (fi : FileInfo) : Attribute :=
  match Sys fi with
  | Some attrib =>
      NewGenericAttribute TypeCreationTime
        (PutUint32 (CreationTimeLow attrib) ++ PutUint32 (CreationTimeHigh attrib))
  | None => zero_Attribute
  end.

Definition named (attr : Attribute) : list Attribute :=
  if String.eqb (Name attr) "" then [] else [attr].

Definition basic_attributes (path : string) (fi : FileInfo)
    (stat : Win32FileAttributeData) : list Attribute :=
  if strings_HasSuffix (filepath_Clean path) "\" then []
  else named (getFileAttributes (FileAttributes stat))
       ++ named (creation_time_attribute fi).

End WithAPI.
End NodeWindows.

(** ** The earlier Windows adapter

    The sources carry a second, earlier copy of the Windows adapter.  It
    knows two type tags, sets file attributes without the encryption fix-up, returns
    [allowExtended=false] for drive roots too, and reports only the last
    failure of [restoreGenericAttributes]. *)

Module NodeWindowsEarlier.
Import GoBytes GoErrors Runtime Node.
Local Open Scope go_scope.

Section WithAPI.
Context {W : Type} `{API : WindowsAPI W}.

Definition handleFileAttributes (path : string) (data : list byte)
  : M W (option error) :=
  match Uint32 data with
  | None => panic
  | Some attrs =>
      match NodeWindows.UTF16PtrFromString path with
      | inr err => ret (Some err)
      | inl pathPointer =>
          os_call (CallSetFileAttributes pathPointer attrs)
                  (SetFileAttributes pathPointer attrs)
      end
  end.

Definition handleCreationTime (path : string) (data beyond : list byte)
  : M W (option error) :=
  match NodeWindows.UTF16PtrFromString path with
  | inr err => ret (Some err)
  | inl pathPointer =>
      r <- os_call (CallCreateFile pathPointer) (CreateFile pathPointer) ;;
      match r with
      | inr err => ret (Some err)
      | inl handle =>
          match NodeWindows.word_at data beyond 0,
                NodeWindows.word_at data beyond 4 with
          | Some low, Some high =>
              err <- os_call (CallSetFileTime handle low high)
                             (SetFileTime handle low high) ;;
              NodeWindows.close_handle path handle ;;;
              ret err
          | _, _ => NodeWindows.close_handle path handle ;;; panic
          end
      end
  end.

(** [restoreGenericAttribute]: file attributes and creation time only. *)
Definition restoreGenericAttribute (attr : Attribute) (path : string)
  : M W (option error) :=
  if String.eqb (Name attr) TypeFileAttribute then
    handleFileAttributes path (Value attr)
  else if String.eqb (Name attr) TypeCreationTime then
    handleCreationTime path (Value attr) (ValueSpare attr)
  else
    handleUnknownGenericAttributeFound (Name attr) ;;;
    ret None.

(** The loop of [restoreGenericAttributes]: every failure overwrites [err]
    and is written to the debug log. *)
Fixpoint restore_loop (path : string) (attrs : list Attribute) (err : option error)
  : M W (option error) :=
  match attrs with
  | [] => ret err
  | attr :: attrs' =>
      errGen <- restoreGenericAttribute attr path ;;
      match errGen with
      | Some e =>
          let err := Errorf2 "Error restoring generic attribute for: %s : %v" path e in
          debug_Log "%v" [LogErr err] ;;;
          restore_loop path attrs' (Some err)
      | None => restore_loop path attrs' err
      end
  end.

Definition restoreGenericAttributes (node : Node) (path : string)
  : M W (option error) :=
  restore_loop path (GenericAttributes node) None.

(** Every attribute handled in turn by the earlier adapter. *)
Fixpoint attempt_all (path : string) (attrs : list Attribute)
  : M W (list (option error)) :=
  match attrs with
  | [] => ret []
  | attr :: attrs' =>
      errGen <- restoreGenericAttribute attr path ;;
      rest <- attempt_all path attrs' ;;
      ret (errGen :: rest)
  end.

(** What the loop of [restoreGenericAttributes] keeps of the results of the
    handlers: the failure of the last attribute that failed. *)
Definition last_failure (path : string) (err : option error)
    (results : list (option error)) : option error :=
  foldl (fun acc errGen =>
           match errGen with
           | Some e =>
               Some (Errorf2 "Error restoring generic attribute for: %s : %v" path e)
           | None => acc
           end) err results.

(** Two processes that differ in the debug log at most. *)
Definition same_but_log (s t : Proc W) : Prop :=
  world s = world t /\ unknownTypes s = unknownTypes t /\
  stderr s = stderr t /\ calls s = calls t.

Definition getCreationTime (fi : NodeWindows.FileInfo) (path : string) : M W Attribute :=
  match NodeWindows.Sys fi with
  | Some attrib =>
      ret (NewGenericAttribute TypeCreationTime
             (PutUint32 (NodeWindows.CreationTimeLow attrib)
              ++ PutUint32 (NodeWindows.CreationTimeHigh attrib)))
  | None =>
      debug_Log "Could not get create time for path: %s" [LogStr path] ;;;
      ret NodeWindows.zero_Attribute
  end.

(** [fillGenericAttributes]: nothing for drive roots and alternate data
    streams, file attributes and creation time otherwise. *)
Definition fillGenericAttributes (node : Node) (path : string)
    (fi : NodeWindows.FileInfo) (stat : NodeWindows.Win32FileAttributeData)
  : M W (Node * (bool * option error)) :=
  if strings_Contains (filepath_Base path) ":"
     || strings_HasSuffix (filepath_Clean path) "\" then
    ret (node, (false, None))
  else
    let node := NodeWindows.appendGenericAttribute node
                  (NodeWindows.getFileAttributes (NodeWindows.FileAttributes stat)) in
    ct <- getCreationTime fi path ;;
    ret (NodeWindows.appendGenericAttribute node ct, (true, None)).

End WithAPI.
End NodeWindowsEarlier.

(** ** The adapters without generic attributes (aix, netbsd, openbsd) *)

Module NodeNoop.
Import GoErrors Runtime Node.
Local Open Scope go_scope.

Section WithWorld.
Context {W : Type}.

(** [restoreGenericAttributes] is a no-op: every attribute is unknown. *)
Fixpoint restore_loop (attrs : list Attribute) : M W unit :=
  match attrs with
  | [] => ret tt
  | attr :: attrs' =>
      handleUnknownGenericAttributeFound (Name attr) ;;;
      restore_loop attrs'
  end.

Definition restoreGenericAttributes (node : Node) (path : string)
  : M W (option error) :=
  restore_loop (GenericAttributes node) ;;;
  ret None.

(** [fillGenericAttributes] is a no-op. *)
Definition fillGenericAttributes (node : Node) (path : string)
  : M W (Node * (bool * option error)) :=
  ret (node, (true, None)).

End WithWorld.
End NodeNoop.

(** ** Runs of unknown types

    What a sequence of calls of [handleUnknownGenericAttributeFound] leaves
    behind, used to state what the adapters do with the types they do not
    know. *)

Module UnknownTypes.
Import GoErrors Runtime Node.

(** The process after the types [types] were met in turn. *)
Definition after_unknown {W : Type} (types : list string) (s : Proc W) : Proc W :=
  foldl (fun st type => (handleUnknownGenericAttributeFound type st).2) s types.

(** The types of [types] that are met for the first time: neither in the
    set [seen] nor earlier in the list. *)
Fixpoint first_seen (seen : gset string) (types : list string) : list string :=
  match types with
  | [] => []
  | type :: rest =>
      if decide (type ∈ seen) then first_seen seen rest
      else type :: first_seen ({[type]} ∪ seen) rest
  end.

End UnknownTypes.

(** ** The xattr adapter (darwin, freebsd, linux, solaris)

    The calls into github.com/pkg/xattr return the value or an error, and
    the two error numbers the adapter tolerates differ between systems. *)

Class XattrAPI (W : Type) : Type := {
  LList : string -> W -> (list string + GoErrors.error) * W;
  LGet : string -> string -> W -> (list byte + GoErrors.error) * W;
  LSet : string -> string -> list byte -> W -> option GoErrors.error * W;
  ENOTSUP : Z;
  ENOATTR : Z
}.

Module NodeXattr.
Import GoBytes GoErrors Runtime Node.
Local Open Scope go_scope.

Section WithAPI.
Context {W : Type} `{API : XattrAPI W}.

(** [handleXattrErr]. *)
Definition handleXattrErr (err : option error) : option error :=
  match err with
  | None => None
  | Some (XattrError op path name cause) =>
      (* On Linux, xattr calls on files in an SMB/CIFS mount can return
         ENOATTR instead of ENOTSUP. *)
      if is_errno cause ENOTSUP || is_errno cause ENOATTR then None
      else Some (WithStack (XattrError op path name cause))
  | Some e => Some (WithStack e)
  end.

(** [getxattr] retrieves extended attribute data associated with path. *)
Definition getxattr (path name : string) : M W (list byte * option error) :=
  r <- os_call (CallLGet path name) (LGet path name) ;;
  match r with
  | inl b => ret (b, handleXattrErr None)
  | inr e => ret ([], handleXattrErr (Some e))
  end.

(** [listxattr] retrieves the names of the extended attributes of path. *)
Definition listxattr (path : string) : M W (list string * option error) :=
  r <- os_call (CallLList path) (LList path) ;;
  match r with
  | inl l => ret (l, handleXattrErr None)
  | inr e => ret ([], handleXattrErr (Some e))
  end.

(** [setxattr] associates name and data together as an attribute of path. *)
Definition setxattr (path name : string) (data : list byte) : M W (option error) :=
  err <- os_call (CallLSet path name data) (LSet path name data) ;;
  ret (handleXattrErr err).

(** [restoreExtendedAttributes]. *)
Fixpoint restore_loop (path : string) (attrs : list Attribute) : M W (option error) :=
  match attrs with
  | [] => ret None
  | attr :: attrs' =>
      err <- setxattr path (Name attr) (Value attr) ;;
      match err with
      | Some e => ret (Some e)
      | None => restore_loop path attrs'
      end
  end.

Definition restoreExtendedAttributes (node : Node) (path : string)
  : M W (option error) :=
  restore_loop path (ExtendedAttributes node).

(** The loop of [fillExtendedAttributes] over the names listed. *)
Fixpoint fill_loop (path : string) (xattrs : list string) (node : Node) : M W Node :=
  match xattrs with
  | [] => ret node
  | attr :: xattrs' =>
      r <- getxattr path attr ;;
      let '(attrVal, err) := r in
      match err with
      | Some _ =>
          print_stderr
            (String.append "can not obtain extended attribute "
               (String.append attr (String.append " for " path))) ;;;
          fill_loop path xattrs' node
      | None =>
          fill_loop path xattrs'
            (set_ExtendedAttributes node
               (ExtendedAttributes node ++ [mkAttribute attr attrVal]))
      end
  end.

(** [fillExtendedAttributes]: the node is updated in place; the model
    returns it with the error. *)
Definition fillExtendedAttributes (node : Node) (path : string)
  : M W (Node * option error) :=
  r <- listxattr path ;;
  let '(xattrs, err) := r in
  debug_Log "fillExtendedAttributes(%v) %v %v"
            ([LogStr path] ++ map LogStr xattrs
             ++ match err with Some e => [LogErr e] | None => [] end) ;;;
  match err with
  | Some e => ret (node, Some e)
  | None =>
      node <- fill_loop path xattrs (set_ExtendedAttributes node []) ;;
      ret (node, None)
  end.

(** The errors [handleXattrErr] turns into success: an [*xattr.Error]
    whose cause is ENOTSUP or ENOATTR. *)
Definition tolerated (e : error) : bool :=
  match e with
  | XattrError _ _ _ cause => is_errno cause ENOTSUP || is_errno cause ENOATTR
  | _ => false
  end.

(** The process after one system call that left the world [w]. *)
Definition after_call (c : Call) (w : W) (s : Proc W) : Proc W :=
  mkProc w (unknownTypes s) (stderr s) (debugLog s) (calls s ++ [c]).

End WithAPI.
End NodeXattr.

(** ** Simulated systems

    Small executable worlds on which the code above can be run: one Windows
    file with its attribute bits, and one file with extended attributes. *)

Module SimWindows.
Import GoBytes GoErrors Runtime Node.

Definition FILE_ATTRIBUTE_SYSTEM : Z := 4.

Record SimFile : Type := mkSimFile {
  sim_attrs : Z;
    (** the attribute bits of the file *)
  sim_denied : nat;
    (** how many of the coming encrypt and decrypt calls are refused with
        ERROR_ACCESS_DENIED *)
  sim_set_attrs : option error;
    (** what [SetFileAttributes] answers *)
  sim_create : option error;
    (** what [CreateFile] answers; a handle when [None] *)
  sim_ctime : Z * Z;
  sim_sd : string + error
    (** the security descriptor, or why it cannot be read *)
}.

Definition with_attrs (f : SimFile) (attrs : Z) (denied : nat) : SimFile :=
  mkSimFile attrs denied (sim_set_attrs f) (sim_create f) (sim_ctime f) (sim_sd f).

Definition sim_crypt (flag_on : bool) (_ : string) (f : SimFile)
  : (Z * error) * SimFile :=
  match sim_denied f with
  | S n => ((0, Errno FileWindows.ERROR_ACCESS_DENIED), with_attrs f (sim_attrs f) n)
  | O =>
      ((1, Errno 0),
       with_attrs f
         (if flag_on then Z.lor (sim_attrs f) NodeWindows.FILE_ATTRIBUTE_ENCRYPTED
          else Z.ldiff (sim_attrs f) NodeWindows.FILE_ATTRIBUTE_ENCRYPTED) O)
  end.

(** [filepath.Base] on the paths used here: a bare file name is its own
    base, and the base of a drive root is the separator. *)
Definition sim_Base (path : string) : string :=
  if String.eqb path "C:\" then "\" else path.

#[export] Instance sim_api : WindowsAPI SimFile := {|
  EncryptFileW := sim_crypt true;
  DecryptFileW := sim_crypt false;
  GetFileAttributes := fun _ f => (inl (sim_attrs f), f);
  SetFileAttributes := fun _ attrs f =>
    match sim_set_attrs f with
    | Some e => (Some e, f)
    | None => (None, with_attrs f attrs (sim_denied f))
    end;
  CreateFile := fun _ f =>
    match sim_create f with
    | Some e => (inr e, f)
    | None => (inl 3, f)
    end;
  SetFileTime := fun _ low high f =>
    (None, mkSimFile (sim_attrs f) (sim_denied f) (sim_set_attrs f) (sim_create f)
                     (low, high) (sim_sd f));
  CloseHandle := fun _ f => (None, f);
  ClearSystem := fun _ f =>
    (None, with_attrs f (Z.ldiff (sim_attrs f) FILE_ATTRIBUTE_SYSTEM) (sim_denied f));
  GetFileSecurityDescriptor := fun _ f => (sim_sd f, f);
  SetFileSecurityDescriptor := fun _ sd f =>
    (None, mkSimFile (sim_attrs f) (sim_denied f) (sim_set_attrs f) (sim_create f)
                     (sim_ctime f) (inl sd));
  IsErrorOfType := is_errno;
  filepath_Base := sim_Base;
  filepath_Clean := fun path => path;
  EINVAL := 536870951;
  TypeFileAttribute := "windows.file_attributes";
  TypeCreationTime := "windows.creation_time";
  TypeSecurityDescriptor := "windows.security_descriptor"
|}.

(** A plain file, a file that is already encrypted, and a system file on
    which every encrypt call is refused. *)
Definition plain_file : SimFile :=
  mkSimFile 32 0 None None (0, 0) (inl "O:BAG:SYD:").

Definition encrypted_file : SimFile :=
  mkSimFile (32 + 16384) 0 None None (0, 0) (inl "O:BAG:SYD:").

Definition locked_file : SimFile :=
  mkSimFile (32 + 4) 2 None None (0, 0) (inl "O:BAG:SYD:").

(** A node with two attributes that cannot be restored on a read-only
    volume, around one of a type no adapter knows. *)
Definition three_attributes : Node :=
  mkNode "file" []
    [mkAttribute "windows.file_attributes" [x20; x00; x00; x00];
     mkAttribute "vendor.experimental" [x01];
     mkAttribute "windows.creation_time" [x04; x03; x02; x01; x08; x07; x06; x05]].

Definition experimental : Attribute := mkAttribute "vendor.experimental" [x01].

Definition unreadable_sd_file : SimFile :=
  mkSimFile 32 0 None None (0, 0) (inr (Errno FileWindows.ERROR_ACCESS_DENIED)).

Definition readonly_volume_file : SimFile :=
  mkSimFile 32 0 (Some (Errno 19)) (Some (Errno 5)) (0, 0) (inl "O:BAG:SYD:").

(** A stat view with the archive bit and the creation time of the spec's
    scenario (low word 0x01020304, high word 0x05060708). *)
Definition sample_stat : NodeWindows.Win32FileAttributeData :=
  NodeWindows.mkWin32FileAttributeData 32 16909060 84281096.

Definition sample_fi : NodeWindows.FileInfo := NodeWindows.mkFileInfo (Some sample_stat).

(** The value of a file-attribute attribute asking for an encrypted file. *)
Definition encrypted_bits : list byte := [x20; x40; x00; x00].

End SimWindows.

Module SimXattr.
Import GoBytes GoErrors Runtime Node.

(** A file system that answers every xattr call the same way. *)
Record SimFs : Type := mkSimFs {
  fs_list : list string + error;
  fs_get : string -> list byte + error;
  fs_set : string -> option error
}.

#[export] Instance sim_api : XattrAPI SimFs := {|
  LList := fun _ fs => (fs_list fs, fs);
  LGet := fun _ name fs => (fs_get fs name, fs);
  LSet := fun _ name _ fs => (fs_set fs name, fs);
  ENOTSUP := 95;
  ENOATTR := 61
|}.

Definition not_supported : error := XattrError "xattr.list" "f" "" (Errno 95).
Definition no_attribute (name : string) : error :=
  XattrError "xattr.set" "f" name (Errno 61).
Definition io_error : error := XattrError "xattr.list" "f" "" (Errno 5).

(** No xattr support at all; a CIFS mount that answers ENOATTR on set; a
    file system whose calls fail with EIO. *)
Definition unsupported_fs : SimFs :=
  mkSimFs (inr not_supported) (fun _ => inr not_supported) (fun _ => Some not_supported).

Definition cifs_fs : SimFs :=
  mkSimFs (inl []) (fun name => inr (no_attribute name))
          (fun name => Some (no_attribute name)).

Definition broken_fs : SimFs :=
  mkSimFs (inr io_error) (fun _ => inr io_error) (fun _ => Some io_error).

Definition node_user_foo : Node :=
  mkNode "file" [mkAttribute "user.foo" [x62; x61; x72];
                 mkAttribute "user.baz" []] [].

End SimXattr.

(** ** [SetFileEA] of [internal/fs/ea_windows.go] *)

Module EASet.
Import GoBytes GoErrors EA Runtime.

Section WithKernel.
Context {W : Type}.

(** One call of [NtSetEaFile] and, for a negative status, of
    [RtlNtStatusToDosErrorNoTeb]: from the handle, the buffer that
    [&encodedEA[0]] points to and the [uint32] length announced for it, the
    status and the DOS error code the status translates to. *)
Variable NtSetEaFile : Z -> list byte -> Z -> W -> (Z * Z) * W.


End WithKernel.


End EASet.

(** ** Paths and the read-only flag ([internal/fs/file_windows.go]) and the
    size of [statT] *)

Module FileWindowsPaths.
Import GoBytes GoErrors Runtime.
Local Open Scope go_scope.

(** [strings.HasPrefix]. *)
Definition strings_HasPrefix (s prefix : string) : bool := String.prefix prefix s.

(** The slice expression [s[n:]] on a string. *)
Fixpoint string_drop (n : nat) (s : string) : string :=
  match n, s with
  | O, _ => s
  | S n', String _ s' => string_drop n' s'
  | S _, EmptyString => EmptyString
  end.

(** [strings.Replace(s, old, new, 1)]: the first occurrence of [old] is
    replaced. *)
Fixpoint strings_Replace1 (s old new : string) : string :=
  if String.prefix old s then
    String.append new (string_drop (String.length old) s)
  else
    match s with
    | EmptyString => EmptyString
    | String c s' => String c (strings_Replace1 s' old new)
    end.

Section WithAbs.

(** [filepath.Abs]: the absolute path, or the error of reading the working
    directory. *)
Variable filepath_Abs : string -> string + error.

(** [fixpath] returns an absolute path on windows, so restic can open long
    file names. *)
Definition fixpath (name : string) : string :=
  match filepath_Abs name with
  | inl abspath =>
      (* Check if \\?\UNC\ already exist *)
      if strings_HasPrefix abspath "\\?\UNC\" then abspath
      (* Check if \\?\ already exist *)
      else if strings_HasPrefix abspath "\\?\" then abspath
      (* Check if path starts with \\ *)
      else if strings_HasPrefix abspath "\\" then
        strings_Replace1 abspath "\\" "\\?\UNC\"
      (* Normal path *)
      else String.append "\\?\" abspath
  | inr _ => name
  end.

End WithAbs.

(** A [filepath.Abs] for paths that are absolute already. *)
Definition abs_identity (name : string) : string + error := inl name.

Section WithAPI.
Context {W : Type} `{API : WindowsAPI W}.

(** [TrimAds], of [internal/fs], is not among the sources: it maps the name
    of an alternate data stream to the name of its main file. *)
Variable TrimAds : string -> string.

Definition FILE_ATTRIBUTE_READONLY : Z := 1.

(** [IsReadonly] checks if the fileAtributes have readonly bit. *)
Definition IsReadonly (fileAttributes : Z) : bool :=
  negb (Z.land fileAttributes FILE_ATTRIBUTE_READONLY =? 0).

(** [ClearReadonly] removes the readonly flag from the main file. *)
Definition ClearReadonly (isAds : bool) (path : string) : M W (option error) :=
  let path := if isAds then TrimAds path else path in
  match NodeWindows.UTF16PtrFromString path with
  | inr err => ret (Some err)
  | inl ptr =>
      r <- os_call (CallGetFileAttributes ptr) (GetFileAttributes ptr) ;;
      match r with
      | inr err => ret (Some err)
      | inl fileAttributes =>
          if IsReadonly fileAttributes then
            (* Clear FILE_ATTRIBUTE_READONLY flag *)
            let fileAttributes :=
              Z.land fileAttributes (uint32 (Z.lnot FILE_ATTRIBUTE_READONLY)) in
            err <- os_call (CallSetFileAttributes ptr fileAttributes)
                           (SetFileAttributes ptr fileAttributes) ;;
            match err with
            | Some e => ret (Some e)
            | None => ret None
            end
          else ret None
      end
  end.

End WithAPI.

(** A main-file name for the stream names used below: what precedes the
    first colon. *)
Fixpoint before_colon (s : string) : string :=
  match s with
  | EmptyString => EmptyString
  | String c s' => if String.eqb (String c EmptyString) ":" then EmptyString else String c (before_colon s')
  end.

End FileWindowsPaths.

Module StatT.
Import GoBytes.

(** The size fields of [statT], both [uint32]. *)
Record statT : Type := mkStatT {
  FileSizeHigh : Z;
  FileSizeLow : Z
}.

(** [size]: the shift is done on an [int64] and wraps. *)
Definition size (s : statT) : Z :=
  Z.lor (FileSizeLow s) (wrap_int (Z.shiftl (FileSizeHigh s) 32)).

End StatT.

(** ** Proof automation *)

Module Tactics.
Import GoBytes GoErrors Runtime Node NodeWindows.

(** Validity of a list of concrete attributes. *)
Ltac valid_list :=
  repeat (apply Forall_cons_2; [split; vm_compute; discriminate|]);
  apply Forall_nil_2.

(** Steps through monadic code: unfolds the combinators and names the
    answer of each system call. *)
Ltac step_os :=
  repeat (unfold bind, os_call, ret, debug_Log, encryptFile, decryptFile; simpl);
  repeat match goal with
         | |- context [EncryptFileW ?p ?w] =>
             let r := fresh "r" in let e := fresh "e" in let w' := fresh "w" in
             destruct (EncryptFileW p w) as [[r e] w'] eqn:?; simpl
         | |- context [DecryptFileW ?p ?w] =>
             let r := fresh "r" in let e := fresh "e" in let w' := fresh "w" in
             destruct (DecryptFileW p w) as [[r e] w'] eqn:?; simpl
         | |- context [ClearSystem ?p ?w] =>
             let e := fresh "e" in let w' := fresh "w" in
             destruct (ClearSystem p w) as [e w'] eqn:?; simpl
         | |- context [GetFileAttributes ?p ?w] =>
             let r := fresh "r" in let w' := fresh "w" in
             destruct (GetFileAttributes p w) as [r w'] eqn:?; simpl
         | |- context [if ?b then _ else _] => destruct b eqn:?; simpl
         | |- context [match ?x with Some _ => _ | None => _ end] =>
             destruct x eqn:?; simpl
         | |- context [match ?x with inl _ => _ | inr _ => _ end] =>
             destruct x eqn:?; simpl
         end.

End Tactics.

(** * Properties *)

(** ** Bytes and little-endian integers *)

Section ByteFacts.
Import GoBytes.

Lemma Z_of_byte_range (b : byte) : 0 <= Z_of_byte b < 256.
Proof.
  unfold Z_of_byte. pose proof (Byte.to_N_bounded b) as Hb.
  split; [apply N2Z.is_nonneg | lia].
Qed.

Lemma Z_of_byte_of_Z (z : Z) : Z_of_byte (byte_of_Z z) = z mod 256.
Proof.
  unfold Z_of_byte, byte_of_Z.
  pose proof (Z.mod_pos_bound z 256 eq_refl) as Hrange.
  destruct (Byte.of_N (Z.to_N (z mod 256))) as [b|] eqn:Hof.
  - apply Byte.to_of_N in Hof. rewrite Hof. lia.
  - apply Byte.of_N_None_iff in Hof. lia.
Qed.

Lemma byte_of_Z_of_byte (b : byte) : byte_of_Z (Z_of_byte b) = b.
Proof.
  unfold byte_of_Z. pose proof (Z_of_byte_range b) as Hb.
  rewrite Z.mod_small by lia. unfold Z_of_byte. rewrite N2Z.id.
  now rewrite Byte.of_to_N.
Qed.

Lemma land_255 (z : Z) : Z.land z 255 = z mod 256.
Proof. change 255 with (Z.ones 8). now rewrite Z.land_ones by lia. Qed.

Lemma lor_shiftl_add (a b k : Z) :
  0 <= k -> 0 <= a < 2 ^ k -> Z.lor a (Z.shiftl b k) = a + b * 2 ^ k.
Proof.
  intros Hk Ha. rewrite Z.shiftl_mul_pow2 by lia.
  symmetry. apply Z.add_nocarry_lor.
  apply Z.bits_inj'. intros n Hn.
  rewrite Z.land_spec, Z.bits_0.
  destruct (Z.ltb_spec n k) as [Hlt|Hge].
  - rewrite Z.mul_pow2_bits_low by lia. apply andb_false_r.
  - replace a with (a mod 2 ^ k) by (apply Z.mod_small; lia).
    rewrite Z.mod_pow2_bits_high by lia. reflexivity.
Qed.

Lemma Uint16_PutUint16 (v : Z) (rest : list byte) :
  0 <= v < 2 ^ 16 -> Uint16 (PutUint16 v ++ rest) = Some v.
Proof.
  intros Hv. unfold PutUint16, Uint16. simpl app. f_equal.
  rewrite !Z_of_byte_of_Z, !land_255, Z.shiftr_div_pow2 by lia.
  rewrite !Z.mod_mod by lia.
  rewrite lor_shiftl_add by (try apply Z.mod_pos_bound; lia).
  change (2 ^ 8) with 256. change (2 ^ 16) with 65536 in Hv.
  Z.div_mod_to_equations. lia.
Qed.

Lemma Uint32_PutUint32 (v : Z) (rest : list byte) :
  0 <= v < 2 ^ 32 -> Uint32 (PutUint32 v ++ rest) = Some v.
Proof.
  intros Hv. unfold PutUint32, Uint32. simpl app. f_equal.
  rewrite !Z_of_byte_of_Z, !land_255, !Z.shiftr_div_pow2 by lia.
  rewrite !Z.mod_mod by lia.
  change (2 ^ 32) with 4294967296 in Hv.
  pose proof (Z.mod_pos_bound v 256 eq_refl).
  pose proof (Z.mod_pos_bound (v / 2 ^ 8) 256 eq_refl).
  pose proof (Z.mod_pos_bound (v / 2 ^ 16) 256 eq_refl).
  pose proof (Z.mod_pos_bound (v / 2 ^ 24) 256 eq_refl).
  rewrite (lor_shiftl_add _ _ 8) by lia.
  rewrite (lor_shiftl_add _ _ 16) by lia.
  rewrite (lor_shiftl_add _ _ 24) by lia.
  change (2 ^ 8) with 256 in *. change (2 ^ 16) with 65536 in *.
  change (2 ^ 24) with 16777216 in *.
  Z.div_mod_to_equations. lia.
Qed.

End ByteFacts.

(** ** The EA codec *)

Section Codec.
Import GoBytes GoErrors EA Tactics.

Lemma length_bytes_of_string (s : string) :
  length (bytes_of_string s) = String.length s.
Proof.
  unfold bytes_of_string, String.list_byte_of_string.
  rewrite length_map. induction s as [|c s IH]; simpl; congruence.
Qed.

Lemma entry_size_bounds (ea : ExtendedAttribute) :
  valid_ea ea ->
  9 <= entry_size ea <= 65799 /\
  entry_size ea <= padded_size ea <= entry_size ea + 3.
Proof.
  intros [Hn Hv]. unfold padded_size, entry_size, fileFullEaInformationSize,
    strlen, len in *.
  split; [lia|]. Z.div_mod_to_equations. lia.
Qed.

Lemma ldiff_3 (x : Z) : Z.ldiff x 3 = 4 * (x / 4).
Proof.
  change 3 with (Z.ones 2). rewrite Z.ldiff_ones_r by lia.
  rewrite Z.shiftl_mul_pow2, Z.shiftr_div_pow2 by lia.
  change (2 ^ 2) with 4. lia.
Qed.

Lemma slice_zeros (k : Z) :
  0 <= k <= 3 -> slice [x00; x00; x00] 0 k = replicate (Z.to_nat k) x00.
Proof.
  intros Hk. unfold slice. rewrite Z.sub_0_r. simpl drop.
  assert (Hcases : k = 0 \/ k = 1 \/ k = 2 \/ k = 3) by lia.
  destruct Hcases as [->|[->|[->| ->]]]; reflexivity.
Qed.

(** On a valid attribute [writeEa] appends exactly one record. *)
Lemma writeEa_valid (buf : list byte) (ea : ExtendedAttribute) (last : bool) :
  valid_ea ea -> writeEa buf ea last = (buf ++ ea_record ea last, None).
Proof.
  intros Hvalid. pose proof (entry_size_bounds ea Hvalid) as [He Hp].
  destruct Hvalid as [Hn Hv].
  assert (Hn0 : 0 <= strlen (Name ea)) by (unfold strlen; lia).
  assert (Hv0 : 0 <= len (Value ea)) by (unfold len; lia).
  unfold writeEa, uint8, uint16, uint32.
  rewrite (Z.mod_small (strlen (Name ea))) by lia.
  rewrite (Z.mod_small (len (Value ea))) by lia.
  rewrite !Z.eqb_refl. simpl negb. cbv iota.
  fold (entry_size ea).
  rewrite (Z.mod_small (entry_size ea)) by lia.
  rewrite (Z.mod_small (entry_size ea + 3)) by lia.
  rewrite ldiff_3. fold (padded_size ea).
  rewrite (Z.mod_small (padded_size ea - entry_size ea)) by lia.
  rewrite slice_zeros by lia.
  unfold ea_record. rewrite <- !app_assoc. reflexivity.
Qed.

Lemma length_ea_record (ea : ExtendedAttribute) (last : bool) :
  valid_ea ea -> len (ea_record ea last) = padded_size ea.
Proof.
  intros Hvalid. pose proof (entry_size_bounds ea Hvalid) as [He Hp].
  unfold len, ea_record, write_info, PutUint32, PutUint16.
  rewrite !length_app, length_replicate, length_bytes_of_string.
  simpl length. unfold entry_size, fileFullEaInformationSize, strlen, len in *.
  lia.
Qed.

Lemma slice_app_mid {A : Type} (pre mid post : list A) (i j : Z) :
  0 <= i <= j -> len pre = i -> len mid = j - i ->
  slice (pre ++ mid ++ post) i j = mid.
Proof.
  unfold slice, len. intros Hij Hpre Hmid.
  rewrite drop_app_length' by lia. apply take_app_length'. lia.
Qed.

Lemma slice_app_4 {A : Type} (hdr nm sep v post : list A) (i j : Z) :
  0 <= i <= j -> len hdr + len nm + len sep = i -> len v = j - i ->
  slice (hdr ++ nm ++ sep ++ v ++ post) i j = v.
Proof.
  intros Hij Hpre Hv.
  replace (hdr ++ nm ++ sep ++ v ++ post) with ((hdr ++ nm ++ sep) ++ v ++ post)
    by now rewrite <- !app_assoc.
  apply slice_app_mid; [assumption| |assumption].
  unfold len in *. rewrite !length_app. lia.
Qed.

Lemma wrap_int_in_range (z : Z) : - 2 ^ 63 <= z < 2 ^ 63 -> wrap_int z = z.
Proof.
  intros Hz. unfold wrap_int, int_bits.
  change (2 ^ (64 - 1)) with 9223372036854775808.
  change (2 ^ 63) with 9223372036854775808 in Hz.
  change (2 ^ 64) with 18446744073709551616.
  Z.div_mod_to_equations. lia.
Qed.

Lemma wrap_int_overflow (z : Z) : 2 ^ 63 <= z < 2 ^ 64 -> wrap_int z < 0.
Proof.
  intros Hz. unfold wrap_int, int_bits.
  change (2 ^ (64 - 1)) with 9223372036854775808.
  change (2 ^ 63) with 9223372036854775808 in Hz.
  change (2 ^ 64) with 18446744073709551616 in *.
  Z.div_mod_to_equations. lia.
Qed.

Lemma wrap_int_small (z : Z) : 0 <= z < 2 ^ 32 -> wrap_int z = z.
Proof.
  intros Hz. apply wrap_int_in_range.
  change (2 ^ 32) with 4294967296 in Hz.
  change (2 ^ 63) with 9223372036854775808. lia.
Qed.

Lemma read_info_write_info (info : fileFullEaInformation) (more : list byte) :
  0 <= NextEntryOffset info < 2 ^ 32 ->
  0 <= NameLength info < 256 ->
  0 <= ValueLength info < 2 ^ 16 ->
  read_info (write_info info ++ more) = Some info.
Proof.
  intros Hnext Hname Hvalue. destruct info as [next fl nl vl]. simpl in *.
  pose proof (Uint32_PutUint32 next [] Hnext) as H32.
  pose proof (Uint16_PutUint16 vl [] Hvalue) as H16.
  unfold Uint32, Uint16, PutUint32, PutUint16 in H32, H16. simpl app in H32, H16.
  injection H32 as H32. injection H16 as H16.
  unfold write_info, read_info, Uint32, Uint16, PutUint32, PutUint16.
  simpl. rewrite H32, H16.
  rewrite Z_of_byte_of_Z, Z.mod_small by lia. reflexivity.
Qed.

(** [parseEa] reads back the record at the head of a buffer. *)
Lemma parseEa_record (ea : ExtendedAttribute) (last : bool) (tail : list byte) :
  valid_ea ea ->
  parseEa (ea_record ea last ++ tail)
  = (ea, if last then [] else tail, None).
Proof.
  intros Hvalid.
  pose proof (entry_size_bounds ea Hvalid) as [He Hp].
  pose proof (length_ea_record ea last Hvalid) as Hlen.
  assert (Hn0 : 0 <= strlen (Name ea) <= 255)
    by (destruct Hvalid; unfold strlen in *; lia).
  assert (Hv0 : 0 <= len (Value ea) <= 65535)
    by (destruct Hvalid; unfold len in *; lia).
  assert (Hblen : len (ea_record ea last ++ tail) = padded_size ea + len tail).
  { unfold len in *. rewrite length_app. lia. }
  set (next := if last then 0 else padded_size ea).
  assert (Hnext : 0 <= next <= padded_size ea) by (subst next; destruct last; lia).
  unfold parseEa. rewrite Hblen. unfold ea_record. fold next.
  rewrite <- app_assoc.
  rewrite read_info_write_info;
    [| simpl; change (2 ^ 32) with 4294967296; lia
     | simpl; lia
     | simpl; change (2 ^ 16) with 65536; lia ].
  simpl NameLength. simpl ValueLength. simpl NextEntryOffset. simpl InfoFlags.
  rewrite wrap_int_small by (change (2 ^ 32) with 4294967296; lia).
  assert (Htail : 0 <= len tail) by (unfold len; lia).
  unfold entry_size in *. 
  replace (len (Value ea) + (fileFullEaInformationSize + strlen (Name ea) + 1)
           >? padded_size ea + len tail) with false by (symmetry; lia).
  replace (next <? 0) with false by (symmetry; lia).
  replace (next >? padded_size ea + len tail) with false by (symmetry; lia).
  simpl orb. cbv iota.
  set (hdr := write_info _). set (pad := replicate _ x00).
  assert (Hhdr : len hdr = 8) by reflexivity.
  assert (Hnm : len (bytes_of_string (Name ea)) = strlen (Name ea)).
  { unfold len, strlen. now rewrite length_bytes_of_string. }
  rewrite <- !app_assoc.
  rewrite slice_app_mid by (unfold fileFullEaInformationSize; lia).
  rewrite slice_app_4 by (unfold fileFullEaInformationSize, len in *; simpl; lia).
  unfold string_of_bytes, bytes_of_string.
  rewrite String.string_of_list_byte_of_string.
  f_equal. f_equal; [now destruct ea|].
  subst next. destruct last; [reflexivity|].
  replace (padded_size ea =? 0) with false by (symmetry; lia).
  unfold slice_from. rewrite !app_assoc.
  apply drop_app_length'. subst hdr pad.
  unfold len, ea_record in Hlen. rewrite !length_app in *.
  simpl length in *. unfold bytes_of_string, entry_size in *. lia.
Qed.

Lemma decode_loop_eq (fuel : nat) (b : list byte) (eas : list ExtendedAttribute) :
  decode_loop fuel b eas =
  if len b =? 0 then Some (eas, None)
  else match fuel with
       | O => None
       | S fuel' =>
           match parseEa b with
           | (_, _, Some err) => Some ([], Some err)
           | (ea, nb, None) => decode_loop fuel' nb (eas ++ [ea])
           end
       end.
Proof. destruct fuel; reflexivity. Qed.

Lemma ea_record_nonempty (ea : ExtendedAttribute) (last : bool) (tail : list byte) :
  valid_ea ea -> (len (ea_record ea last ++ tail) =? 0) = false.
Proof.
  intros Hvalid. pose proof (entry_size_bounds ea Hvalid) as [He Hp].
  pose proof (length_ea_record ea last Hvalid) as Hlen.
  unfold len in *. rewrite length_app. apply Z.eqb_neq. lia.
Qed.

(** The encoder lays the attributes out as the chain of their records. *)
Lemma encode_loop_chain (rest : list ExtendedAttribute) :
  forall (n i : Z) (buf : list byte),
    Forall valid_ea rest -> i + len rest = n ->
    encode_loop n i rest buf = (buf ++ ea_chain rest, None).
Proof.
  induction rest as [|ea rest IH]; intros n i buf Hvalid Hidx.
  - simpl. now rewrite app_nil_r.
  - apply Forall_cons in Hvalid as [Hea Hrest].
    cbn [encode_loop]. rewrite writeEa_valid by assumption.
    unfold len in Hidx. simpl length in Hidx.
    rewrite (IH n (i + 1) _ Hrest) by (unfold len; lia).
    destruct rest as [|ea' rest'].
    + simpl length in Hidx. replace (i =? n - 1) with true by (symmetry; lia).
      simpl. now rewrite app_nil_r.
    + simpl length in Hidx. replace (i =? n - 1) with false by (symmetry; lia).
      cbn [ea_chain]. now rewrite app_assoc.
Qed.

(** The decoder reads a chain of records back, given fuel for its length. *)
Lemma decode_loop_chain (eas : list ExtendedAttribute) :
  forall (fuel : nat) (acc : list ExtendedAttribute),
    Forall valid_ea eas -> (length (ea_chain eas) <= fuel)%nat ->
    decode_loop fuel (ea_chain eas) acc = Some (acc ++ eas, None).
Proof.
  induction eas as [|ea rest IH]; intros fuel acc Hvalid Hfuel.
  - rewrite decode_loop_eq. simpl. now rewrite app_nil_r.
  - apply Forall_cons in Hvalid as [Hea Hrest].
    pose proof (entry_size_bounds ea Hea) as [He Hp].
    rewrite decode_loop_eq. cbn [ea_chain] in *. destruct rest as [|ea' rest'].
    + pose proof (length_ea_record ea true Hea) as Hlen. unfold len in Hlen.
      rewrite <- (app_nil_r (ea_record ea true)).
      rewrite ea_record_nonempty by assumption.
      destruct fuel as [|fuel']; [lia|].
      rewrite parseEa_record by assumption.
      now rewrite decode_loop_eq.
    + pose proof (length_ea_record ea false Hea) as Hlen. unfold len in Hlen.
      rewrite ea_record_nonempty by assumption.
      rewrite length_app in Hfuel.
      destruct fuel as [|fuel']; [lia|].
      rewrite parseEa_record by assumption.
      rewrite IH by (assumption || lia).
      now rewrite <- app_assoc.
Qed.

Lemma Uint32_range (b : list byte) (v : Z) :
  Uint32 b = Some v -> 0 <= v < 2 ^ 32.
Proof.
  destruct b as [|b0 [|b1 [|b2 [|b3 b']]]]; try discriminate.
  intros [= <-].
  pose proof (Z_of_byte_range b0). pose proof (Z_of_byte_range b1).
  pose proof (Z_of_byte_range b2). pose proof (Z_of_byte_range b3).
  change (2 ^ 32) with 4294967296.
  rewrite (lor_shiftl_add _ _ 8) by lia.
  rewrite (lor_shiftl_add _ _ 16) by (change (2 ^ 8) with 256; change (2 ^ 16) with 65536; lia).
  rewrite (lor_shiftl_add _ _ 24)
    by (change (2 ^ 8) with 256; change (2 ^ 16) with 65536;
        change (2 ^ 24) with 16777216; lia).
  change (2 ^ 8) with 256. change (2 ^ 16) with 65536.
  change (2 ^ 24) with 16777216. lia.
Qed.

(** An iteration of the decoder that goes on leaves a shorter buffer. *)
Lemma parseEa_shorter (b nb : list byte) (ea : ExtendedAttribute) :
  (len b =? 0) = false -> parseEa b = (ea, nb, None) ->
  (length nb < length b)%nat.
Proof.
  intros Hne. unfold parseEa.
  destruct (read_info b) as [info|] eqn:Hinfo; [|discriminate].
  destruct (_ || _); [discriminate|].
  intros [= _ <-]. unfold len in Hne.
  destruct (Z.eqb_spec (NextEntryOffset info) 0) as [_|Hnz]; [simpl; lia|].
  assert (Hpos : 0 <= NextEntryOffset info).
  { unfold read_info in Hinfo.
    destruct b as [|o0 [|o1 [|o2 [|o3 [|fl [|nl [|v0 [|v1 b']]]]]]]];
      try discriminate.
    destruct (Uint32 [o0; o1; o2; o3]) as [next|] eqn:Hnext; [|discriminate].
    apply Uint32_range in Hnext.
    destruct (Uint16 [v0; v1]); [|discriminate].
    injection Hinfo as <-. simpl. lia. }
  unfold slice_from. rewrite length_drop. lia.
Qed.

(** The decoder never runs out of fuel. *)
Lemma decode_loop_total (fuel : nat) :
  forall (b : list byte) (acc : list ExtendedAttribute),
    (length b <= fuel)%nat -> is_Some (decode_loop fuel b acc).
Proof.
  induction fuel as [|fuel IH]; intros b acc Hfuel; rewrite decode_loop_eq.
  - replace (len b =? 0) with true by (unfold len; symmetry; lia). eauto.
  - destruct (len b =? 0) eqn:Hlen; [eauto|].
    destruct (parseEa b) as [[ea nb] [err|]] eqn:Hparse; [eauto|].
    apply IH. pose proof (parseEa_shorter _ _ _ Hlen Hparse). lia.
Qed.

Lemma DecodeExtendedAttributes_total (b : list byte) :
  is_Some (DecodeExtendedAttributes b).
Proof. apply decode_loop_total. lia. Qed.

(** C1.  For every list of extended attributes whose names have at most 255
    bytes and whose values have at most 65535 bytes, encoding succeeds and
    [DecodeExtendedAttributes] of the encoded buffer returns, without error,
    the same attributes: the same names, values and flags, in the same
    order. *)
Theorem codec_inverse (eas : list ExtendedAttribute) :
  Forall valid_ea eas ->
  (EncodeExtendedAttributes eas).2 = None /\
  DecodeExtendedAttributes (EncodeExtendedAttributes eas).1 = Some (eas, None).
Proof.
  intros Hvalid. unfold EncodeExtendedAttributes.
  rewrite (encode_loop_chain eas (len eas) 0 [] Hvalid) by lia.
  simpl. split; [reflexivity|].
  unfold DecodeExtendedAttributes.
  now rewrite decode_loop_chain by (assumption || lia).
Qed.

(** C1, at a concrete input: two attributes, one of them with flags and an
    empty value. *)
Lemma codec_inverse_witness :
  Forall valid_ea [ea_user_foo; ea_flagged] /\
  (EncodeExtendedAttributes [ea_user_foo; ea_flagged]).2 = None /\
  DecodeExtendedAttributes (EncodeExtendedAttributes [ea_user_foo; ea_flagged]).1
  = Some ([ea_user_foo; ea_flagged], None).
Proof.
  assert (Hvalid : Forall valid_ea [ea_user_foo; ea_flagged]).
  { valid_list. }
  split; [exact Hvalid | exact (codec_inverse _ Hvalid)].
Defined.

(** The bytes of one small record: the header, the name, the terminator, the
    value and one byte of padding. *)
Example encode_single :
  EncodeExtendedAttributes [mkEA "a" [x01] x80]
  = ([x00; x00; x00; x00; x80; x01; x01; x00; x61; x00; x01; x00], None).
Proof. reflexivity. Qed.

Example encode_two_offsets :
  take 8 (EncodeExtendedAttributes [ea_user_foo; ea_flagged]).1
  = [x14; x00; x00; x00; x00; x08; x03; x00].
Proof. reflexivity. Qed.

(** *** Rejection of oversized attributes *)

Lemma writeEa_name_too_large (buf : list byte) (ea : ExtendedAttribute) (last : bool) :
  255 < strlen (Name ea) -> (writeEa buf ea last).2 = Some errEaNameTooLarge.
Proof.
  intros Hn. unfold writeEa, uint8.
  pose proof (Z.mod_pos_bound (strlen (Name ea)) (2 ^ 8) eq_refl) as Hm.
  change (2 ^ 8) with 256 in *.
  destruct (Z.eqb_spec (strlen (Name ea) mod 256) (strlen (Name ea))); [lia|].
  reflexivity.
Qed.

Lemma writeEa_value_too_large (buf : list byte) (ea : ExtendedAttribute) (last : bool) :
  strlen (Name ea) <= 255 -> 65535 < len (Value ea) ->
  (writeEa buf ea last).2 = Some errEaValueTooLarge.
Proof.
  intros Hn Hv. unfold writeEa, uint8, uint16.
  rewrite (Z.mod_small (strlen (Name ea))) by (unfold strlen in *; lia).
  rewrite Z.eqb_refl. simpl negb. cbv iota.
  pose proof (Z.mod_pos_bound (len (Value ea)) (2 ^ 16) eq_refl) as Hm.
  change (2 ^ 16) with 65536 in *.
  destruct (Z.eqb_spec (len (Value ea) mod 65536) (len (Value ea))); [lia|].
  reflexivity.
Qed.

Lemma encode_loop_error (pre : list ExtendedAttribute) :
  forall (ea : ExtendedAttribute) (post : list ExtendedAttribute)
         (err : error) (n i : Z) (buf : list byte),
    Forall valid_ea pre ->
    (forall buf' last, (writeEa buf' ea last).2 = Some err) ->
    encode_loop n i (pre ++ ea :: post) buf = ([], Some err).
Proof.
  induction pre as [|p pre IH]; intros ea post err n i buf Hvalid Hfail.
  - cbn [app encode_loop]. specialize (Hfail buf (i =? n - 1)).
    destruct (writeEa buf ea (i =? n - 1)) as [buf' e]. simpl in Hfail.
    now subst e.
  - apply Forall_cons in Hvalid as [Hp Hpre].
    cbn [app encode_loop]. rewrite writeEa_valid by assumption.
    now apply IH.
Qed.

Lemma encode_loop_only_names (eas : list ExtendedAttribute) :
  forall (n i : Z) (buf : list byte),
    Exists (fun a => 255 < strlen (Name a)) eas ->
    Forall (fun a => len (Value a) <= 65535) eas ->
    encode_loop n i eas buf = ([], Some errEaNameTooLarge).
Proof.
  induction eas as [|ea eas IH]; intros n i buf Hsome Hvalues.
  - now apply Exists_nil in Hsome.
  - apply Forall_cons in Hvalues as [Hv Hvalues].
    destruct (Z.le_gt_cases (strlen (Name ea)) 255) as [Hn|Hn].
    + apply Exists_cons in Hsome as [Hlong|Hsome]; [lia|].
      cbn [encode_loop]. rewrite writeEa_valid by now split.
      now apply IH.
    + apply (encode_loop_error [] ea eas errEaNameTooLarge n i buf);
        [constructor|].
      intros buf' last. apply writeEa_name_too_large. lia.
Qed.

Lemma encode_loop_only_values (eas : list ExtendedAttribute) :
  forall (n i : Z) (buf : list byte),
    Exists (fun a => 65535 < len (Value a)) eas ->
    Forall (fun a => strlen (Name a) <= 255) eas ->
    encode_loop n i eas buf = ([], Some errEaValueTooLarge).
Proof.
  induction eas as [|ea eas IH]; intros n i buf Hsome Hnames.
  - now apply Exists_nil in Hsome.
  - apply Forall_cons in Hnames as [Hn Hnames].
    destruct (Z.le_gt_cases (len (Value ea)) 65535) as [Hv|Hv].
    + apply Exists_cons in Hsome as [Hlong|Hsome]; [lia|].
      cbn [encode_loop]. rewrite writeEa_valid by now split.
      now apply IH.
    + apply (encode_loop_error [] ea eas errEaValueTooLarge n i buf);
        [constructor|].
      intros buf' last. apply writeEa_value_too_large; [exact Hn|lia].
Qed.

(** C5.  Encoding a list that contains a name of more than 255 bytes (of
    256 bytes in particular), all values being within their limit, fails
    with the name-too-large error; encoding a list that contains a value of
    more than 65535 bytes (of 65536 bytes in particular), all names being
    within their limit, fails with the value-too-large error; in either
    case the byte-slice result is nil.  In general encoding stops at the
    first attribute that is too large, with the error of that attribute,
    and no partial buffer is returned. *)
Theorem encode_rejects_first_oversized
    (eas pre post : list ExtendedAttribute) (ea : ExtendedAttribute) :
  (Exists (fun a => 255 < strlen (Name a)) eas ->
   Forall (fun a => len (Value a) <= 65535) eas ->
   EncodeExtendedAttributes eas = ([], Some errEaNameTooLarge)) /\
  (Exists (fun a => 65535 < len (Value a)) eas ->
   Forall (fun a => strlen (Name a) <= 255) eas ->
   EncodeExtendedAttributes eas = ([], Some errEaValueTooLarge)) /\
  (Forall valid_ea pre ->
   (255 < strlen (Name ea) ->
    EncodeExtendedAttributes (pre ++ ea :: post) = ([], Some errEaNameTooLarge)) /\
   (strlen (Name ea) <= 255 -> 65535 < len (Value ea) ->
    EncodeExtendedAttributes (pre ++ ea :: post) = ([], Some errEaValueTooLarge))).
Proof.
  unfold EncodeExtendedAttributes. split; [|split].
  - apply encode_loop_only_names.
  - apply encode_loop_only_values.
  - intros Hvalid. split.
    + intros Hn. apply encode_loop_error; [assumption|].
      intros buf' last. now apply writeEa_name_too_large.
    + intros Hn Hv. apply encode_loop_error; [assumption|].
      intros buf' last. now apply writeEa_value_too_large.
Qed.

(** C5, at concrete inputs: a name of 256 bytes between two valid
    attributes, and a value of 65536 bytes under a one-byte name. *)
Lemma encode_rejects_first_oversized_witness :
  EncodeExtendedAttributes
    [ea_user_foo; mkEA (string_of_bytes (replicate (Z.to_nat 256) x61)) [] x00; ea_flagged]
  = ([], Some errEaNameTooLarge) /\
  EncodeExtendedAttributes [ea_user_foo; mkEA "v" (replicate (Z.to_nat 65536) x00) x00]
  = ([], Some errEaValueTooLarge).
Proof.
  set (long_name := mkEA (string_of_bytes (replicate (Z.to_nat 256) x61)) [] x00).
  set (long_value := mkEA "v" (replicate (Z.to_nat 65536) x00) x00).
  split.
  - apply (proj1 (encode_rejects_first_oversized
                    [ea_user_foo; long_name; ea_flagged] [] [] ea_user_foo)).
    + apply Exists_cons_tl, Exists_cons_hd. vm_compute. reflexivity.
    + repeat (apply Forall_cons_2; [vm_compute; discriminate|]).
      apply Forall_nil_2.
  - apply (proj1 (proj2 (encode_rejects_first_oversized
                           [ea_user_foo; long_value] [] [] ea_user_foo))).
    + apply Exists_cons_tl, Exists_cons_hd. vm_compute. reflexivity.
    + repeat (apply Forall_cons_2; [vm_compute; discriminate|]).
      apply Forall_nil_2.
Defined.

(** When one attribute breaks both limits the name decides, because
    [writeEa] checks the name first. *)
Example encode_checks_name_first :
  len (Value ea_oversized) = 65536 /\
  EncodeExtendedAttributes [ea_oversized] = ([], Some errEaNameTooLarge).
Proof. split; vm_compute; reflexivity. Qed.

End Codec.

(** ** The growing buffer of [GetFileEA] *)

Section ProbeGrowth.
Import GoBytes GoErrors EA.

Lemma doubling_queries_S (k : nat) :
  doubling_queries (S k)
  = doubling_queries k
    ++ [mkQuery (1024 * 2 ^ Z.of_nat k) (uint32 (1024 * 2 ^ Z.of_nat k))].
Proof. unfold doubling_queries. now rewrite seq_S, map_app. Qed.

Lemma len_zero_buffer (n : Z) : 0 <= n -> len (replicate (Z.to_nat n) x00) = n.
Proof. intros Hn. unfold len. rewrite length_replicate. lia. Qed.

Lemma pow2_S (k : nat) : 2 ^ Z.of_nat (S k) = 2 * 2 ^ Z.of_nat k.
Proof. rewrite Nat2Z.inj_succ, Z.pow_succ_r by lia. reflexivity. Qed.

Lemma insufficient_reply_retries (r : EaQueryReply) :
  insufficient_reply r ->
  (reply_status r =? noExtendedAttribsStatus) = false /\
  exists err, ntStatus_Err r = Some err /\
    is_errno err ERROR_INSUFFICIENT_BUFFER || is_errno err ERROR_MORE_DATA = true.
Proof.
  intros (Hsent & Hneg & Hdos). split; [now apply Z.eqb_neq|].
  exists (Errno (reply_doserr r)). unfold ntStatus_Err.
  replace (reply_status r >=? 0) with false by (symmetry; lia).
  unfold ERROR_INSUFFICIENT_BUFFER, ERROR_MORE_DATA in *.
  destruct Hdos as [-> | ->]; split; reflexivity.
Qed.

(** One more doubling per reply that reports a buffer that is too small, as
    long as the doubled length fits Go's [int]. *)
Lemma GetFileEA_loop_retries (pre : list EaQueryReply) :
  forall (rest : list EaQueryReply) (k : nat),
    Forall insufficient_reply pre ->
    1024 * 2 ^ Z.of_nat (k + length pre) < 2 ^ 63 ->
    GetFileEA_loop (pre ++ rest) (1024 * 2 ^ Z.of_nat k)
      (replicate (Z.to_nat (1024 * 2 ^ Z.of_nat k)) x00) (doubling_queries k)
    = GetFileEA_loop rest (1024 * 2 ^ Z.of_nat (k + length pre))
        (replicate (Z.to_nat (1024 * 2 ^ Z.of_nat (k + length pre))) x00)
        (doubling_queries (k + length pre)).
Proof.
  induction pre as [|r pre IH]; intros rest k Hins Hfit.
  - simpl length. now rewrite Nat.add_0_r.
  - apply Forall_cons in Hins as [Hr Hpre].
    destruct (insufficient_reply_retries r Hr) as (Hsent & err & Herr & Hretry).
    assert (Hk : 0 < 2 ^ Z.of_nat k) by (apply Z.pow_pos_nonneg; lia).
    assert (Hmono : 2 ^ Z.of_nat (S k) <= 2 ^ Z.of_nat (k + length (r :: pre)))
      by (apply Z.pow_le_mono_r; simpl length; lia).
    cbn [app GetFileEA_loop]. rewrite Hsent, Herr, Hretry.
    replace (1024 * 2 ^ Z.of_nat k * 2) with (1024 * 2 ^ Z.of_nat (S k))
      by (rewrite pow2_S; lia).
    rewrite wrap_int_in_range by (rewrite pow2_S in *; lia).
    unfold make_bytes.
    replace (1024 * 2 ^ Z.of_nat (S k) <? 0) with false
      by (symmetry; rewrite pow2_S; lia).
    rewrite len_zero_buffer by lia. rewrite <- doubling_queries_S.
    simpl length in *.
    replace (k + S (length pre))%nat with (S k + length pre)%nat in * by lia.
    now apply IH.
Qed.

(** Whatever the kernel replies, the buffers queried are 1024 bytes doubled
    again and again. *)
Lemma GetFileEA_loop_doubles (replies : list EaQueryReply) :
  forall k : nat,
    1024 * 2 ^ Z.of_nat k < 2 ^ 63 ->
    exists k',
      (GetFileEA_loop replies (1024 * 2 ^ Z.of_nat k)
         (replicate (Z.to_nat (1024 * 2 ^ Z.of_nat k)) x00)
         (doubling_queries k)).1
      = doubling_queries k'.
Proof.
  induction replies as [|r replies IH]; intros k Hfit;
    assert (Hk : 0 < 2 ^ Z.of_nat k) by (apply Z.pow_pos_nonneg; lia);
    cbn [GetFileEA_loop]; rewrite len_zero_buffer by lia;
    rewrite <- doubling_queries_S.
  - now exists (S k).
  - destruct (reply_status r =? noExtendedAttribsStatus); [now exists (S k)|].
    destruct (ntStatus_Err r) as [err|]; [|now exists (S k)].
    destruct (_ || _); [|now exists (S k)].
    replace (1024 * 2 ^ Z.of_nat k * 2) with (1024 * 2 ^ Z.of_nat (S k))
      by (rewrite pow2_S; lia).
    destruct (Z.lt_ge_cases (1024 * 2 ^ Z.of_nat (S k)) (2 ^ 63)) as [Hlt|Hge].
    + rewrite wrap_int_in_range by (rewrite pow2_S in *; lia).
      unfold make_bytes.
      replace (1024 * 2 ^ Z.of_nat (S k) <? 0) with false
        by (symmetry; rewrite pow2_S; lia).
      now apply IH.
    + pose proof (wrap_int_overflow (1024 * 2 ^ Z.of_nat (S k))) as Hneg.
      unfold make_bytes.
      replace (wrap_int (1024 * 2 ^ Z.of_nat (S k)) <? 0) with true.
      * now exists (S k).
      * symmetry. apply Z.ltb_lt. apply Hneg. split; [assumption|].
        rewrite pow2_S. change (2 ^ 64) with (2 * 2 ^ 63). lia.
Qed.

Lemma GetFileEA_eq (replies : list EaQueryReply) :
  GetFileEA replies
  = GetFileEA_loop replies (1024 * 2 ^ Z.of_nat 0)
      (replicate (Z.to_nat (1024 * 2 ^ Z.of_nat 0)) x00) (doubling_queries 0).
Proof. reflexivity. Qed.

(** C6.  Whatever statuses the kernel returns, [GetFileEA] queries with
    buffers of 1024 bytes doubled once per retry.  After any number of
    replies that report an insufficient buffer (or more data) it has doubled
    the buffer once per reply and queries again, the only limit being the
    range of Go's [int]; and when the reply is then the
    no-extended-attributes status it returns the empty list and a nil error
    without a further query. *)
Theorem GetFileEA_probe_growth (replies pre rest : list EaQueryReply) :
  (exists k, (GetFileEA replies).1 = doubling_queries k) /\
  (Forall insufficient_reply pre ->
   1024 * 2 ^ Z.of_nat (length pre) < 2 ^ 63 ->
   GetFileEA pre = (doubling_queries (S (length pre)), AwaitingReply) /\
   forall r : EaQueryReply,
     reply_status r = noExtendedAttribsStatus ->
     GetFileEA (pre ++ r :: rest)
     = (doubling_queries (S (length pre)), Returned (Some ([], None)))).
Proof.
  split.
  - rewrite GetFileEA_eq. apply (GetFileEA_loop_doubles replies 0). reflexivity.
  - intros Hins Hfit.
    assert (Hpow : 0 < 2 ^ Z.of_nat (length pre)) by (apply Z.pow_pos_nonneg; lia).
    rewrite !GetFileEA_eq. split.
    + rewrite <- (app_nil_r pre) at 1.
      rewrite (GetFileEA_loop_retries pre [] 0 Hins Hfit).
      cbn [GetFileEA_loop Nat.add]. rewrite len_zero_buffer by lia.
      now rewrite <- doubling_queries_S.
    + intros r Hr. rewrite GetFileEA_eq.
      rewrite (GetFileEA_loop_retries pre (r :: rest) 0 Hins Hfit).
      cbn [GetFileEA_loop Nat.add]. rewrite len_zero_buffer by lia.
      rewrite <- doubling_queries_S.
      now replace (reply_status r =? noExtendedAttribsStatus) with true
        by (symmetry; now apply Z.eqb_eq).
Qed.

(** C6, at a concrete input: two retries, then the sentinel; the reply after
    the sentinel is never asked for. *)
Lemma GetFileEA_probe_growth_witness :
  Forall insufficient_reply [reply_insufficient; reply_more_data] /\
  map query_buflen
    (GetFileEA [reply_insufficient; reply_more_data; reply_no_attributes;
                reply_insufficient]).1
  = [1024; 2048; 4096] /\
  (GetFileEA [reply_insufficient; reply_more_data; reply_no_attributes;
              reply_insufficient]).2
  = Returned (Some ([], None)).
Proof.
  assert (Hins : Forall insufficient_reply [reply_insufficient; reply_more_data]).
  { repeat (apply Forall_cons_2;
            [repeat split; vm_compute; (discriminate || (left; reflexivity)
                                         || (right; reflexivity))|]).
    apply Forall_nil_2. }
  split; [exact Hins|].
  pose proof (proj2 (GetFileEA_probe_growth []
                       [reply_insufficient; reply_more_data]
                       [reply_insufficient]) Hins eq_refl) as [_ Hsent].
  specialize (Hsent reply_no_attributes eq_refl).
  simpl app in Hsent. rewrite Hsent. split; reflexivity.
Defined.

(** A reply that fits the first buffer: the attributes the kernel wrote are
    decoded from the whole buffer, zero bytes after the last record
    included. *)
Example GetFileEA_success :
  GetFileEA [mkReply 0 0 (EncodeExtendedAttributes [ea_user_foo; ea_flagged]).1]
  = ([mkQuery 1024 1024], Returned (Some ([ea_user_foo; ea_flagged], None))).
Proof. vm_compute. reflexivity. Qed.

(** Any other failure status ends the loop with an error. *)
Example GetFileEA_failure :
  GetFileEA [mkReply (-1073741790) 5 []; reply_insufficient]
  = ([mkQuery 1024 1024],
     Returned (Some ([], Some (Errorf1 "get file EA failed with: %w" (Errno 5))))).
Proof. reflexivity. Qed.

End ProbeGrowth.

(** ** The encryption fix-up of [handleFileAttributes] *)

Section Encryption.
Import GoBytes GoErrors Runtime Node FileWindows NodeWindows Tactics.
Context {W : Type} `{API : WindowsAPI W}.

(** When the encrypted bit is wanted, [fixEncryptionAttribute] starts by
    calling the encrypt primitive, whatever the state of the file: the
    current attributes are not read on this branch. *)
Lemma fixEncryptionAttribute_encrypts_first
    (path pathPointer : string) (attrs : Z) (s : Proc W) :
  Z.land attrs FILE_ATTRIBUTE_ENCRYPTED <> 0 ->
  exists rest,
    calls (fixEncryptionAttribute path attrs pathPointer s).2
    = calls s ++ CallEncryptFile pathPointer :: rest /\
    Forall (fun c => c <> CallGetFileAttributes pathPointer) rest.
Proof.
  intros Hbit. unfold fixEncryptionAttribute.
  replace (Z.land attrs FILE_ATTRIBUTE_ENCRYPTED =? 0) with false
    by (symmetry; now apply Z.eqb_neq).
  simpl negb. cbv iota. step_os;
    rewrite <- ?app_assoc; simpl;
    eexists; (split; [reflexivity|]); repeat constructor; discriminate.
Qed.

(** When the encrypted bit is not wanted and the file is not encrypted,
    nothing is done beyond reading the attributes. *)
Lemma fixEncryptionAttribute_unencrypted_noop
    (path pathPointer : string) (attrs existing : Z) (s : Proc W) (w : W) :
  Z.land attrs FILE_ATTRIBUTE_ENCRYPTED = 0 ->
  GetFileAttributes pathPointer (world s) = (inl existing, w) ->
  Z.land existing FILE_ATTRIBUTE_ENCRYPTED = 0 ->
  fixEncryptionAttribute path attrs pathPointer s
  = (Ret None,
     mkProc w (unknownTypes s) (stderr s) (debugLog s)
            (calls s ++ [CallGetFileAttributes pathPointer])).
Proof.
  intros Hbit Hget Hcur. unfold fixEncryptionAttribute.
  rewrite Hbit. unfold bind, os_call, ret. simpl.
  rewrite Hget. simpl. rewrite Hcur. reflexivity.
Qed.

(** The decrypt primitive is called only for a file that is encrypted. *)
Lemma fixEncryptionAttribute_decrypts_encrypted_only
    (path pathPointer : string) (attrs existing : Z) (s : Proc W) (w : W) :
  Z.land attrs FILE_ATTRIBUTE_ENCRYPTED = 0 ->
  GetFileAttributes pathPointer (world s) = (inl existing, w) ->
  In (CallDecryptFile pathPointer)
     (drop (length (calls s)) (calls (fixEncryptionAttribute path attrs pathPointer s).2)) ->
  Z.land existing FILE_ATTRIBUTE_ENCRYPTED <> 0.
Proof.
  intros Hbit Hget Hin Hcur.
  rewrite (fixEncryptionAttribute_unencrypted_noop _ _ _ _ _ _ Hbit Hget Hcur) in Hin.
  simpl in Hin. rewrite drop_app_length in Hin.
  destruct Hin as [Hin|[]]. discriminate.
Qed.

(** C3 (amended).  When the encryption fix-up fails, also after its single
    retry, [handleFileAttributes] writes the failure to the debug log and
    goes on to set the file attributes: what it returns, and what
    [restoreGenericAttribute] hands on for the file-attribute attribute, is
    the result of [SetFileAttributes] alone. *)
Theorem handleFileAttributes_logs_encryption_failure
    (path pathPointer : string) (data : list byte) (attrs : Z) (e : error)
    (s s1 : Proc W) :
  Uint32 data = Some attrs ->
  UTF16PtrFromString path = inl pathPointer ->
  fixEncryptionAttribute path attrs pathPointer s = (Ret (Some e), s1) ->
  handleFileAttributes path data s
  = os_call (CallSetFileAttributes pathPointer attrs)
            (SetFileAttributes pathPointer attrs) (logged_failure path e s1) /\
  restoreGenericAttribute (mkAttribute TypeFileAttribute data) path s
  = handleFileAttributes path data s.
Proof.
  intros Hdata Hptr Hfix. split.
  - unfold handleFileAttributes. rewrite Hdata, Hptr.
    unfold bind at 1. rewrite Hfix. reflexivity.
  - unfold restoreGenericAttribute. simpl Name. now rewrite String.eqb_refl.
Qed.

(** The single retry: a first refusal with access denied, the system flag
    cleared, a second refusal; the second error is the one reported. *)
Lemma fixEncryptionAttribute_retries_once
    (path pathPointer : string) (attrs : Z) (e1 e2 : error) (s : Proc W)
    (w1 w2 w3 : W) :
  Z.land attrs FILE_ATTRIBUTE_ENCRYPTED <> 0 ->
  EncryptFileW pathPointer (world s) = ((0, e1), w1) ->
  IsAccessDenied e1 = true ->
  ClearSystem path w1 = (None, w2) ->
  EncryptFileW pathPointer w2 = ((0, e2), w3) ->
  fixEncryptionAttribute path attrs pathPointer s
  = (Ret (Some (Errorf2 "failed to encrypt file: %s : %v" path e2)),
     mkProc w3 (unknownTypes s) (stderr s) (debugLog s)
            (calls s ++ [CallEncryptFile pathPointer; CallClearSystem path;
                         CallEncryptFile pathPointer])).
Proof.
  intros Hbit Henc1 Hdenied Hclear Henc2. unfold fixEncryptionAttribute.
  replace (Z.land attrs FILE_ATTRIBUTE_ENCRYPTED =? 0) with false
    by (symmetry; now apply Z.eqb_neq).
  unfold encryptFile. unfold bind, os_call, ret. simpl. rewrite Henc1. simpl.
  rewrite Hdenied. simpl. rewrite Hclear. simpl. rewrite Henc2. simpl.
  now rewrite <- !app_assoc.
Qed.

End Encryption.

(** *** The fix-up on simulated files *)

Section EncryptionRuns.
Import GoBytes GoErrors Runtime Node FileWindows NodeWindows SimWindows.

(** C3 (amended), at a concrete input: a system file on which both encrypt
    calls are refused.  The fix-up fails after its retry, and the handler
    returns what [SetFileAttributes] returns: nil. *)
Lemma handleFileAttributes_logs_encryption_failure_witness :
  Uint32 encrypted_bits = Some 16416 /\
  (fixEncryptionAttribute "f" 16416 "f" (initial locked_file)).1
  = Ret (Some (Errorf2 "failed to encrypt file: %s : %v" "f"
                       (Errno ERROR_ACCESS_DENIED))) /\
  (handleFileAttributes "f" encrypted_bits (initial locked_file)).1 = Ret None /\
  debugLog (handleFileAttributes "f" encrypted_bits (initial locked_file)).2
  = [("Could not change encryption attribute for path: %s: %v",
      [LogStr "f";
       LogErr (Errorf2 "failed to encrypt file: %s : %v" "f"
                       (Errno ERROR_ACCESS_DENIED))])].
Proof.
  assert (Hfix :
    fixEncryptionAttribute "f" 16416 "f" (initial locked_file)
    = (Ret (Some (Errorf2 "failed to encrypt file: %s : %v" "f"
                          (Errno ERROR_ACCESS_DENIED))),
       mkProc (with_attrs locked_file 32 0) ∅ [] []
              [CallEncryptFile "f"; CallClearSystem "f"; CallEncryptFile "f"]))
    by reflexivity.
  pose proof (handleFileAttributes_logs_encryption_failure
                "f" "f" encrypted_bits 16416 _ _ _ eq_refl eq_refl Hfix) as [Hrun _].
  split; [reflexivity|]. split; [now rewrite Hfix|].
  rewrite Hrun. split; reflexivity.
Defined.

(** C3 as stated fails: on the same file every encrypt call is refused,
    before and after the system flag is cleared, so the fix-up fails after
    its single retry; [handleFileAttributes] nevertheless returns nil, and
    so does [restoreGenericAttributes] for a node with that attribute. *)
Lemma encryption_failure_not_returned :
  (fixEncryptionAttribute "f" 16416 "f" (initial locked_file)).1
  = Ret (Some (Errorf2 "failed to encrypt file: %s : %v" "f"
                       (Errno ERROR_ACCESS_DENIED))) /\
  calls (fixEncryptionAttribute "f" 16416 "f" (initial locked_file)).2
  = [CallEncryptFile "f"; CallClearSystem "f"; CallEncryptFile "f"] /\
  (handleFileAttributes "f" encrypted_bits (initial locked_file)).1 = Ret None /\
  (restoreGenericAttributes
     (mkNode "file" [] [mkAttribute "windows.file_attributes" encrypted_bits])
     "f" (initial locked_file)).1
  = Ret None.
Proof. repeat split; reflexivity. Qed.

(** C4 at the failing input: the file is already encrypted and the
    attribute asks for an encrypted file; the encrypt primitive is called
    all the same, without the current attributes being read. *)
Lemma fixEncryptionAttribute_encrypts_encrypted_file :
  Z.land (sim_attrs encrypted_file) FILE_ATTRIBUTE_ENCRYPTED
  = FILE_ATTRIBUTE_ENCRYPTED /\
  Z.land 16416 FILE_ATTRIBUTE_ENCRYPTED = FILE_ATTRIBUTE_ENCRYPTED /\
  calls (fixEncryptionAttribute "f" 16416 "f" (initial encrypted_file)).2
  = [CallEncryptFile "f"] /\
  calls (handleFileAttributes "f" encrypted_bits (initial encrypted_file)).2
  = [CallEncryptFile "f"; CallSetFileAttributes "f" 16416].
Proof. repeat split; reflexivity. Qed.

(** The other direction does compare: nothing is decrypted on a file that
    is not encrypted, and an encrypted file is decrypted once. *)
Example fixEncryptionAttribute_plain_file :
  calls (fixEncryptionAttribute "f" 32 "f" (initial plain_file)).2
  = [CallGetFileAttributes "f"] /\
  calls (fixEncryptionAttribute "f" 32 "f" (initial encrypted_file)).2
  = [CallGetFileAttributes "f"; CallDecryptFile "f"].
Proof. split; reflexivity. Qed.

End EncryptionRuns.

(** ** Capture of generic attributes on Windows *)

Section FillGeneric.
Import GoBytes GoErrors Runtime Node NodeWindows.
Context {W : Type} `{API : WindowsAPI W}.

Lemma appendGenericAttribute_attributes (node : Node) (attr : Attribute) :
  GenericAttributes (appendGenericAttribute node attr)
  = GenericAttributes node ++ named attr /\
  NodeType (appendGenericAttribute node attr) = NodeType node.
Proof.
  unfold appendGenericAttribute, named.
  destruct (String.eqb (Name attr) ""); simpl; [now rewrite app_nil_r|done].
Qed.

(** The first block of [fillGenericAttributes]: no system call. *)
Lemma GetCreationTime_attribute (fi : FileInfo) (path : string) (s : Proc W) :
  exists s',
    GetCreationTime fi path s = (Ret (creation_time_attribute fi), s') /\
    world s' = world s /\ calls s' = calls s.
Proof.
  unfold GetCreationTime, creation_time_attribute.
  destruct (Sys fi); eexists; (split; [reflexivity|]); split; reflexivity.
Qed.

Lemma getSecurityDescriptor_attribute (path : string) (s : Proc W) :
  exists sd err s',
    getSecurityDescriptor path s = (Ret (sd, err), s') /\
    (Name sd = TypeSecurityDescriptor \/ Name sd = "") /\
    (forall e w, GetFileSecurityDescriptor path (world s) = (inr e, w) ->
                 err <> None).
Proof.
  unfold getSecurityDescriptor, bind, os_call.
  destruct (GetFileSecurityDescriptor path (world s)) as [[sd|e] w]; simpl.
  - destruct (String.eqb sd "") eqn:Hsd; simpl.
    + exists zero_Attribute, None. eexists. split; [reflexivity|].
      split; [now right|]. intros e w' [=].
    + eexists _, None. eexists. split; [reflexivity|].
      split; [now left|]. intros e w' [=].
  - eexists zero_Attribute, (Some _). eexists. split; [reflexivity|].
    split; [now right|]. intros. discriminate.
Qed.

(** An alternate data stream: nothing is captured, by either adapter. *)
Lemma fillGenericAttributes_ads (node : Node) (path : string) (fi : FileInfo)
    (stat : Win32FileAttributeData) (s : Proc W) :
  strings_Contains (filepath_Base path) ":" = true ->
  fillGenericAttributes node path fi stat s = (Ret (node, (false, None)), s) /\
  NodeWindowsEarlier.fillGenericAttributes node path fi stat s
  = (Ret (node, (false, None)), s).
Proof.
  intros Hads. unfold fillGenericAttributes, NodeWindowsEarlier.fillGenericAttributes.
  now rewrite Hads.
Qed.

(** What the last block of [fillGenericAttributes] adds to a node. *)
Lemma fillGenericAttributes_blocks (node : Node) (path : string) (fi : FileInfo)
    (stat : Win32FileAttributeData) (s : Proc W) :
  strings_Contains (filepath_Base path) ":" = false ->
  exists node' s' sd_attrs,
    fillGenericAttributes node path fi stat s = (Ret (node', (true, None)), s') /\
    NodeType node' = NodeType node /\
    GenericAttributes node'
    = GenericAttributes node ++ basic_attributes path fi stat ++ sd_attrs /\
    Forall (fun a => Name a = TypeSecurityDescriptor) sd_attrs /\
    (String.eqb (NodeType node) "file" || String.eqb (NodeType node) "dir" = false ->
     sd_attrs = []) /\
    (forall e w, GetFileSecurityDescriptor path (world s) = (inr e, w) ->
                 sd_attrs = []).
Proof.
  intros Hads. unfold fillGenericAttributes, basic_attributes. rewrite Hads.
  unfold bind at 1.
  assert (Hfirst : exists node1 s1,
    (if negb (strings_HasSuffix (filepath_Clean path) "\")
     then (ct <- GetCreationTime fi path ;;
           ret (appendGenericAttribute
                  (appendGenericAttribute node (getFileAttributes (FileAttributes stat)))
                  ct))%go
     else ret node) s = (Ret node1, s1) /\
    NodeType node1 = NodeType node /\
    GenericAttributes node1
    = GenericAttributes node
      ++ (if strings_HasSuffix (filepath_Clean path) "\" then []
          else named (getFileAttributes (FileAttributes stat))
               ++ named (creation_time_attribute fi)) /\
    world s1 = world s).
  { destruct (strings_HasSuffix (filepath_Clean path) "\"); simpl.
    - exists node, s. now rewrite app_nil_r.
    - destruct (GetCreationTime_attribute fi path s) as (s1 & Hct & Hw & _).
      unfold bind. rewrite Hct. eexists _, s1. split; [reflexivity|].
      destruct (appendGenericAttribute_attributes
                  (appendGenericAttribute node (getFileAttributes (FileAttributes stat)))
                  (creation_time_attribute fi)) as [-> ->].
      destruct (appendGenericAttribute_attributes node
                  (getFileAttributes (FileAttributes stat))) as [-> ->].
      now rewrite <- app_assoc. }
  destruct Hfirst as (node1 & s1 & -> & Htype & Hattrs & Hworld).
  unfold bind at 1. rewrite Htype.
  destruct (String.eqb (NodeType node) "file" || String.eqb (NodeType node) "dir");
    simpl.
  - destruct (getSecurityDescriptor_attribute path s1) as (sd & err & s2 & Hsd & Hname & Herr).
    unfold bind. rewrite Hsd. destruct err as [e|]; simpl.
    + exists node1, s2, []. rewrite app_nil_r. repeat split; auto.
    + destruct (appendGenericAttribute_attributes node1 sd) as [Ha Ht].
      exists (appendGenericAttribute node1 sd), s2, (named sd).
      split; [reflexivity|]. split; [congruence|].
      split; [rewrite Ha, Hattrs; now rewrite <- app_assoc|].
      split; [|split; [discriminate|]].
      * unfold named. destruct Hname as [Hn|Hn]; rewrite Hn.
        -- destruct (String.eqb TypeSecurityDescriptor ""); repeat constructor.
           exact Hn.
        -- constructor.
      * intros e w Hget. rewrite <- Hworld in Hget.
        now destruct (Herr e w Hget).
  - exists node1, s1, []. rewrite app_nil_r. repeat split; auto.
Qed.

(** What the last block adds when the descriptor can be read: the
    descriptor itself, unless it is empty. *)
Lemma fillGenericAttributes_descriptor (node : Node) (path : string)
    (fi : FileInfo) (stat : Win32FileAttributeData) (s : Proc W)
    (sd : string) (w : W) :
  strings_Contains (filepath_Base path) ":" = false ->
  String.eqb (NodeType node) "file" || String.eqb (NodeType node) "dir" = true ->
  GetFileSecurityDescriptor path (world s) = (inl sd, w) ->
  exists node' s',
    fillGenericAttributes node path fi stat s = (Ret (node', (true, None)), s') /\
    GenericAttributes node'
    = GenericAttributes node ++ basic_attributes path fi stat
      ++ (if String.eqb sd "" then []
          else named (mkAttribute TypeSecurityDescriptor (bytes_of_string sd))) /\
    calls s' = calls s ++ [CallGetSecurityDescriptor path].
Proof.
  intros Hads Htype Hget. unfold fillGenericAttributes, basic_attributes.
  rewrite Hads. unfold bind at 1.
  assert (Hfirst : exists node1 s1,
    (if negb (strings_HasSuffix (filepath_Clean path) "\")
     then (ct <- GetCreationTime fi path ;;
           ret (appendGenericAttribute
                  (appendGenericAttribute node (getFileAttributes (FileAttributes stat)))
                  ct))%go
     else ret node) s = (Ret node1, s1) /\
    NodeType node1 = NodeType node /\
    GenericAttributes node1
    = GenericAttributes node
      ++ (if strings_HasSuffix (filepath_Clean path) "\" then []
          else named (getFileAttributes (FileAttributes stat))
               ++ named (creation_time_attribute fi)) /\
    world s1 = world s /\ calls s1 = calls s).
  { destruct (strings_HasSuffix (filepath_Clean path) "\"); simpl.
    - exists node, s. now rewrite app_nil_r.
    - destruct (GetCreationTime_attribute fi path s) as (s1 & Hct & Hw & Hc).
      unfold bind. rewrite Hct. eexists _, s1. split; [reflexivity|].
      destruct (appendGenericAttribute_attributes
                  (appendGenericAttribute node (getFileAttributes (FileAttributes stat)))
                  (creation_time_attribute fi)) as [-> ->].
      destruct (appendGenericAttribute_attributes node
                  (getFileAttributes (FileAttributes stat))) as [-> ->].
      now rewrite <- app_assoc. }
  destruct Hfirst as (node1 & s1 & -> & Hty & Hattrs & Hworld & Hcalls).
  unfold bind at 1. rewrite Hty, Htype.
  unfold getSecurityDescriptor, bind, os_call. rewrite Hworld, Hget.
  unfold NewGenericAttribute. destruct (String.eqb sd "") eqn:Hsd; simpl.
  - exists node1. eexists. split; [reflexivity|]. simpl.
    rewrite Hattrs, Hcalls. now rewrite !app_nil_r.
  - destruct (appendGenericAttribute_attributes node1
                (mkAttribute TypeSecurityDescriptor (bytes_of_string sd)))
      as [Ha _].
    eexists _, _. split; [reflexivity|]. simpl.
    rewrite Ha, Hattrs, Hcalls. now rewrite <- !app_assoc.
Qed.

(** C10.  [fillGenericAttributes] returns a nil error for every path, file
    info and stat view, in the current adapter and in the earlier one.  In
    particular, when the security descriptor cannot be read, the node gains
    no security-descriptor attribute and keeps what the first block
    captured: the file attributes and the creation time. *)
Theorem fillGenericAttributes_nil_error (node : Node) (path : string)
    (fi : FileInfo) (stat : Win32FileAttributeData) (s : Proc W) :
  (exists node' allow s',
     fillGenericAttributes node path fi stat s = (Ret (node', (allow, None)), s')) /\
  (exists node' allow s',
     NodeWindowsEarlier.fillGenericAttributes node path fi stat s
     = (Ret (node', (allow, None)), s')) /\
  (forall e w,
     strings_Contains (filepath_Base path) ":" = false ->
     GetFileSecurityDescriptor path (world s) = (inr e, w) ->
     exists node' s',
       fillGenericAttributes node path fi stat s = (Ret (node', (true, None)), s') /\
       GenericAttributes node'
       = GenericAttributes node ++ basic_attributes path fi stat).
Proof.
  split; [|split].
  - destruct (strings_Contains (filepath_Base path) ":") eqn:Hads.
    + exists node, false, s. now apply fillGenericAttributes_ads.
    + destruct (fillGenericAttributes_blocks node path fi stat s Hads)
        as (node' & s' & sd_attrs & Hrun & _).
      now exists node', true, s'.
  - unfold NodeWindowsEarlier.fillGenericAttributes.
    destruct (_ || _); [now eexists _, _, _|].
    unfold bind, NodeWindowsEarlier.getCreationTime.
    destruct (Sys fi); simpl; now eexists _, _, _.
  - intros e w Hads Hget.
    destruct (fillGenericAttributes_blocks node path fi stat s Hads)
      as (node' & s' & sd_attrs & Hrun & _ & Hattrs & _ & _ & Hfail).
    exists node', s'. split; [exact Hrun|].
    rewrite Hattrs, (Hfail e w Hget). now rewrite app_nil_r.
Qed.

(** C2 (amended).  For a path that denotes an alternate data stream (its
    base name contains a colon) [fillGenericAttributes] returns
    [allowExtended=false] and a nil error and captures nothing, in both
    adapters.  For a drive root (the cleaned path ends in a backslash) the
    earlier adapter does the same, while the current one returns
    [allowExtended=true] with a nil error: it leaves out the file attributes
    and the creation time and still records the security descriptor of a
    file or directory node.  What it records is pinned down: the descriptor
    read, as one attribute, when the node is a file or a directory and the
    descriptor can be read and is not empty; nothing when the descriptor
    cannot be read or is empty, or the node is of another type. *)
Theorem fillGenericAttributes_pseudo_paths (node : Node) (path : string)
    (fi : FileInfo) (stat : Win32FileAttributeData) (s : Proc W) :
  (strings_Contains (filepath_Base path) ":" = true ->
   fillGenericAttributes node path fi stat s = (Ret (node, (false, None)), s) /\
   NodeWindowsEarlier.fillGenericAttributes node path fi stat s
   = (Ret (node, (false, None)), s)) /\
  (strings_Contains (filepath_Base path) ":" = false ->
   strings_HasSuffix (filepath_Clean path) "\" = true ->
   NodeWindowsEarlier.fillGenericAttributes node path fi stat s
   = (Ret (node, (false, None)), s) /\
   exists node' s' sd_attrs,
     fillGenericAttributes node path fi stat s = (Ret (node', (true, None)), s') /\
     GenericAttributes node' = GenericAttributes node ++ sd_attrs /\
     Forall (fun a => Name a = TypeSecurityDescriptor) sd_attrs /\
     (String.eqb (NodeType node) "file" || String.eqb (NodeType node) "dir" = false ->
      sd_attrs = []) /\
     (forall e w, GetFileSecurityDescriptor path (world s) = (inr e, w) ->
                  sd_attrs = []) /\
     (forall sd w,
        String.eqb (NodeType node) "file" || String.eqb (NodeType node) "dir" = true ->
        GetFileSecurityDescriptor path (world s) = (inl sd, w) ->
        (sd = EmptyString -> sd_attrs = []) /\
        (sd <> EmptyString -> TypeSecurityDescriptor <> EmptyString ->
         sd_attrs = [mkAttribute TypeSecurityDescriptor (bytes_of_string sd)]))).
Proof.
  split.
  - apply fillGenericAttributes_ads.
  - intros Hads Hroot. split.
    + unfold NodeWindowsEarlier.fillGenericAttributes.
      rewrite Hads, Hroot. reflexivity.
    + destruct (fillGenericAttributes_blocks node path fi stat s Hads)
        as (node' & s' & sd_attrs & Hrun & _ & Hattrs & Hsd & Hother & Hfail).
      exists node', s', sd_attrs. unfold basic_attributes in Hattrs.
      rewrite Hroot in Hattrs. simpl in Hattrs.
      split; [exact Hrun|]. split; [exact Hattrs|]. split; [exact Hsd|].
      split; [exact Hother|]. split; [exact Hfail|].
      intros sd w Htype Hget.
      destruct (fillGenericAttributes_descriptor node path fi stat s sd w
                  Hads Htype Hget) as (node2 & s2 & Hrun2 & Hattrs2 & _).
      rewrite Hrun in Hrun2. injection Hrun2 as <- <-.
      unfold basic_attributes in Hattrs2. rewrite Hroot in Hattrs2.
      simpl in Hattrs2. rewrite Hattrs in Hattrs2.
      apply app_inv_head in Hattrs2. split.
      * intros ->. exact Hattrs2.
      * intros Hne Htag. rewrite Hattrs2.
        rewrite (proj2 (String.eqb_neq _ _) Hne). unfold named. cbn [Name].
        now rewrite (proj2 (String.eqb_neq _ _) Htag).
Qed.

End FillGeneric.

(** *** Capture on simulated files *)

Section FillRuns.
Import GoBytes GoErrors Runtime Node NodeWindows SimWindows.

(** C10, at a concrete input: a file whose security descriptor cannot be
    read keeps its two basic attributes and the error is nil. *)
Lemma fillGenericAttributes_nil_error_witness :
  GetFileSecurityDescriptor "f" unreadable_sd_file
  = (inr (Errno FileWindows.ERROR_ACCESS_DENIED), unreadable_sd_file) /\
  exists node' s',
    fillGenericAttributes (mkNode "file" [] []) "f" sample_fi sample_stat
      (initial unreadable_sd_file)
    = (Ret (node', (true, None)), s') /\
    GenericAttributes node'
    = [mkAttribute "windows.file_attributes" [x20; x00; x00; x00];
       mkAttribute "windows.creation_time"
         [x04; x03; x02; x01; x08; x07; x06; x05]].
Proof.
  assert (Hads : strings_Contains (filepath_Base "f") ":" = false) by reflexivity.
  assert (Hget : GetFileSecurityDescriptor "f" (world (initial unreadable_sd_file))
                 = (inr (Errno FileWindows.ERROR_ACCESS_DENIED), unreadable_sd_file))
    by reflexivity.
  split; [exact Hget|].
  exact (proj2 (proj2 (fillGenericAttributes_nil_error
                         (mkNode "file" [] []) "f" sample_fi sample_stat
                         (initial unreadable_sd_file)))
           _ _ Hads Hget).
Defined.

(** C2 (amended), at concrete inputs: an alternate data stream and the root
    of drive C, for which the current adapter records the security
    descriptor and nothing else. *)
Lemma fillGenericAttributes_pseudo_paths_witness :
  (fillGenericAttributes (mkNode "file" [] []) "f.txt:stream" sample_fi sample_stat
     (initial plain_file)).1
  = Ret (mkNode "file" [] [], (false, None)) /\
  (NodeWindowsEarlier.fillGenericAttributes (mkNode "dir" [] []) "C:\" sample_fi
     sample_stat (initial plain_file)).1
  = Ret (mkNode "dir" [] [], (false, None)) /\
  exists node' s',
    fillGenericAttributes (mkNode "dir" [] []) "C:\" sample_fi sample_stat
      (initial plain_file)
    = (Ret (node', (true, None)), s') /\
    GenericAttributes node'
    = [mkAttribute "windows.security_descriptor" (bytes_of_string "O:BAG:SYD:")].
Proof.
  assert (Hads : strings_Contains (filepath_Base "f.txt:stream") ":" = true)
    by reflexivity.
  assert (Hnot : strings_Contains (filepath_Base "C:\") ":" = false) by reflexivity.
  assert (Hroot : strings_HasSuffix (filepath_Clean "C:\") "\" = true) by reflexivity.
  assert (Htype : String.eqb (NodeType (mkNode "dir" [] [])) "file"
                  || String.eqb (NodeType (mkNode "dir" [] [])) "dir" = true)
    by reflexivity.
  assert (Hget : GetFileSecurityDescriptor "C:\" (world (initial plain_file))
                 = (inl "O:BAG:SYD:", plain_file)) by reflexivity.
  pose proof (proj1 (fillGenericAttributes_pseudo_paths
                       (mkNode "file" [] []) "f.txt:stream" sample_fi sample_stat
                       (initial plain_file)) Hads) as [Hstream _].
  pose proof (proj2 (fillGenericAttributes_pseudo_paths
                       (mkNode "dir" [] []) "C:\" sample_fi sample_stat
                       (initial plain_file)) Hnot Hroot)
    as [Hearlier (node' & s' & sd_attrs & Hrun & Hattrs & _ & _ & _ & Hread)].
  destruct (Hread _ _ Htype Hget) as [_ Hrecorded].
  rewrite Hstream, Hearlier. split; [reflexivity|]. split; [reflexivity|].
  exists node', s'. split; [exact Hrun|].
  rewrite Hattrs, (Hrecorded ltac:(discriminate) ltac:(discriminate)).
  reflexivity.
Defined.

(** C2 as stated fails: for the root of drive C, a directory node, the
    current adapter returns [allowExtended=true] and records the security
    descriptor. *)
Lemma fillGenericAttributes_drive_root_allows_extended :
  strings_Contains (filepath_Base "C:\") ":" = false /\
  strings_HasSuffix (filepath_Clean "C:\") "\" = true /\
  (fillGenericAttributes (mkNode "dir" [] []) "C:\" sample_fi sample_stat
     (initial plain_file)).1
  = Ret (mkNode "dir" []
           [mkAttribute "windows.security_descriptor"
              (bytes_of_string "O:BAG:SYD:")],
         (true, None)).
Proof. repeat split; reflexivity. Qed.

(** The two string tests of [fillGenericAttributes] on sample paths. *)
Example path_tests :
  strings_Contains "f.txt:stream" ":" = true /\
  strings_Contains "f.txt" ":" = false /\
  strings_HasSuffix "C:\" "\" = true /\
  strings_HasSuffix "C:\Users" "\" = false.
Proof. repeat split; reflexivity. Qed.

(** The creation-time scenario of the spec: the low and the high word are
    each stored little-endian. *)
Example creation_time_bytes :
  Value (creation_time_attribute sample_fi)
  = [x04; x03; x02; x01; x08; x07; x06; x05].
Proof. reflexivity. Qed.

End FillRuns.

(** ** Restore of generic attributes *)

Section RestoreGeneric.
Import GoBytes GoErrors Runtime Node NodeWindows UnknownTypes.
Context {W : Type} `{API : WindowsAPI W}.

(** The process after [handleUnknownGenericAttributeFound]. *)
Lemma handleUnknownGenericAttributeFound_state (type : string) (s : Proc W) :
  (handleUnknownGenericAttributeFound type s).1 = Ret tt /\
  unknownTypes (handleUnknownGenericAttributeFound type s).2
  = {[type]} ∪ unknownTypes s /\
  (type ∈ unknownTypes s ->
   stderr (handleUnknownGenericAttributeFound type s).2 = stderr s) /\
  (type ∉ unknownTypes s ->
   stderr (handleUnknownGenericAttributeFound type s).2
   = stderr s ++ [unknown_diagnostic type]) /\
  world (handleUnknownGenericAttributeFound type s).2 = world s /\
  calls (handleUnknownGenericAttributeFound type s).2 = calls s /\
  debugLog (handleUnknownGenericAttributeFound type s).2 = debugLog s.
Proof.
  unfold handleUnknownGenericAttributeFound.
  destruct (decide (type ∈ unknownTypes s)) as [Hin|Hout]; simpl;
    repeat split; intros; congruence || done.
Qed.

Lemma bind_unknown {A : Type} (type : string) (k : M W A) (s : Proc W) :
  (handleUnknownGenericAttributeFound type ;;; k)%go s
  = k (handleUnknownGenericAttributeFound type s).2.
Proof.
  unfold bind, handleUnknownGenericAttributeFound.
  now destruct (decide (type ∈ unknownTypes s)).
Qed.

Lemma first_seen_elem (types : list string) :
  forall (seen : gset string) (t : string),
    t ∈ first_seen seen types <-> t ∈ types /\ t ∉ seen.
Proof.
  induction types as [|type rest IH]; intros seen t; cbn [first_seen].
  - split; [intros Hin; now apply elem_of_nil in Hin|].
    intros [Hin _]. now apply elem_of_nil in Hin.
  - destruct (decide (type ∈ seen)) as [Hseen|Hnew].
    + rewrite IH, elem_of_cons. split; [tauto|].
      intros [[->|Hin] Hout]; [contradiction|tauto].
    + rewrite !elem_of_cons, IH. split.
      * intros [->|[Hin Hout]]; [tauto|]. split; [tauto|].
        intros Hin'. apply Hout. now apply elem_of_union_r.
      * intros [[->|Hin] Hout]; [tauto|].
        destruct (decide (t = type)) as [->|Hne]; [tauto|]. right.
        split; [exact Hin|]. intros Hin'.
        apply elem_of_union in Hin' as [Hin'|Hin']; [|contradiction].
        apply elem_of_singleton in Hin'. contradiction.
Qed.

Lemma first_seen_NoDup (types : list string) :
  forall seen : gset string, NoDup (first_seen seen types).
Proof.
  induction types as [|type rest IH]; intros seen; cbn [first_seen].
  - constructor.
  - destruct (decide (type ∈ seen)); [apply IH|].
    constructor; [|apply IH].
    rewrite first_seen_elem. intros [_ Hout]. apply Hout.
    apply elem_of_union_l. now apply elem_of_singleton.
Qed.

(** The process after a run of unknown types: every type is in the set,
    one diagnostic was written for each type met for the first time, and
    nothing else has changed. *)
Lemma after_unknown_state (types : list string) :
  forall s : Proc W,
    unknownTypes (after_unknown types s) = list_to_set types ∪ unknownTypes s /\
    stderr (after_unknown types s)
    = stderr s ++ map unknown_diagnostic (first_seen (unknownTypes s) types) /\
    world (after_unknown types s) = world s /\
    calls (after_unknown types s) = calls s /\
    debugLog (after_unknown types s) = debugLog s.
Proof.
  induction types as [|type rest IH]; intros s.
  - cbn [after_unknown foldl first_seen map list_to_set].
    rewrite app_nil_r. repeat split. now rewrite union_empty_l_L.
  - pose proof (handleUnknownGenericAttributeFound_state type s)
      as (_ & Hset & Hin & Hout & Hworld & Hcalls & Hlog).
    change (after_unknown (type :: rest) s)
      with (after_unknown rest (handleUnknownGenericAttributeFound type s).2).
    destruct (IH (handleUnknownGenericAttributeFound type s).2)
      as (Hset' & Herr' & Hworld' & Hcalls' & Hlog').
    rewrite Hset', Herr', Hworld', Hcalls', Hlog', Hset, Hworld, Hcalls, Hlog.
    split; [cbn [list_to_set]; now rewrite (assoc_L (∪)), (comm_L (∪) _ {[type]})|].
    split; [|done].
    cbn [first_seen]. destruct (decide (type ∈ unknownTypes s)) as [Hseen|Hnew].
    + rewrite (Hin Hseen). f_equal. f_equal. f_equal.
      apply subseteq_union_1_L. now apply singleton_subseteq_l.
    + rewrite (Hout Hnew), <- app_assoc. reflexivity.
Qed.

Lemma noop_restore_loop_run (attrs : list Attribute) :
  forall s : Proc W,
    NodeNoop.restore_loop attrs s = (Ret tt, after_unknown (map Name attrs) s).
Proof.
  induction attrs as [|a attrs IH]; intros s; [reflexivity|].
  cbn [NodeNoop.restore_loop]. rewrite bind_unknown. apply IH.
Qed.

(** C7.  A generic attribute whose type has no handler does not fail the
    restore.  On Windows, for a type other than the three known ones (two in
    the earlier adapter), and on the platforms without generic attributes
    for every type: the type is put into the process-wide set of unknown
    types, one diagnostic is written unless the type was in the set
    already, no system call is made, the handler returns nil, and the
    restore goes on with the next attribute without recording an error.
    For the adapters without generic attributes the whole call is pinned
    down: it returns nil and leaves the process in which every type of the
    node is in the set and one diagnostic was written for each type met
    for the first time. *)
Theorem unknown_type_tolerated (node : Node) (attr : Attribute)
    (rest : list Attribute) (path : string) (errs : list error)
    (err : option error) (s : Proc W) :
  let s' := (handleUnknownGenericAttributeFound (Name attr) s).2 in
  (unknownTypes s' = {[Name attr]} ∪ unknownTypes s /\
   (Name attr ∈ unknownTypes s -> stderr s' = stderr s) /\
   (Name attr ∉ unknownTypes s ->
    stderr s' = stderr s ++ [unknown_diagnostic (Name attr)]) /\
   world s' = world s /\ calls s' = calls s) /\
  (Name attr <> TypeFileAttribute -> Name attr <> TypeCreationTime ->
   Name attr <> TypeSecurityDescriptor ->
   restoreGenericAttribute attr path s = (Ret None, s') /\
   restore_loop path (attr :: rest) errs s = restore_loop path rest errs s' /\
   (GenericAttributes node = attr :: rest ->
    restoreGenericAttributes node path s
    = restoreGenericAttributes (set_GenericAttributes node rest) path s')) /\
  (Name attr <> TypeFileAttribute -> Name attr <> TypeCreationTime ->
   NodeWindowsEarlier.restoreGenericAttribute attr path s = (Ret None, s') /\
   NodeWindowsEarlier.restore_loop path (attr :: rest) err s
   = NodeWindowsEarlier.restore_loop path rest err s' /\
   (GenericAttributes node = attr :: rest ->
    NodeWindowsEarlier.restoreGenericAttributes node path s
    = NodeWindowsEarlier.restoreGenericAttributes
        (set_GenericAttributes node rest) path s')) /\
  (NodeNoop.restore_loop (attr :: rest) s = NodeNoop.restore_loop rest s' /\
   (GenericAttributes node = attr :: rest ->
    NodeNoop.restoreGenericAttributes node path s
    = NodeNoop.restoreGenericAttributes (set_GenericAttributes node rest) path s') /\
   let types := map Name (GenericAttributes node) in
   let final := after_unknown types s in
   NodeNoop.restoreGenericAttributes node path s = (Ret None, final) /\
   unknownTypes final = list_to_set types ∪ unknownTypes s /\
   stderr final
   = stderr s ++ map unknown_diagnostic (first_seen (unknownTypes s) types) /\
   NoDup (first_seen (unknownTypes s) types) /\
   (forall t, t ∈ first_seen (unknownTypes s) types
              <-> t ∈ types /\ t ∉ unknownTypes s) /\
   world final = world s /\ calls final = calls s).
Proof.
  intros s'.
  pose proof (handleUnknownGenericAttributeFound_state (Name attr) s)
    as (_ & Hset & Hin & Hout & Hworld & Hcalls & _).
  split; [now repeat split|]. split; [|split].
  - intros Hfa Hct Hsd.
    assert (Hone : restoreGenericAttribute attr path s = (Ret None, s')).
    { unfold restoreGenericAttribute.
      rewrite (proj2 (String.eqb_neq _ _) Hfa), (proj2 (String.eqb_neq _ _) Hct),
        (proj2 (String.eqb_neq _ _) Hsd).
      now rewrite bind_unknown. }
    assert (Hloop : forall l, restore_loop path (attr :: rest) l s
                              = restore_loop path rest l s').
    { intros l. cbn [restore_loop]. unfold bind at 1. now rewrite Hone. }
    split; [exact Hone|]. split; [apply Hloop|].
    intros Hattrs. unfold restoreGenericAttributes. cbn [GenericAttributes set_GenericAttributes].
    rewrite Hattrs. unfold bind. now rewrite Hloop.
  - intros Hfa Hct.
    assert (Hone : NodeWindowsEarlier.restoreGenericAttribute attr path s
                   = (Ret None, s')).
    { unfold NodeWindowsEarlier.restoreGenericAttribute.
      rewrite (proj2 (String.eqb_neq _ _) Hfa), (proj2 (String.eqb_neq _ _) Hct).
      now rewrite bind_unknown. }
    assert (Hloop : forall r, NodeWindowsEarlier.restore_loop path (attr :: rest) r s
                              = NodeWindowsEarlier.restore_loop path rest r s').
    { intros r. cbn [NodeWindowsEarlier.restore_loop].
      unfold bind at 1. now rewrite Hone. }
    split; [exact Hone|]. split; [apply Hloop|].
    intros Hattrs. unfold NodeWindowsEarlier.restoreGenericAttributes.
    cbn [GenericAttributes set_GenericAttributes]. rewrite Hattrs. apply Hloop.
  - assert (Hloop : NodeNoop.restore_loop (attr :: rest) s
                    = NodeNoop.restore_loop rest s').
    { cbn [NodeNoop.restore_loop]. now rewrite bind_unknown. }
    split; [exact Hloop|]. split.
    + intros Hattrs. unfold NodeNoop.restoreGenericAttributes.
      cbn [GenericAttributes set_GenericAttributes]. rewrite Hattrs.
      unfold bind. now rewrite Hloop.
    + intros types final.
      destruct (after_unknown_state types s)
        as (Hfset & Hferr & Hfworld & Hfcalls & _).
      split.
      * unfold NodeNoop.restoreGenericAttributes, bind.
        now rewrite noop_restore_loop_run.
      * split; [exact Hfset|]. split; [exact Hferr|].
        split; [apply first_seen_NoDup|]. split; [apply first_seen_elem|].
        now split.
Qed.

(** The loop of [restoreGenericAttributes] handles every attribute and
    records every failure, in order. *)
Lemma restore_loop_attempts_all (path : string) (attrs : list Attribute) :
  forall (errs : list error) (s : Proc W),
    restore_loop path attrs errs s
    = (results <- attempt_all path attrs ;;
       ret (errs ++ recorded_failures path results))%go s.
Proof.
  induction attrs as [|attr attrs IH]; intros errs s.
  - unfold bind, ret. simpl. now rewrite app_nil_r.
  - cbn [restore_loop attempt_all]. unfold bind, ret. cbv beta.
    destruct (restoreGenericAttribute attr path s) as [[[e|]|] s1]; [| |reflexivity].
    + rewrite IH. unfold bind, ret.
      destruct (attempt_all path attrs s1) as [[results|] s2]; [|reflexivity].
      unfold recorded_failures. simpl. now rewrite <- app_assoc.
    + rewrite IH. unfold bind, ret.
      now destruct (attempt_all path attrs s1) as [[results|] s2].
Qed.

Lemma attempt_all_length (path : string) (attrs : list Attribute) :
  forall (s s' : Proc W) (results : list (option error)),
    attempt_all path attrs s = (Ret results, s') ->
    length results = length attrs.
Proof.
  induction attrs as [|attr attrs IH]; intros s s' results.
  - intros [= <- _]. reflexivity.
  - cbn [attempt_all]. unfold bind, ret.
    destruct (restoreGenericAttribute attr path s) as [[errGen|] s1]; [|discriminate].
    destruct (attempt_all path attrs s1) as [[rest|] s2] eqn:Hrest; [|discriminate].
    intros [= <- _]. simpl. f_equal. now apply (IH s1 s2).
Qed.

Lemma recorded_failures_nil (path : string) (results : list (option error)) :
  recorded_failures path results = [] <-> Forall (fun r => r = None) results.
Proof.
  unfold recorded_failures. induction results as [|[e|] results IH]; simpl.
  - split; [constructor|reflexivity].
  - split; [discriminate|]. intros Hall. apply Forall_cons in Hall as [[=] _].
  - rewrite IH. split; [now constructor|].
    intros Hall. now apply Forall_cons in Hall as [_ Hall].
Qed.

Lemma recorded_failures_elem (path : string) (results : list (option error))
    (e : error) :
  Some e ∈ results ->
  Errorf2 "error restoring generic attribute for: %s : %v" path e
  ∈ recorded_failures path results.
Proof.
  unfold recorded_failures. induction results as [|r results IH]; intros Hin.
  - now apply elem_of_nil in Hin.
  - simpl. apply elem_of_app. apply elem_of_cons in Hin as [<-|Hin].
    + left. simpl. apply list_elem_of_singleton. reflexivity.
    + right. now apply IH.
Qed.

End RestoreGeneric.

(** *** Restore on simulated files *)

Section RestoreRuns.
Import GoBytes GoErrors Runtime Node NodeWindows SimWindows.

(** C7, at a concrete input: an attribute of type ["vendor.experimental"]
    is restored twice; the handler returns nil both times and one
    diagnostic is written.  On a platform without generic attributes a
    node that carries the attribute twice is restored with a nil error, the
    type recorded and one diagnostic written. *)
Lemma unknown_type_tolerated_witness :
  let s1 := (handleUnknownGenericAttributeFound "vendor.experimental"
               (initial plain_file)).2 in
  let s2 := (handleUnknownGenericAttributeFound "vendor.experimental" s1).2 in
  let twice := mkNode "file" [] [experimental; experimental] in
  restoreGenericAttribute experimental "f" (initial plain_file) = (Ret None, s1) /\
  restoreGenericAttribute experimental "f" s1 = (Ret None, s2) /\
  stderr s1 = [unknown_diagnostic "vendor.experimental"] /\
  stderr s2 = [unknown_diagnostic "vendor.experimental"] /\
  calls s2 = [] /\
  NodeNoop.restoreGenericAttributes twice "f" (initial plain_file) = (Ret None, s2) /\
  unknownTypes s2 = {["vendor.experimental"]} ∪ ({["vendor.experimental"]} ∪ ∅).
Proof.
  intros s1 s2 twice.
  assert (Hfa : Name experimental <> TypeFileAttribute) by discriminate.
  assert (Hct : Name experimental <> TypeCreationTime) by discriminate.
  assert (Hsd : Name experimental <> TypeSecurityDescriptor) by discriminate.
  pose proof (unknown_type_tolerated twice experimental [] "f" [] None
                (initial plain_file))
    as ((Hset1 & _ & Hnew & _ & Hcalls1) & Hwin1 & _ & (_ & _ & Hnoop)).
  pose proof (unknown_type_tolerated twice experimental [] "f" [] None s1)
    as ((Hset2 & Hold & _ & _ & Hcalls2) & Hwin2 & _).
  destruct (Hwin1 Hfa Hct Hsd) as [Hone _].
  destruct (Hwin2 Hfa Hct Hsd) as [Htwo _].
  destruct Hnoop as (Hrun & _).
  assert (Hfirst : stderr s1 = [unknown_diagnostic "vendor.experimental"]).
  { apply Hnew. apply not_elem_of_empty. }
  assert (Hs1 : unknownTypes s1 = {[Name experimental]} ∪ ∅) by exact Hset1.
  assert (Hs2 : unknownTypes s2 = {[Name experimental]} ∪ unknownTypes s1)
    by exact Hset2.
  assert (Hsecond : stderr s2 = stderr s1).
  { apply Hold. rewrite Hs1. apply elem_of_union_l. now apply elem_of_singleton. }
  assert (Hc1 : calls s1 = []) by exact Hcalls1.
  assert (Hc2 : calls s2 = calls s1) by exact Hcalls2.
  split; [exact Hone|]. split; [exact Htwo|]. split; [exact Hfirst|].
  split; [congruence|]. split; [congruence|]. split; [exact Hrun|].
  now rewrite Hs2, Hs1.
Defined.

(** C8 as stated fails for the earlier adapter: on a write-protected
    volume the file attributes and the creation time both fail to restore;
    the earlier adapter handles every attribute, but returns the last
    failure only, and the first one is left in the debug log. *)
Example earlier_adapter_returns_last_failure :
  (NodeWindowsEarlier.attempt_all "f" (GenericAttributes three_attributes)
     (initial readonly_volume_file)).1
  = Ret [Some (Errno 19); None; Some (Errno 5)] /\
  (NodeWindowsEarlier.restoreGenericAttributes three_attributes "f"
     (initial readonly_volume_file)).1
  = Ret (Some (Errorf2 "Error restoring generic attribute for: %s : %v" "f"
                       (Errno 5))) /\
  debugLog (NodeWindowsEarlier.restoreGenericAttributes three_attributes "f"
              (initial readonly_volume_file)).2
  = [("%v", [LogErr (Errorf2 "Error restoring generic attribute for: %s : %v" "f"
                             (Errno 19))]);
     ("%v", [LogErr (Errorf2 "Error restoring generic attribute for: %s : %v" "f"
                             (Errno 5))])].
Proof. repeat split; vm_compute; reflexivity. Qed.

End RestoreRuns.

(** ** The xattr adapter *)

Section Xattr.
Import GoBytes GoErrors Runtime Node NodeXattr.
Context {W : Type} `{API : XattrAPI W}.

Lemma handleXattrErr_Some (e : error) :
  handleXattrErr (Some e) = if tolerated e then None else Some (WithStack e).
Proof.
  unfold handleXattrErr, tolerated. destruct e; reflexivity.
Qed.

Lemma listxattr_error (path : string) (e : error) (w : W) (s : Proc W) :
  LList path (world s) = (inr e, w) ->
  listxattr path s = (Ret ([], handleXattrErr (Some e)), after_call (CallLList path) w s).
Proof. intros Hlist. unfold listxattr, bind, os_call. now rewrite Hlist. Qed.

Lemma setxattr_error (path name : string) (data : list byte) (e : error) (w : W)
    (s : Proc W) :
  LSet path name data (world s) = (Some e, w) ->
  setxattr path name data s
  = (Ret (handleXattrErr (Some e)), after_call (CallLSet path name data) w s).
Proof. intros Hset. unfold setxattr, bind, os_call. now rewrite Hset. Qed.

(** C9.  In the xattr adapter an error of the xattr library whose cause is
    ENOTSUP or ENOATTR counts as success: when listing fails that way,
    [fillExtendedAttributes] leaves the node with an empty list of extended
    attributes and returns nil; when setting an attribute fails that way,
    [restoreExtendedAttributes] goes on with the next attribute as if it
    had been set.  Every other failure of listing or setting is returned to
    the caller, wrapped by [errors.WithStack]; a failed listing leaves the
    node untouched, and a failed set ends the restore at that attribute. *)
Theorem xattr_errors_normalized (node : Node) (path : string) (attr : Attribute)
    (rest : list Attribute) (e : error) (w : W) (s : Proc W) :
  (LList path (world s) = (inr e, w) -> tolerated e = true ->
   listxattr path s = (Ret ([], None), after_call (CallLList path) w s) /\
   exists s',
     fillExtendedAttributes node path s
     = (Ret (set_ExtendedAttributes node [], None), s')) /\
  (LList path (world s) = (inr e, w) -> tolerated e = false ->
   exists s',
     fillExtendedAttributes node path s = (Ret (node, Some (WithStack e)), s')) /\
  (LSet path (Name attr) (Value attr) (world s) = (Some e, w) ->
   tolerated e = true ->
   setxattr path (Name attr) (Value attr) s
   = (Ret None, after_call (CallLSet path (Name attr) (Value attr)) w s) /\
   restore_loop path (attr :: rest) s
   = restore_loop path rest
       (after_call (CallLSet path (Name attr) (Value attr)) w s)) /\
  (LSet path (Name attr) (Value attr) (world s) = (Some e, w) ->
   tolerated e = false ->
   restore_loop path (attr :: rest) s
   = (Ret (Some (WithStack e)),
      after_call (CallLSet path (Name attr) (Value attr)) w s)).
Proof.
  split; [|split; [|split]].
  - intros Hlist Htol.
    pose proof (listxattr_error path e w s Hlist) as Hone.
    rewrite handleXattrErr_Some, Htol in Hone. split; [exact Hone|].
    unfold fillExtendedAttributes. unfold bind at 1. rewrite Hone.
    unfold bind, debug_Log, ret. simpl. now eexists.
  - intros Hlist Htol. unfold fillExtendedAttributes. unfold bind at 1.
    rewrite (listxattr_error path e w s Hlist), handleXattrErr_Some, Htol.
    unfold bind, debug_Log, ret. simpl. now eexists.
  - intros Hset Htol.
    pose proof (setxattr_error path _ _ e w s Hset) as Hone.
    rewrite handleXattrErr_Some, Htol in Hone. split; [exact Hone|].
    cbn [restore_loop]. unfold bind at 1. now rewrite Hone.
  - intros Hset Htol.
    pose proof (setxattr_error path _ _ e w s Hset) as Hone.
    rewrite handleXattrErr_Some, Htol in Hone.
    cbn [restore_loop]. unfold bind at 1. now rewrite Hone.
Qed.

End Xattr.

(** *** The xattr adapter on simulated file systems *)

Section XattrRuns.
Import GoBytes GoErrors Runtime Node NodeXattr SimXattr.

(** C9, at concrete inputs: without xattr support the capture yields an
    empty list and the restore succeeds, also on a mount that answers
    ENOATTR; an I/O error is returned by both. *)
Lemma xattr_errors_normalized_witness :
  (fillExtendedAttributes node_user_foo "f" (initial unsupported_fs)).1
  = Ret (mkNode "file" [] [], None) /\
  (restoreExtendedAttributes node_user_foo "f" (initial cifs_fs)).1
  = Ret None /\
  (fillExtendedAttributes node_user_foo "f" (initial broken_fs)).1
  = Ret (node_user_foo, Some (WithStack io_error)) /\
  (restoreExtendedAttributes node_user_foo "f" (initial broken_fs)).1
  = Ret (Some (WithStack io_error)).
Proof.
  pose proof (xattr_errors_normalized node_user_foo "f"
                (mkAttribute "user.foo" [x62; x61; x72]) [mkAttribute "user.baz" []]
                not_supported unsupported_fs (initial unsupported_fs))
    as (Hfill & _).
  destruct (Hfill eq_refl eq_refl) as [_ [s' Hrun]].
  pose proof (xattr_errors_normalized node_user_foo "f"
                (mkAttribute "user.foo" [x62; x61; x72]) [mkAttribute "user.baz" []]
                io_error broken_fs (initial broken_fs))
    as (_ & Hfail & _ & Hset).
  destruct (Hfail eq_refl eq_refl) as [s'' Hrun'].
  assert (Hrestore : restoreExtendedAttributes node_user_foo "f"
                       (initial broken_fs)
                     = restore_loop "f" (ExtendedAttributes node_user_foo)
                         (initial broken_fs)) by reflexivity.
  rewrite Hrun, Hrun', Hrestore.
  simpl ExtendedAttributes. rewrite (Hset eq_refl eq_refl).
  repeat split; reflexivity.
Defined.

(** A value that cannot be fetched is skipped with a line on standard
    error; a fetch that fails with a tolerated error yields an attribute
    with an empty value. *)
Example fill_skips_unreadable_values :
  (fillExtendedAttributes (mkNode "file" [] []) "f"
     (initial (mkSimFs (inl ["user.a"; "user.b"])
                          (fun name => if String.eqb name "user.a"
                                       then inr io_error else inl [x01])
                          (fun _ => None)))).1
  = Ret (mkNode "file" [mkAttribute "user.b" [x01]] [], None).
Proof. reflexivity. Qed.

End XattrRuns.

(** * Further properties of the code *)

(** ** The EA codec on arbitrary buffers *)

Section CodecBuffers.
Import GoBytes GoErrors EA Tactics.

Lemma length_string_of_bytes (l : list byte) :
  String.length (string_of_bytes l) = length l.
Proof.
  unfold string_of_bytes, String.string_of_list_byte.
  induction l as [|c l IH]; simpl; congruence.
Qed.

Lemma Uint16_range (b : list byte) (v : Z) :
  Uint16 b = Some v -> 0 <= v < 2 ^ 16.
Proof.
  destruct b as [|b0 [|b1 b']]; try discriminate. intros [= <-].
  pose proof (Z_of_byte_range b0). pose proof (Z_of_byte_range b1).
  rewrite (lor_shiftl_add _ _ 8) by lia.
  change (2 ^ 8) with 256. change (2 ^ 16) with 65536. lia.
Qed.

Lemma read_info_short (b : list byte) :
  (length b < 8)%nat -> read_info b = None.
Proof.
  intros Hlen.
  destruct b as [|o0 [|o1 [|o2 [|o3 [|fl [|nl [|v0 [|v1 b']]]]]]]];
    try reflexivity.
  simpl in Hlen. lia.
Qed.

Lemma read_info_ranges (b : list byte) (info : fileFullEaInformation) :
  read_info b = Some info ->
  0 <= NextEntryOffset info < 2 ^ 32 /\
  0 <= NameLength info < 256 /\
  0 <= ValueLength info < 2 ^ 16.
Proof.
  unfold read_info.
  destruct b as [|o0 [|o1 [|o2 [|o3 [|fl [|nl [|v0 [|v1 b']]]]]]]];
    try discriminate.
  destruct (Uint32 [o0; o1; o2; o3]) as [next|] eqn:Hnext; [|discriminate].
  destruct (Uint16 [v0; v1]) as [vlen|] eqn:Hvlen; [|discriminate].
  intros [= <-]. simpl.
  split; [now apply (Uint32_range _ _ Hnext)|].
  split; [apply Z_of_byte_range | now apply (Uint16_range _ _ Hvlen)].
Qed.

Lemma length_slice_le {A : Type} (b : list A) (i j : Z) :
  0 <= j - i -> len (slice b i j) <= j - i.
Proof.
  intros Hij. unfold len, slice. rewrite length_take. lia.
Qed.

(** The one error [parseEa] returns. *)
Lemma parseEa_error (b nb : list byte) (ea : ExtendedAttribute) (err : error) :
  parseEa b = (ea, nb, Some err) -> err = errInvalidEaBuffer.
Proof.
  unfold parseEa. destruct (read_info b) as [info|]; [|now intros [= _ _ <-]].
  destruct (_ || _); [now intros [= _ _ <-]|discriminate].
Qed.

(** What [parseEa] returns is within the limits of the encoder. *)
Lemma parseEa_valid (b nb : list byte) (ea : ExtendedAttribute) :
  parseEa b = (ea, nb, None) -> valid_ea ea.
Proof.
  unfold parseEa. destruct (read_info b) as [info|] eqn:Hinfo; [|discriminate].
  destruct (read_info_ranges b info Hinfo) as (_ & Hname & Hvalue).
  destruct (_ || _); [discriminate|]. intros [= <- _].
  unfold valid_ea, strlen. simpl Name. simpl Value.
  rewrite length_string_of_bytes.
  pose proof (length_slice_le b fileFullEaInformationSize
                (fileFullEaInformationSize + NameLength info)) as Hn.
  pose proof (length_slice_le b (fileFullEaInformationSize + NameLength info + 1)
                (fileFullEaInformationSize + NameLength info + 1 + ValueLength info))
    as Hv.
  change (2 ^ 16) with 65536 in Hvalue. unfold len in *. split; lia.
Qed.

(** The results of the decoding loop: on failure the nil list and the
    invalid-buffer error; on success the attributes read so far followed by
    attributes within the limits, at least one if the buffer was not
    empty. *)
Lemma decode_loop_results (fuel : nat) :
  forall (b : list byte) (acc eas : list ExtendedAttribute) (r : option error),
    decode_loop fuel b acc = Some (eas, r) ->
    match r with
    | Some err => eas = [] /\ err = errInvalidEaBuffer
    | None =>
        exists more, eas = acc ++ more /\ Forall valid_ea more /\
                     ((len b =? 0) = false -> more <> [])
    end.
Proof.
  induction fuel as [|fuel IH]; intros b acc eas r; rewrite decode_loop_eq;
    destruct (len b =? 0) eqn:Hlen.
  - intros [= <- <-]. exists []. rewrite app_nil_r. repeat split; [constructor|done].
  - discriminate.
  - intros [= <- <-]. exists []. rewrite app_nil_r. repeat split; [constructor|done].
  - destruct (parseEa b) as [[ea nb] [err|]] eqn:Hparse.
    + intros [= <- <-]. split; [reflexivity|]. now apply (parseEa_error b nb ea).
    + intros Hrest. specialize (IH _ _ _ _ Hrest). destruct r as [err|]; [exact IH|].
      destruct IH as (more & -> & Hvalid & _).
      exists (ea :: more). rewrite <- app_assoc. split; [reflexivity|].
      split; [|discriminate].
      constructor; [now apply (parseEa_valid b nb)|assumption].
Qed.

(** X1.  [DecodeExtendedAttributes] returns on every buffer, well formed or
    not: an iteration of its loop that goes on leaves a strictly shorter
    buffer, so the loop ends after at most one iteration per byte.  When it
    fails, the list returned is nil and the error is the invalid-buffer
    error. *)
Theorem decode_always_returns (b : list byte) :
  exists (eas : list ExtendedAttribute) (r : option error),
    DecodeExtendedAttributes b = Some (eas, r) /\
    (r <> None -> eas = [] /\ r = Some errInvalidEaBuffer).
Proof.
  destruct (DecodeExtendedAttributes_total b) as [[eas r] Hdec].
  exists eas, r. split; [exact Hdec|]. intros Hr.
  pose proof (decode_loop_results _ _ _ _ _ Hdec) as Hres.
  destruct r as [err|]; [|done]. destruct Hres as [-> ->]. now split.
Qed.

Lemma decode_short_buffer (b : list byte) :
  (0 < length b < 8)%nat ->
  DecodeExtendedAttributes b = Some ([], Some errInvalidEaBuffer).
Proof.
  intros [Hpos Hshort]. unfold DecodeExtendedAttributes.
  rewrite decode_loop_eq.
  replace (len b =? 0) with false by (unfold len; symmetry; apply Z.eqb_neq; lia).
  destruct (length b) as [|n] eqn:Hlen; [lia|].
  unfold parseEa. rewrite read_info_short by lia. reflexivity.
Qed.

(** X2.  A buffer that ends before the value of its first record ends is
    rejected with the invalid-buffer error: whether fewer than the eight
    header bytes are left or the header announces more bytes than the
    buffer holds.  (Missing padding after the value is accepted.) *)
Theorem decode_rejects_truncated_record
    (ea : ExtendedAttribute) (last : bool) (tail : list byte) (k : nat) :
  valid_ea ea -> (0 < k)%nat -> Z.of_nat k < entry_size ea ->
  DecodeExtendedAttributes (take k (ea_record ea last ++ tail))
  = Some ([], Some errInvalidEaBuffer).
Proof.
  intros Hvalid Hpos Hcut.
  pose proof (entry_size_bounds ea Hvalid) as [He Hp].
  pose proof (length_ea_record ea last Hvalid) as Hlen. unfold len in Hlen.
  assert (Hk : length (take k (ea_record ea last ++ tail)) = k).
  { rewrite length_take, length_app. lia. }
  destruct (Nat.lt_ge_cases k 8) as [Hshort|Hlong].
  - apply decode_short_buffer. lia.
  - unfold DecodeExtendedAttributes. rewrite decode_loop_eq, Hk.
    replace (len (take k (ea_record ea last ++ tail)) =? 0) with false
      by (unfold len; rewrite Hk; symmetry; apply Z.eqb_neq; lia).
    destruct k as [|k']; [lia|].
    assert (Hn0 : 0 <= strlen (Name ea) <= 255)
      by (destruct Hvalid; unfold strlen in *; lia).
    assert (Hv0 : 0 <= len (Value ea) <= 65535)
      by (destruct Hvalid; unfold len in *; lia).
    unfold parseEa.
    assert (Hsplit : take (S k') (ea_record ea last ++ tail)
      = write_info (mkInfo (if last then 0 else padded_size ea) (Flags ea)
                           (strlen (Name ea)) (len (Value ea)))
        ++ take (S k' - 8)
             ((bytes_of_string (Name ea) ++ [x00] ++ Value ea
               ++ replicate (Z.to_nat (padded_size ea - entry_size ea)) x00)
              ++ tail)).
    { unfold ea_record. rewrite <- app_assoc.
      rewrite take_app_ge by (simpl; lia). reflexivity. }
    assert (Hblen : len (take (S k') (ea_record ea last ++ tail)) = Z.of_nat (S k'))
      by (unfold len; now rewrite Hk).
    rewrite Hblen. rewrite Hsplit.
    rewrite read_info_write_info;
      [| simpl; destruct last; change (2 ^ 32) with 4294967296; lia
       | simpl; lia
       | simpl; change (2 ^ 16) with 65536; lia ].
    simpl NameLength. simpl ValueLength.
    replace (len (Value ea) + (fileFullEaInformationSize + strlen (Name ea) + 1)
             >? Z.of_nat (S k')) with true
      by (symmetry; apply Z.gtb_lt; unfold entry_size in Hcut; lia).
    reflexivity.
Qed.

(** X2, at a concrete input: the record of ["user.foo"] cut after 15 of
    its 20 bytes. *)
Lemma decode_rejects_truncated_record_witness :
  valid_ea ea_user_foo /\ Z.of_nat 15 < entry_size ea_user_foo /\
  DecodeExtendedAttributes (take 15 (ea_record ea_user_foo true ++ []))
  = Some ([], Some errInvalidEaBuffer).
Proof.
  assert (Hvalid : valid_ea ea_user_foo) by (split; vm_compute; discriminate).
  assert (Hcut : Z.of_nat 15 < entry_size ea_user_foo) by reflexivity.
  split; [exact Hvalid|]. split; [exact Hcut|].
  apply (decode_rejects_truncated_record ea_user_foo true [] 15 Hvalid); [lia|exact Hcut].
Defined.

End CodecBuffers.

Section CodecRoundTrips.
Import GoBytes GoErrors EA Runtime EASet Tactics.


Lemma EncodeExtendedAttributes_valid (eas : list ExtendedAttribute) :
  Forall valid_ea eas -> EncodeExtendedAttributes eas = (ea_chain eas, None).
Proof.
  intros Hvalid. unfold EncodeExtendedAttributes.
  now rewrite (encode_loop_chain eas (len eas) 0 [] Hvalid) by lia.
Qed.

(** X3.  Whatever [DecodeExtendedAttributes] returns without error can be
    encoded again: every attribute decoded has a name of at most 255 bytes
    and a value of at most 65535 bytes, a buffer that is not empty yields
    at least one attribute, and encoding the result and decoding it again
    gives the same list. *)
Theorem decode_result_reencodes (b : list byte) (eas : list ExtendedAttribute) :
  DecodeExtendedAttributes b = Some (eas, None) ->
  Forall valid_ea eas /\
  (b <> [] -> eas <> []) /\
  (EncodeExtendedAttributes eas).2 = None /\
  DecodeExtendedAttributes (EncodeExtendedAttributes eas).1 = Some (eas, None).
Proof.
  intros Hdec.
  destruct (decode_loop_results _ _ _ _ _ Hdec) as (more & Heq & Hvalid & Hne).
  simpl in Heq. subst more.
  split; [exact Hvalid|]. split.
  - intros Hb. apply Hne. unfold len. apply Z.eqb_neq.
    destruct b; [done|simpl; lia].
  - rewrite (EncodeExtendedAttributes_valid eas Hvalid). split; [reflexivity|].
    simpl. unfold DecodeExtendedAttributes.
    now rewrite decode_loop_chain by (assumption || lia).
Qed.

(** X3, at a concrete input: twelve zero bytes decode to one attribute with
    an empty name and an empty value, which encodes to the same twelve
    bytes. *)
Lemma decode_result_reencodes_witness :
  DecodeExtendedAttributes (replicate 12 x00) = Some ([mkEA "" [] x00], None) /\
  (EncodeExtendedAttributes [mkEA "" [] x00]).1 = replicate 12 x00 /\
  DecodeExtendedAttributes (EncodeExtendedAttributes [mkEA "" [] x00]).1
  = Some ([mkEA "" [] x00], None).
Proof.
  assert (Hdec : DecodeExtendedAttributes (replicate 12 x00)
                 = Some ([mkEA "" [] x00], None)) by reflexivity.
  destruct (decode_result_reencodes _ _ Hdec) as (_ & _ & _ & Hagain).
  split; [exact Hdec|]. split; [reflexivity|exact Hagain].
Defined.

Lemma length_ea_chain (eas : list ExtendedAttribute) :
  Forall valid_ea eas ->
  len (ea_chain eas) = foldr (fun ea n => padded_size ea + n) 0 eas.
Proof.
  induction eas as [|ea rest IH]; intros Hvalid; [reflexivity|].
  apply Forall_cons in Hvalid as [Hea Hrest]. specialize (IH Hrest).
  cbn [ea_chain foldr]. destruct rest as [|ea' rest'].
  - rewrite (length_ea_record ea true Hea). simpl. lia.
  - unfold len in *. rewrite length_app, Nat2Z.inj_add, IH.
    pose proof (length_ea_record ea false Hea) as Hl. unfold len in Hl.
    rewrite Hl. reflexivity.
Qed.

(** X4.  The buffer [EncodeExtendedAttributes] builds from attributes
    within the limits is the sum of the padded record sizes long, so every
    record starts at an offset that is a multiple of four and the whole
    length is a multiple of four. *)
Theorem encode_length_aligned (eas : list ExtendedAttribute) :
  Forall valid_ea eas ->
  len (EncodeExtendedAttributes eas).1
  = foldr (fun ea n => padded_size ea + n) 0 eas /\
  len (EncodeExtendedAttributes eas).1 mod 4 = 0.
Proof.
  intros Hvalid. rewrite (EncodeExtendedAttributes_valid eas Hvalid).
  simpl fst. rewrite (length_ea_chain eas Hvalid). split; [reflexivity|].
  clear Hvalid. induction eas as [|ea rest IH]; [reflexivity|].
  cbn [foldr]. unfold padded_size at 1.
  rewrite Z.add_comm, Z.mul_comm, Z.mod_add by lia. exact IH.
Qed.

(** X4, at a concrete input: two records of 20 and 12 bytes. *)
Lemma encode_length_aligned_witness :
  Forall valid_ea [ea_user_foo; ea_flagged] /\
  len (EncodeExtendedAttributes [ea_user_foo; ea_flagged]).1 = 20 + 12.
Proof.
  assert (Hvalid : Forall valid_ea [ea_user_foo; ea_flagged]) by valid_list.
  split; [exact Hvalid|].
  exact (proj1 (encode_length_aligned _ Hvalid)).
Defined.

Lemma decode_loop_chain_tail (eas : list ExtendedAttribute) :
  forall (fuel : nat) (acc : list ExtendedAttribute) (junk : list byte),
    Forall valid_ea eas -> eas <> [] ->
    (length (ea_chain eas ++ junk) <= fuel)%nat ->
    decode_loop fuel (ea_chain eas ++ junk) acc = Some (acc ++ eas, None).
Proof.
  induction eas as [|ea rest IH]; intros fuel acc junk Hvalid Hne Hfuel; [done|].
  apply Forall_cons in Hvalid as [Hea Hrest].
  pose proof (entry_size_bounds ea Hea) as [He Hp].
  rewrite decode_loop_eq. cbn [ea_chain] in *. destruct rest as [|ea' rest'].
  - pose proof (length_ea_record ea true Hea) as Hlen. unfold len in Hlen.
    rewrite ea_record_nonempty by assumption.
    rewrite length_app in Hfuel. destruct fuel as [|fuel']; [lia|].
    rewrite parseEa_record by assumption. now rewrite decode_loop_eq.
  - pose proof (length_ea_record ea false Hea) as Hlen. unfold len in Hlen.
    rewrite <- app_assoc in *.
    rewrite ea_record_nonempty by assumption.
    rewrite length_app in Hfuel. destruct fuel as [|fuel']; [lia|].
    rewrite parseEa_record by assumption.
    rewrite IH by (assumption || done || lia).
    now rewrite <- app_assoc.
Qed.

(** X5.  Decoding stops at the record whose [NextEntryOffset] is zero:
    bytes that follow the last record of an encoded list, of whatever
    content, are not looked at. *)
Theorem decode_ignores_trailing_bytes
    (eas : list ExtendedAttribute) (junk : list byte) :
  Forall valid_ea eas -> eas <> [] ->
  DecodeExtendedAttributes ((EncodeExtendedAttributes eas).1 ++ junk)
  = Some (eas, None).
Proof.
  intros Hvalid Hne. rewrite (EncodeExtendedAttributes_valid eas Hvalid).
  simpl fst. unfold DecodeExtendedAttributes.
  now rewrite decode_loop_chain_tail by (assumption || lia).
Qed.

(** X5, at a concrete input: three bytes after two records. *)
Lemma decode_ignores_trailing_bytes_witness :
  DecodeExtendedAttributes
    ((EncodeExtendedAttributes [ea_user_foo; ea_flagged]).1 ++ [xff; x01; x02])
  = Some ([ea_user_foo; ea_flagged], None).
Proof.
  assert (Hvalid : Forall valid_ea [ea_user_foo; ea_flagged]) by valid_list.
  apply (decode_ignores_trailing_bytes _ _ Hvalid). discriminate.
Defined.




End CodecRoundTrips.

Section QueryOutcome.
Import GoBytes GoErrors EA.

Lemma fill_buffer_fits (n : nat) (data : list byte) :
  (length data <= n)%nat ->
  fill_buffer (replicate n x00) data = data ++ replicate (n - length data) x00.
Proof.
  intros Hfit. unfold fill_buffer. rewrite length_replicate.
  rewrite take_ge by lia. now rewrite drop_replicate.
Qed.

Lemma GetFileEA_after_retries (pre : list EaQueryReply) (r : EaQueryReply)
    (rest : list EaQueryReply) :
  Forall insufficient_reply pre ->
  1024 * 2 ^ Z.of_nat (length pre) < 2 ^ 63 ->
  reply_status r <> noExtendedAttribsStatus ->
  GetFileEA (pre ++ r :: rest)
  = match ntStatus_Err r with
    | Some err =>
        if is_errno err ERROR_INSUFFICIENT_BUFFER || is_errno err ERROR_MORE_DATA
        then GetFileEA (pre ++ r :: rest)
        else (doubling_queries (S (length pre)),
              Returned (Some ([], Some (Errorf1 "get file EA failed with: %w" err))))
    | None =>
        (doubling_queries (S (length pre)),
         Returned (DecodeExtendedAttributes
                     (fill_buffer
                        (replicate (Z.to_nat (1024 * 2 ^ Z.of_nat (length pre))) x00)
                        (reply_data r))))
    end.
Proof.
  intros Hins Hfit Hsent.
  assert (Hpow : 0 < 2 ^ Z.of_nat (length pre)) by (apply Z.pow_pos_nonneg; lia).
  destruct (ntStatus_Err r) as [err|] eqn:Herr.
  - destruct (is_errno err ERROR_INSUFFICIENT_BUFFER || is_errno err ERROR_MORE_DATA)
      eqn:Hretry; [reflexivity|].
    rewrite GetFileEA_eq, (GetFileEA_loop_retries pre (r :: rest) 0 Hins Hfit).
    cbn [GetFileEA_loop Nat.add]. rewrite len_zero_buffer by lia.
    rewrite <- doubling_queries_S.
    replace (reply_status r =? noExtendedAttribsStatus) with false
      by (symmetry; now apply Z.eqb_neq).
    now rewrite Herr, Hretry.
  - rewrite GetFileEA_eq, (GetFileEA_loop_retries pre (r :: rest) 0 Hins Hfit).
    cbn [GetFileEA_loop Nat.add]. rewrite len_zero_buffer by lia.
    rewrite <- doubling_queries_S.
    replace (reply_status r =? noExtendedAttribsStatus) with false
      by (symmetry; now apply Z.eqb_neq).
    now rewrite Herr.
Qed.

(** X7.  Once the buffer is large enough, [GetFileEA] returns the
    attributes the kernel wrote: after any number of replies that asked for
    a larger buffer, a reply whose status carries no error and that wrote
    the records of a list of attributes (not empty, within the limits, no
    longer than the buffer) makes [GetFileEA] return that list with a nil
    error, the zero bytes left in the buffer after the last record being
    ignored, and no further query is made. *)
Theorem GetFileEA_returns_kernel_attributes
    (pre rest : list EaQueryReply) (r : EaQueryReply)
    (eas : list ExtendedAttribute) :
  Forall insufficient_reply pre ->
  1024 * 2 ^ Z.of_nat (length pre) < 2 ^ 63 ->
  reply_status r <> noExtendedAttribsStatus ->
  ntStatus_Err r = None ->
  Forall valid_ea eas -> eas <> [] ->
  reply_data r = (EncodeExtendedAttributes eas).1 ->
  len (reply_data r) <= 1024 * 2 ^ Z.of_nat (length pre) ->
  GetFileEA (pre ++ r :: rest)
  = (doubling_queries (S (length pre)), Returned (Some (eas, None))).
Proof.
  intros Hins Hfit Hsent Herr Hvalid Hne Hdata Hlen.
  rewrite (GetFileEA_after_retries pre r rest Hins Hfit Hsent), Herr.
  rewrite fill_buffer_fits by (unfold len in Hlen; lia).
  rewrite Hdata. unfold EncodeExtendedAttributes.
  rewrite (encode_loop_chain eas (len eas) 0 [] Hvalid) by lia. simpl fst.
  unfold DecodeExtendedAttributes.
  now rewrite decode_loop_chain_tail by (assumption || lia).
Qed.

(** X7, at a concrete input: two retries, then a success reply that wrote
    two records into the buffer of 4096 bytes. *)
Lemma GetFileEA_returns_kernel_attributes_witness :
  GetFileEA [reply_insufficient; reply_more_data;
             mkReply 0 0 (EncodeExtendedAttributes [ea_user_foo; ea_flagged]).1;
             reply_insufficient]
  = ([mkQuery 1024 1024; mkQuery 2048 2048; mkQuery 4096 4096],
     Returned (Some ([ea_user_foo; ea_flagged], None))).
Proof.
  assert (Hins : Forall insufficient_reply [reply_insufficient; reply_more_data]).
  { repeat (apply Forall_cons_2;
            [repeat split; vm_compute; (discriminate || (left; reflexivity)
                                         || (right; reflexivity))|]).
    apply Forall_nil_2. }
  assert (Hvalid : Forall valid_ea [ea_user_foo; ea_flagged])
    by Tactics.valid_list.
  assert (Hfit : 1024 * 2 ^ Z.of_nat 2 < 2 ^ 63) by reflexivity.
  assert (Hlen : len (EncodeExtendedAttributes [ea_user_foo; ea_flagged]).1
                 <= 1024 * 2 ^ Z.of_nat 2) by (vm_compute; discriminate).
  exact (GetFileEA_returns_kernel_attributes
           [reply_insufficient; reply_more_data] [reply_insufficient]
           (mkReply 0 0 (EncodeExtendedAttributes [ea_user_foo; ea_flagged]).1)
           [ea_user_foo; ea_flagged]
           Hins Hfit ltac:(discriminate) eq_refl Hvalid ltac:(discriminate)
           eq_refl Hlen).
Defined.

(** X8.  A failure status that translates to a DOS error other than
    insufficient-buffer and more-data ends [GetFileEA] at once: the error
    is returned wrapped, with no attributes, and the buffer is neither
    decoded nor grown.  A failure status whose DOS error code is zero is
    not an error for [status.Err] and the buffer is decoded. *)
Theorem GetFileEA_other_failure_returned
    (pre rest : list EaQueryReply) (r : EaQueryReply) :
  Forall insufficient_reply pre ->
  1024 * 2 ^ Z.of_nat (length pre) < 2 ^ 63 ->
  reply_status r <> noExtendedAttribsStatus ->
  reply_status r < 0 ->
  reply_doserr r <> ERROR_INSUFFICIENT_BUFFER ->
  reply_doserr r <> ERROR_MORE_DATA ->
  GetFileEA (pre ++ r :: rest)
  = (doubling_queries (S (length pre)),
     if reply_doserr r =? 0
     then Returned (DecodeExtendedAttributes
                      (fill_buffer
                         (replicate (Z.to_nat (1024 * 2 ^ Z.of_nat (length pre))) x00)
                         (reply_data r)))
     else Returned (Some ([], Some (Errorf1 "get file EA failed with: %w"
                                      (Errno (reply_doserr r)))))).
Proof.
  intros Hins Hfit Hsent Hneg Hbuf Hmore.
  rewrite (GetFileEA_after_retries pre r rest Hins Hfit Hsent).
  unfold ntStatus_Err.
  replace (reply_status r >=? 0) with false by (symmetry; lia).
  destruct (reply_doserr r =? 0) eqn:Hzero; [reflexivity|].
  cbn [is_errno].
  replace (reply_doserr r =? ERROR_INSUFFICIENT_BUFFER) with false
    by (symmetry; now apply Z.eqb_neq).
  replace (reply_doserr r =? ERROR_MORE_DATA) with false
    by (symmetry; now apply Z.eqb_neq).
  reflexivity.
Qed.

(** X8, at a concrete input: access denied after one retry. *)
Lemma GetFileEA_other_failure_returned_witness :
  GetFileEA [reply_more_data; mkReply (-1073741790) 5 []; reply_insufficient]
  = ([mkQuery 1024 1024; mkQuery 2048 2048],
     Returned (Some ([], Some (Errorf1 "get file EA failed with: %w" (Errno 5))))).
Proof.
  assert (Hins : Forall insufficient_reply [reply_more_data]).
  { apply Forall_cons_2; [|apply Forall_nil_2].
    repeat split; vm_compute; (discriminate || (right; reflexivity)). }
  exact (GetFileEA_other_failure_returned [reply_more_data] [reply_insufficient]
           (mkReply (-1073741790) 5 []) Hins eq_refl
           ltac:(discriminate) eq_refl ltac:(discriminate) ltac:(discriminate)).
Defined.

End QueryOutcome.

(** ** The restore handlers of [node_windows.go] *)

Section RestoreHandlers.
Import GoBytes GoErrors Runtime Node FileWindows NodeWindows Tactics.
Context {W : Type} `{API : WindowsAPI W}.

(** X9.  [fixEncryptionAttribute] never panics, writes nothing to the logs
    and makes at most four system calls, in one of seven shapes.  When the
    encrypted bit is wanted: the encrypt primitive, then at most one
    [ClearSystem] and one more encrypt call, and neither the current
    attributes are read nor anything is decrypted.  When it is not wanted:
    the attributes are read, then at most one decrypt call, one
    [ClearSystem] and one more decrypt call, and nothing is encrypted. *)
Theorem fixEncryptionAttribute_call_shapes
    (path pathPointer : string) (attrs : Z) (s : Proc W) :
  let out := fixEncryptionAttribute path attrs pathPointer s in
  (exists r, out.1 = Ret r) /\
  unknownTypes out.2 = unknownTypes s /\
  stderr out.2 = stderr s /\
  debugLog out.2 = debugLog s /\
  exists tr,
    calls out.2 = calls s ++ tr /\
    if Z.land attrs FILE_ATTRIBUTE_ENCRYPTED =? 0 then
      tr = [CallGetFileAttributes pathPointer] \/
      tr = [CallGetFileAttributes pathPointer; CallDecryptFile pathPointer] \/
      tr = [CallGetFileAttributes pathPointer; CallDecryptFile pathPointer;
            CallClearSystem path] \/
      tr = [CallGetFileAttributes pathPointer; CallDecryptFile pathPointer;
            CallClearSystem path; CallDecryptFile pathPointer]
    else
      tr = [CallEncryptFile pathPointer] \/
      tr = [CallEncryptFile pathPointer; CallClearSystem path] \/
      tr = [CallEncryptFile pathPointer; CallClearSystem path;
            CallEncryptFile pathPointer].
Proof.
  intros out. subst out. unfold fixEncryptionAttribute.
  destruct (Z.land attrs FILE_ATTRIBUTE_ENCRYPTED =? 0); simpl negb; cbv iota;
    step_os; rewrite <- ?app_assoc; simpl;
    (split; [eexists; reflexivity|]); (do 3 (split; [reflexivity|]));
    eexists; (split; [reflexivity|]); tauto.
Qed.

Lemma fixEncryptionAttribute_returns
    (path pathPointer : string) (attrs : Z) (s : Proc W) :
  exists r s',
    fixEncryptionAttribute path attrs pathPointer s = (Ret r, s') /\
    exists tr, calls s' = calls s ++ tr /\
      Forall (fun c => forall p a, c <> CallSetFileAttributes p a) tr.
Proof.
  unfold fixEncryptionAttribute.
  destruct (Z.land attrs FILE_ATTRIBUTE_ENCRYPTED =? 0); simpl negb; cbv iota;
    step_os; rewrite <- ?app_assoc; simpl;
    eexists _, _; (split; [reflexivity|]);
    eexists; (split; [reflexivity|]); repeat constructor; discriminate.
Qed.

(** X10.  [handleFileAttributes] reads the attribute value before it looks
    at the path: a value shorter than four bytes panics, also for a path
    that cannot be converted, and no system call is made.  With a value of
    at least four bytes, a path that holds a NUL byte is refused with
    EINVAL, again without a system call.  The earlier adapter does the
    same. *)
Theorem handleFileAttributes_rejects_before_calls
    (path : string) (data : list byte) (s : Proc W) :
  ((length data < 4)%nat ->
   handleFileAttributes path data s = (Panic, s) /\
   NodeWindowsEarlier.handleFileAttributes path data s = (Panic, s)) /\
  ((4 <= length data)%nat ->
   strings_Contains path (String Ascii.zero EmptyString) = true ->
   handleFileAttributes path data s = (Ret (Some (Errno EINVAL)), s) /\
   NodeWindowsEarlier.handleFileAttributes path data s
   = (Ret (Some (Errno EINVAL)), s)).
Proof.
  split.
  - intros Hshort.
    assert (Hnone : Uint32 data = None).
    { destruct data as [|b0 [|b1 [|b2 [|b3 rest]]]]; try reflexivity.
      simpl in Hshort. lia. }
    unfold handleFileAttributes, NodeWindowsEarlier.handleFileAttributes.
    now rewrite Hnone.
  - intros Hlong Hnul.
    destruct data as [|b0 [|b1 [|b2 [|b3 rest]]]]; simpl in Hlong; try lia.
    unfold handleFileAttributes, NodeWindowsEarlier.handleFileAttributes,
      UTF16PtrFromString.
    cbn [Uint32]. now rewrite Hnul.
Qed.

Lemma no_nul_pointer (path : string) :
  strings_Contains path (String Ascii.zero EmptyString) = false ->
  UTF16PtrFromString path = inl path.
Proof. intros Hnul. unfold UTF16PtrFromString. now rewrite Hnul. Qed.

(** X11.  What [getFileAttributes] captures is what the restore sets: for
    attribute bits [v] of a [uint32], restoring the attribute made by
    [getFileAttributes v] ends with the call [SetFileAttributes(path, v)],
    the only such call, and returns the result of that call; what the
    encryption fix-up did before changes neither. *)
Theorem file_attributes_round_trip (v : Z) (path : string) (s : Proc W) :
  0 <= v < 2 ^ 32 ->
  strings_Contains path (String Ascii.zero EmptyString) = false ->
  exists (s1 : Proc W) (tr : list Call),
    restoreGenericAttribute (getFileAttributes v) path s
    = os_call (CallSetFileAttributes path v) (SetFileAttributes path v) s1 /\
    world s1 = world (fixEncryptionAttribute path v path s).2 /\
    calls s1 = calls s ++ tr /\
    Forall (fun c => forall p a, c <> CallSetFileAttributes p a) tr.
Proof.
  intros Hv Hnul.
  destruct (fixEncryptionAttribute_returns path path v s)
    as (r & s' & Hfix & tr & Hcalls & Htr).
  unfold restoreGenericAttribute, getFileAttributes, NewGenericAttribute,
    UInt32ToBytes.
  cbn [Name Value]. rewrite String.eqb_refl.
  unfold handleFileAttributes.
  rewrite <- (app_nil_r (PutUint32 v)), (Uint32_PutUint32 v [] Hv).
  rewrite (no_nul_pointer path Hnul). unfold bind at 1. rewrite Hfix.
  destruct r as [e|].
  - exists (logged_failure path e s'), tr. now repeat split.
  - exists s', tr. now repeat split.
Qed.

Lemma Uint32_take_4 (l : list byte) : Uint32 (take 4 l) = Uint32 l.
Proof. now destruct l as [|b0 [|b1 [|b2 [|b3 rest]]]]. Qed.

Lemma Uint32_app (l more : list byte) :
  (4 <= length l)%nat -> Uint32 (l ++ more) = Uint32 l.
Proof.
  intros Hlen. destruct l as [|b0 [|b1 [|b2 [|b3 rest]]]]; simpl in Hlen; try lia.
  reflexivity.
Qed.

Lemma Uint32_long (l : list byte) :
  (4 <= length l)%nat -> exists v, Uint32 l = Some v.
Proof.
  intros Hlen. destruct l as [|b0 [|b1 [|b2 [|b3 rest]]]]; simpl in Hlen; try lia.
  now eexists.
Qed.

(** Within the capacity, [word_at] reads four bytes of the backing array;
    past it, the slice expression panics. *)
Lemma word_at_within (data beyond : list byte) (i : nat) :
  (i + 4 <= length data + length beyond)%nat ->
  word_at data beyond (Z.of_nat i) = Uint32 (drop i (data ++ beyond)).
Proof.
  intros Hcap. unfold word_at, slice_within_cap, len.
  replace ((0 <=? Z.of_nat i) && (Z.of_nat i <=? Z.of_nat i + 4)
           && (Z.of_nat i + 4 <=? Z.of_nat (length data) + Z.of_nat (length beyond)))
    with true by (symmetry; rewrite !andb_true_iff, !Z.leb_le; lia).
  unfold slice.
  replace (Z.to_nat (Z.of_nat i + 4 - Z.of_nat i)) with 4%nat by lia.
  rewrite Nat2Z.id. apply Uint32_take_4.
Qed.

Lemma word_at_beyond_cap (data beyond : list byte) (i : nat) :
  (length data + length beyond < i + 4)%nat ->
  word_at data beyond (Z.of_nat i) = None.
Proof.
  intros Hcap. unfold word_at, slice_within_cap, len.
  replace (Z.of_nat i + 4 <=? Z.of_nat (length data) + Z.of_nat (length beyond))
    with false by (symmetry; apply Z.leb_gt; lia).
  now rewrite andb_false_r.
Qed.

Lemma handleCreationTime_run
    (path : string) (data beyond : list byte) (s : Proc W) (handle low high : Z)
    (w1 : W) :
  strings_Contains path (String Ascii.zero EmptyString) = false ->
  CreateFile path (world s) = (inl handle, w1) ->
  word_at data beyond 0 = Some low ->
  word_at data beyond 4 = Some high ->
  exists s',
    handleCreationTime path data beyond s
    = (Ret (SetFileTime handle low high w1).1, s') /\
    world s' = (CloseHandle handle (SetFileTime handle low high w1).2).2 /\
    calls s' = calls s ++ [CallCreateFile path; CallSetFileTime handle low high;
                           CallCloseHandle handle] /\
    unknownTypes s' = unknownTypes s /\ stderr s' = stderr s.
Proof.
  intros Hnul Hcreate Hlow Hhigh.
  unfold handleCreationTime. rewrite (no_nul_pointer path Hnul).
  unfold bind at 1. unfold os_call at 1. rewrite Hcreate. cbv beta iota.
  rewrite Hlow, Hhigh.
  unfold close_handle, bind, os_call, ret, debug_Log. simpl.
  destruct (SetFileTime handle low high w1) as [e1 w2]. simpl.
  destruct (CloseHandle handle w2) as [[e2|] w3]; simpl;
    rewrite <- ?app_assoc; eexists; repeat split; reflexivity.
Qed.

Lemma handleCreationTime_panics
    (path : string) (data beyond : list byte) (s : Proc W) (handle : Z) (w1 : W) :
  strings_Contains path (String Ascii.zero EmptyString) = false ->
  CreateFile path (world s) = (inl handle, w1) ->
  word_at data beyond 0 = None \/ word_at data beyond 4 = None ->
  exists s',
    handleCreationTime path data beyond s = (Panic, s') /\
    world s' = (CloseHandle handle w1).2 /\
    calls s' = calls s ++ [CallCreateFile path; CallCloseHandle handle].
Proof.
  intros Hnul Hcreate Hnone.
  unfold handleCreationTime. rewrite (no_nul_pointer path Hnul).
  unfold bind at 1. unfold os_call at 1. rewrite Hcreate. cbv beta iota.
  assert (Hgo : (close_handle path handle ;;; panic)%go
                  (mkProc w1 (unknownTypes s) (stderr s) (debugLog s)
                          (calls s ++ [CallCreateFile path]))
                = (Panic (A := option error),
                   ((close_handle path handle ;;; panic (A := option error))%go
                      (mkProc w1 (unknownTypes s) (stderr s) (debugLog s)
                              (calls s ++ [CallCreateFile path]))).2)).
  { unfold close_handle, bind, os_call, ret, debug_Log, panic. simpl.
    now destruct (CloseHandle handle w1) as [[e2|] w3]. }
  assert (Hstate :
    world ((close_handle path handle ;;; panic (A := option error))%go
             (mkProc w1 (unknownTypes s) (stderr s) (debugLog s)
                     (calls s ++ [CallCreateFile path]))).2
    = (CloseHandle handle w1).2 /\
    calls ((close_handle path handle ;;; panic (A := option error))%go
             (mkProc w1 (unknownTypes s) (stderr s) (debugLog s)
                     (calls s ++ [CallCreateFile path]))).2
    = calls s ++ [CallCreateFile path; CallCloseHandle handle]).
  { unfold close_handle, bind, os_call, ret, debug_Log, panic. simpl.
    destruct (CloseHandle handle w1) as [[e2|] w3]; simpl;
      rewrite <- ?app_assoc; split; reflexivity. }
  destruct Hstate as [Hw Hc].
  destruct (word_at data beyond 0) as [low|];
    [destruct (word_at data beyond 4) as [high|];
     [destruct Hnone; discriminate|]|];
    eexists; (split; [exact Hgo|]); split; assumption.
Qed.

(** X12.  [handleCreationTime] closes the handle it opened, once, as its
    last system call, whether it returns or panics, and a failure to close
    goes to the debug log only.  When [CreateFile] fails its error is
    returned and nothing else is called.  With a value of at least eight
    bytes the call made between opening and closing is [SetFileTime] with
    the two little-endian words of the value, and its result is what is
    returned.  A shorter value is read up to its capacity: when the
    capacity is at least eight, the words come from the first eight bytes
    of the backing array; when it is less, the handler panics after the
    handle has been closed, without a call to [SetFileTime]. *)
Theorem handleCreationTime_closes_handle
    (path : string) (data beyond : list byte) (s : Proc W) :
  strings_Contains path (String Ascii.zero EmptyString) = false ->
  (forall e w1,
     CreateFile path (world s) = (inr e, w1) ->
     handleCreationTime path data beyond s
     = (Ret (Some e),
        mkProc w1 (unknownTypes s) (stderr s) (debugLog s)
               (calls s ++ [CallCreateFile path]))) /\
  (forall handle w1,
     CreateFile path (world s) = (inl handle, w1) ->
     (exists tr,
        calls (handleCreationTime path data beyond s).2
        = calls s ++ [CallCreateFile path] ++ tr ++ [CallCloseHandle handle] /\
        (tr = [] \/ exists low high, tr = [CallSetFileTime handle low high])) /\
     ((8 <= length data)%nat ->
      exists low high,
        Uint32 data = Some low /\ Uint32 (drop 4 data) = Some high /\
        (handleCreationTime path data beyond s).1
        = Ret (SetFileTime handle low high w1).1 /\
        world (handleCreationTime path data beyond s).2
        = (CloseHandle handle (SetFileTime handle low high w1).2).2 /\
        calls (handleCreationTime path data beyond s).2
        = calls s ++ [CallCreateFile path; CallSetFileTime handle low high;
                      CallCloseHandle handle]) /\
     ((8 <= length data + length beyond)%nat ->
      exists low high,
        Uint32 (data ++ beyond) = Some low /\
        Uint32 (drop 4 (data ++ beyond)) = Some high /\
        (handleCreationTime path data beyond s).1
        = Ret (SetFileTime handle low high w1).1 /\
        world (handleCreationTime path data beyond s).2
        = (CloseHandle handle (SetFileTime handle low high w1).2).2 /\
        calls (handleCreationTime path data beyond s).2
        = calls s ++ [CallCreateFile path; CallSetFileTime handle low high;
                      CallCloseHandle handle]) /\
     ((length data + length beyond < 8)%nat ->
      (handleCreationTime path data beyond s).1 = Panic /\
      world (handleCreationTime path data beyond s).2 = (CloseHandle handle w1).2 /\
      calls (handleCreationTime path data beyond s).2
      = calls s ++ [CallCreateFile path; CallCloseHandle handle])).
Proof.
  intros Hnul. split.
  - intros e w1 Hcreate. unfold handleCreationTime.
    rewrite (no_nul_pointer path Hnul). unfold bind, os_call, ret.
    now rewrite Hcreate.
  - intros handle w1 Hcreate.
    assert (Hcap : (8 <= length data + length beyond)%nat ->
      exists low high,
        Uint32 (data ++ beyond) = Some low /\
        Uint32 (drop 4 (data ++ beyond)) = Some high /\
        exists s',
          handleCreationTime path data beyond s
          = (Ret (SetFileTime handle low high w1).1, s') /\
          world s' = (CloseHandle handle (SetFileTime handle low high w1).2).2 /\
          calls s' = calls s ++ [CallCreateFile path;
                                 CallSetFileTime handle low high;
                                 CallCloseHandle handle]).
    { intros Hlong.
      destruct (Uint32_long (data ++ beyond)) as [low Hlow];
        [rewrite length_app; lia|].
      destruct (Uint32_long (drop 4 (data ++ beyond))) as [high Hhigh];
        [rewrite length_drop, length_app; lia|].
      exists low, high. split; [exact Hlow|]. split; [exact Hhigh|].
      assert (Hl : word_at data beyond 0 = Some low)
        by (rewrite <- Hlow; apply (word_at_within data beyond 0); lia).
      assert (Hh : word_at data beyond 4 = Some high)
        by (rewrite <- Hhigh; apply (word_at_within data beyond 4); lia).
      destruct (handleCreationTime_run path data beyond s handle low high w1
                  Hnul Hcreate Hl Hh) as (s' & Hrun & Hw & Hcalls & _).
      now exists s'. }
    assert (Hshort : (length data + length beyond < 8)%nat ->
      exists s',
        handleCreationTime path data beyond s = (Panic, s') /\
        world s' = (CloseHandle handle w1).2 /\
        calls s' = calls s ++ [CallCreateFile path; CallCloseHandle handle]).
    { intros Hlt.
      apply (handleCreationTime_panics path data beyond s handle w1 Hnul Hcreate).
      right. apply (word_at_beyond_cap data beyond 4). lia. }
    split; [|split; [|split]].
    + destruct (Nat.le_gt_cases 8 (length data + length beyond)) as [Hlong|Hlt].
      * destruct (Hcap Hlong) as (low & high & _ & _ & s' & -> & _ & Hcalls).
        exists [CallSetFileTime handle low high]. split; [exact Hcalls|].
        right. now exists low, high.
      * destruct (Hshort Hlt) as (s' & -> & _ & Hcalls).
        exists []. split; [exact Hcalls|now left].
    + intros Hlong.
      destruct (Hcap ltac:(lia)) as (low & high & Hlow & Hhigh & s' & -> & Hw & Hcalls).
      exists low, high.
      rewrite Uint32_app in Hlow by lia.
      rewrite drop_app_le, Uint32_app in Hhigh by (rewrite ?length_drop; lia).
      now repeat split.
    + intros Hlong.
      destruct (Hcap Hlong) as (low & high & Hlow & Hhigh & s' & -> & Hw & Hcalls).
      exists low, high. now repeat split.
    + intros Hlt. destruct (Hshort Hlt) as (s' & -> & Hw & Hcalls).
      now repeat split.
Qed.

(** X13.  What [GetCreationTime] captures is what the restore sets: for a
    file info that carries the Windows attribute data, restoring the
    attribute captured opens the path, calls [SetFileTime] with the low and
    the high word of the creation time captured, closes the handle and
    returns the result of [SetFileTime]. *)
Theorem creation_time_round_trip
    (fi : FileInfo) (attrib : Win32FileAttributeData) (path0 path : string)
    (s0 s : Proc W) (handle : Z) (w1 : W) :
  Sys fi = Some attrib ->
  0 <= CreationTimeLow attrib < 2 ^ 32 ->
  0 <= CreationTimeHigh attrib < 2 ^ 32 ->
  TypeCreationTime <> TypeFileAttribute ->
  strings_Contains path (String Ascii.zero EmptyString) = false ->
  CreateFile path (world s) = (inl handle, w1) ->
  exists ct s',
    (GetCreationTime fi path0 s0).1 = Ret ct /\
    restoreGenericAttribute ct path s
    = (Ret (SetFileTime handle (CreationTimeLow attrib) (CreationTimeHigh attrib)
              w1).1, s') /\
    calls s'
    = calls s ++ [CallCreateFile path;
                  CallSetFileTime handle (CreationTimeLow attrib)
                    (CreationTimeHigh attrib);
                  CallCloseHandle handle].
Proof.
  intros Hsys Hlow Hhigh Htag Hnul Hcreate.
  set (low := CreationTimeLow attrib) in *.
  set (high := CreationTimeHigh attrib) in *.
  set (data := PutUint32 low ++ PutUint32 high).
  assert (Hl : word_at data [] 0 = Some low).
  { transitivity (Uint32 (drop 0 (data ++ [])));
      [apply (word_at_within data [] 0); simpl; lia|].
    unfold data. rewrite app_nil_r. cbn [drop]. now apply Uint32_PutUint32. }
  assert (Hh : word_at data [] 4 = Some high).
  { transitivity (Uint32 (drop 4 (data ++ [])));
      [apply (word_at_within data [] 4); simpl; lia|].
    unfold data. rewrite app_nil_r.
    change (Uint32 (PutUint32 high) = Some high).
    rewrite <- (app_nil_r (PutUint32 high)). now apply Uint32_PutUint32. }
  destruct (handleCreationTime_run path data [] s handle low high w1
              Hnul Hcreate Hl Hh) as (s' & Hrun & _ & Hcalls & _).
  exists (NewGenericAttribute TypeCreationTime data), s'. split; [|split].
  - unfold GetCreationTime. now rewrite Hsys.
  - unfold restoreGenericAttribute, NewGenericAttribute. cbn [Name Value].
    rewrite (proj2 (String.eqb_neq _ _) Htag), String.eqb_refl. exact Hrun.
  - exact Hcalls.
Qed.

(** X14.  What [getSecurityDescriptor] captures is what the restore sets:
    a descriptor that was read and is not empty becomes an attribute whose
    restore is the single call [SetFileSecurityDescriptor] with the same
    descriptor, the result of which is returned.  The path is handed over
    as it is, without conversion. *)
Theorem security_descriptor_round_trip
    (path0 path sd : string) (s0 s : Proc W) (w0 : W) :
  GetFileSecurityDescriptor path0 (world s0) = (inl sd, w0) ->
  sd <> EmptyString ->
  TypeSecurityDescriptor <> TypeFileAttribute ->
  TypeSecurityDescriptor <> TypeCreationTime ->
  exists a s0',
    getSecurityDescriptor path0 s0 = (Ret (a, None), s0') /\
    restoreGenericAttribute a path s
    = os_call (CallSetSecurityDescriptor path sd)
              (SetFileSecurityDescriptor path sd) s.
Proof.
  intros Hget Hsd Hfa Hct.
  exists (NewGenericAttribute TypeSecurityDescriptor (bytes_of_string sd)).
  eexists. split.
  - unfold getSecurityDescriptor, bind, os_call. rewrite Hget.
    now rewrite (proj2 (String.eqb_neq _ _) Hsd).
  - unfold restoreGenericAttribute, NewGenericAttribute. cbn [Name Value].
    rewrite (proj2 (String.eqb_neq _ _) Hfa), (proj2 (String.eqb_neq _ _) Hct),
      String.eqb_refl.
    unfold handleSecurityDescriptor, string_of_bytes, bytes_of_string.
    now rewrite String.string_of_list_byte_of_string.
Qed.

End RestoreHandlers.

(** ** More on the capture of generic attributes *)

Section FillFrame.
Import GoBytes GoErrors Runtime Node NodeWindows.
Context {W : Type} `{API : WindowsAPI W}.

Lemma appendGenericAttribute_frame (node : Node) (attr : Attribute) :
  exists added,
    GenericAttributes (appendGenericAttribute node attr)
    = GenericAttributes node ++ added /\
    (length added <= 1)%nat /\
    ExtendedAttributes (appendGenericAttribute node attr) = ExtendedAttributes node /\
    NodeType (appendGenericAttribute node attr) = NodeType node.
Proof.
  unfold appendGenericAttribute.
  destruct (String.eqb (Name attr) ""); simpl.
  - exists []. rewrite app_nil_r. repeat split; simpl; lia.
  - exists [attr]. repeat split; simpl; lia.
Qed.

(** X15.  [fillGenericAttributes] only adds to the node: it never panics,
    returns a nil error, keeps the generic attributes the node had and puts
    at most three after them, and leaves the node type and the extended
    attributes alone.  It writes nothing to standard error, and the only
    system call it can make is one [GetFileSecurityDescriptor] on the
    path. *)
Theorem fillGenericAttributes_only_appends (node : Node) (path : string)
    (fi : FileInfo) (stat : Win32FileAttributeData) (s : Proc W) :
  exists node' allow s' added,
    fillGenericAttributes node path fi stat s = (Ret (node', (allow, None)), s') /\
    GenericAttributes node' = GenericAttributes node ++ added /\
    (length added <= 3)%nat /\
    ExtendedAttributes node' = ExtendedAttributes node /\
    NodeType node' = NodeType node /\
    stderr s' = stderr s /\
    unknownTypes s' = unknownTypes s /\
    (calls s' = calls s \/ calls s' = calls s ++ [CallGetSecurityDescriptor path]).
Proof.
  unfold fillGenericAttributes.
  destruct (strings_Contains (filepath_Base path) ":").
  { exists node, false, s, []. rewrite app_nil_r. repeat split; simpl; auto. }
  assert (Hfirst : exists node1 s1 added1,
    (if negb (strings_HasSuffix (filepath_Clean path) "\")
     then (ct <- GetCreationTime fi path ;;
           ret (appendGenericAttribute
                  (appendGenericAttribute node (getFileAttributes (FileAttributes stat)))
                  ct))%go
     else ret node) s = (Ret node1, s1) /\
    GenericAttributes node1 = GenericAttributes node ++ added1 /\
    (length added1 <= 2)%nat /\
    ExtendedAttributes node1 = ExtendedAttributes node /\
    NodeType node1 = NodeType node /\
    stderr s1 = stderr s /\ unknownTypes s1 = unknownTypes s /\
    calls s1 = calls s /\ world s1 = world s).
  { destruct (strings_HasSuffix (filepath_Clean path) "\"); simpl.
    - exists node, s, []. rewrite app_nil_r. repeat split; simpl; lia.
    - destruct (appendGenericAttribute_frame node
                  (getFileAttributes (FileAttributes stat)))
        as (a1 & Hg1 & Hl1 & He1 & Ht1).
      unfold bind, GetCreationTime, debug_Log, ret.
      destruct (Sys fi) as [attrib|]; simpl;
        match goal with
        | |- context [appendGenericAttribute ?n ?a] =>
            destruct (appendGenericAttribute_frame n a)
              as (a2 & Hg2 & Hl2 & He2 & Ht2)
        end;
        eexists _, _, (a1 ++ a2); (split; [reflexivity|]);
        rewrite Hg2, Hg1, He2, He1, Ht2, Ht1, length_app, <- app_assoc;
        repeat split; simpl; lia. }
  destruct Hfirst as (node1 & s1 & added1 & Hrun1 & Hg1 & Hl1 & He1 & Ht1
                      & Hse1 & Hu1 & Hc1 & Hw1).
  unfold bind at 1. rewrite Hrun1. unfold bind at 1.
  destruct (String.eqb (NodeType node1) "file" || String.eqb (NodeType node1) "dir").
  - unfold getSecurityDescriptor, bind, os_call, debug_Log, ret.
    destruct (GetFileSecurityDescriptor path (world s1)) as [[sd|e] w2]; simpl.
    + destruct (String.eqb sd ""); simpl;
        match goal with
        | |- context [appendGenericAttribute ?n ?a] =>
            destruct (appendGenericAttribute_frame n a)
              as (a2 & Hg2 & Hl2 & He2 & Ht2)
        end;
        eexists _, true, _, (added1 ++ a2); (split; [reflexivity|]);
        rewrite Hg2, Hg1, He2, He1, Ht2, Ht1, length_app, <- app_assoc; simpl;
        rewrite Hse1, Hu1, Hc1; repeat split; (lia || auto).
    + eexists node1, true, _, added1. split; [reflexivity|]. simpl.
      rewrite Hse1, Hu1, Hc1. repeat split; (lia || auto).
  - simpl. exists node1, true, s1, added1. split; [reflexivity|].
    rewrite Hc1. repeat split; (lia || auto).
Qed.

(** X16.  A full capture: for a file or directory that is neither an
    alternate data stream nor a drive root, whose file info carries the
    Windows attribute data and whose security descriptor can be read and
    is not empty, [fillGenericAttributes] appends three attributes in this
    order: the file attributes of the stat view, the creation time of the
    file info, the security descriptor.  The one system call made is
    [GetFileSecurityDescriptor]. *)
Theorem fillGenericAttributes_full_capture (node : Node) (path : string)
    (fi : FileInfo) (stat attrib : Win32FileAttributeData) (s : Proc W)
    (sd : string) (w1 : W) :
  strings_Contains (filepath_Base path) ":" = false ->
  strings_HasSuffix (filepath_Clean path) "\" = false ->
  String.eqb (NodeType node) "file" || String.eqb (NodeType node) "dir" = true ->
  Sys fi = Some attrib ->
  GetFileSecurityDescriptor path (world s) = (inl sd, w1) ->
  sd <> EmptyString ->
  TypeFileAttribute <> EmptyString ->
  TypeCreationTime <> EmptyString ->
  TypeSecurityDescriptor <> EmptyString ->
  fillGenericAttributes node path fi stat s
  = (Ret (set_GenericAttributes node
            (GenericAttributes node
             ++ [mkAttribute TypeFileAttribute (PutUint32 (FileAttributes stat));
                 mkAttribute TypeCreationTime
                   (PutUint32 (CreationTimeLow attrib)
                    ++ PutUint32 (CreationTimeHigh attrib));
                 mkAttribute TypeSecurityDescriptor (bytes_of_string sd)]),
          (true, None)),
     mkProc w1 (unknownTypes s) (stderr s) (debugLog s)
            (calls s ++ [CallGetSecurityDescriptor path])).
Proof.
  intros Hads Hroot Htype Hsys Hget Hsd Hfa Hct Hsdt.
  unfold fillGenericAttributes. rewrite Hads, Hroot. simpl negb. cbv iota.
  unfold bind at 1. unfold bind at 1. unfold GetCreationTime. rewrite Hsys.
  unfold ret at 1. cbv beta iota.
  unfold appendGenericAttribute, getFileAttributes, NewGenericAttribute,
    UInt32ToBytes. cbn [Name].
  rewrite (proj2 (String.eqb_neq _ _) Hfa), (proj2 (String.eqb_neq _ _) Hct).
  simpl negb. cbv iota. unfold ret at 1. cbv beta iota.
  unfold bind at 1. cbn [NodeType set_GenericAttributes]. rewrite Htype.
  unfold getSecurityDescriptor, bind, os_call. rewrite Hget.
  rewrite (proj2 (String.eqb_neq _ _) Hsd). cbn [negb]. cbv iota beta.
  unfold ret, appendGenericAttribute, NewGenericAttribute. cbv iota beta.
  cbn [Name]. rewrite (proj2 (String.eqb_neq _ _) Hsdt).
  cbn [negb]. cbv iota. unfold set_GenericAttributes.
  cbn [NodeType ExtendedAttributes GenericAttributes].
  now rewrite <- !app_assoc.
Qed.

End FillFrame.

(** ** The earlier Windows adapter *)

Section EarlierAdapter.
Import GoBytes GoErrors Runtime Node.
Context {W : Type} `{API : WindowsAPI W}.

Lemma earlier_restore_loop_app (path : string) (l1 l2 : list Attribute) :
  forall (err : option error) (s : Proc W),
    NodeWindowsEarlier.restore_loop path (l1 ++ l2) err s
    = (r <- NodeWindowsEarlier.restore_loop path l1 err ;;
       NodeWindowsEarlier.restore_loop path l2 r)%go s.
Proof.
  induction l1 as [|a l1 IH]; intros err s; [reflexivity|].
  cbn [app NodeWindowsEarlier.restore_loop]. unfold bind in *.
  destruct (NodeWindowsEarlier.restoreGenericAttribute a path s) as [[[e|]|] s1];
    [| |reflexivity].
  - unfold debug_Log. cbv beta iota. apply IH.
  - apply IH.
Qed.

(** X17.  In the earlier adapter the error of [restoreGenericAttributes] is
    that of the last attribute that failed: when the last attribute of the
    node fails, its error is returned whatever happened to the attributes
    before it, and when it succeeds, what is returned is what the
    attributes before it left. *)
Theorem earlier_restore_returns_last_failure
    (node : Node) (attrs : list Attribute) (a : Attribute) (path : string)
    (s s1 : Proc W) (r : option error) :
  GenericAttributes node = attrs ++ [a] ->
  NodeWindowsEarlier.restore_loop path attrs None s = (Ret r, s1) ->
  (forall e s2,
     NodeWindowsEarlier.restoreGenericAttribute a path s1 = (Ret (Some e), s2) ->
     (NodeWindowsEarlier.restoreGenericAttributes node path s).1
     = Ret (Some (Errorf2 "Error restoring generic attribute for: %s : %v" path e))) /\
  (forall s2,
     NodeWindowsEarlier.restoreGenericAttribute a path s1 = (Ret None, s2) ->
     NodeWindowsEarlier.restoreGenericAttributes node path s = (Ret r, s2)).
Proof.
  intros Hattrs Hbefore.
  unfold NodeWindowsEarlier.restoreGenericAttributes.
  rewrite Hattrs, earlier_restore_loop_app.
  split; [intros e s2 Hlast|intros s2 Hlast];
    unfold bind at 1; rewrite Hbefore; cbn [NodeWindowsEarlier.restore_loop];
    unfold bind; cbv beta; now rewrite Hlast.
Qed.

End EarlierAdapter.

(** ** More on the xattr adapter *)

Section XattrLoops.
Import GoBytes GoErrors Runtime Node NodeXattr.
Context {W : Type} `{API : XattrAPI W}.

Lemma getxattr_run (path name : string) (s : Proc W) :
  getxattr path name s
  = (Ret (match (LGet path name (world s)).1 with
          | inl v => (v, None)
          | inr e => ([], handleXattrErr (Some e))
          end),
     after_call (CallLGet path name) (LGet path name (world s)).2 s).
Proof.
  unfold getxattr, bind, os_call, after_call.
  now destruct (LGet path name (world s)) as [[v|e] w].
Qed.

(** X18.  How [fillExtendedAttributes] treats the value of one listed
    name.  A value that is read is recorded under the name.  When the read
    fails with ENOTSUP or ENOATTR the name is recorded all the same, with
    an empty value.  When it fails otherwise the name is left out and one
    line is written to standard error; the capture goes on in every
    case. *)
Theorem fill_loop_value_errors (path name : string) (rest : list string)
    (node : Node) (s : Proc W) :
  (forall v w1,
     LGet path name (world s) = (inl v, w1) ->
     fill_loop path (name :: rest) node s
     = fill_loop path rest
         (set_ExtendedAttributes node (ExtendedAttributes node ++ [mkAttribute name v]))
         (after_call (CallLGet path name) w1 s)) /\
  (forall e w1,
     LGet path name (world s) = (inr e, w1) -> tolerated e = true ->
     fill_loop path (name :: rest) node s
     = fill_loop path rest
         (set_ExtendedAttributes node (ExtendedAttributes node ++ [mkAttribute name []]))
         (after_call (CallLGet path name) w1 s)) /\
  (forall e w1,
     LGet path name (world s) = (inr e, w1) -> tolerated e = false ->
     fill_loop path (name :: rest) node s
     = fill_loop path rest node
         (print_stderr
            (String.append "can not obtain extended attribute "
               (String.append name (String.append " for " path)))
            (after_call (CallLGet path name) w1 s)).2).
Proof.
  split; [|split].
  - intros v w1 Hget. cbn [fill_loop]. unfold bind at 1.
    rewrite getxattr_run, Hget. reflexivity.
  - intros e w1 Hget Htol. cbn [fill_loop]. unfold bind at 1.
    rewrite getxattr_run, Hget. cbn [fst snd].
    rewrite handleXattrErr_Some, Htol. reflexivity.
  - intros e w1 Hget Htol. cbn [fill_loop]. unfold bind at 1.
    rewrite getxattr_run, Hget. cbn [fst snd].
    rewrite handleXattrErr_Some, Htol. reflexivity.
Qed.

Lemma fill_loop_frame (path : string) (names : list string) :
  forall (node : Node) (s : Proc W),
    exists node' s' added,
      fill_loop path names node s = (Ret node', s') /\
      ExtendedAttributes node' = ExtendedAttributes node ++ added /\
      sublist (map Name added) names /\
      GenericAttributes node' = GenericAttributes node /\
      NodeType node' = NodeType node /\
      calls s' = calls s ++ map (CallLGet path) names /\
      (length (stderr s') + length added = length (stderr s) + length names)%nat.
Proof.
  induction names as [|name names IH]; intros node s.
  - exists node, s, []. rewrite !app_nil_r. repeat split; (constructor || lia).
  - cbn [fill_loop]. unfold bind at 1. rewrite getxattr_run.
    remember (after_call (CallLGet path name) (LGet path name (world s)).2 s)
      as s1 eqn:Hs1.
    assert (Hfacts : calls s1 = calls s ++ [CallLGet path name]
                     /\ stderr s1 = stderr s) by now subst s1.
    destruct Hfacts as [Hc1 He1]. clear Hs1.
    destruct (match (LGet path name (world s)).1 with
              | inl v => (v, None)
              | inr e => ([], handleXattrErr (Some e))
              end) as [attrVal [err|]].
    + unfold bind, print_stderr. cbv beta iota.
      match goal with
      | |- context [fill_loop path names node ?st] =>
          destruct (IH node st)
            as (node' & s' & added & Hrun & Hext & Hsub & Hgen & Hty & Hcalls & Hlen)
      end.
      exists node', s', added. split; [exact Hrun|]. split; [exact Hext|].
      split; [now apply sublist_cons|]. split; [exact Hgen|]. split; [exact Hty|].
      simpl in Hcalls, Hlen. rewrite Hcalls, Hc1, <- app_assoc.
      split; [reflexivity|]. rewrite He1, length_app in Hlen. simpl in *. lia.
    + match goal with
      | |- context [fill_loop path names ?nd s1] =>
          destruct (IH nd s1)
            as (node' & s' & added & Hrun & Hext & Hsub & Hgen & Hty & Hcalls & Hlen)
      end.
      exists node', s', (mkAttribute name attrVal :: added).
      split; [exact Hrun|]. simpl in Hext. rewrite <- app_assoc in Hext.
      split; [exact Hext|]. split; [now apply sublist_skip|].
      split; [exact Hgen|]. split; [exact Hty|].
      rewrite Hcalls, Hc1, <- app_assoc. split; [reflexivity|].
      rewrite He1 in Hlen. simpl. lia.
Qed.

(** X19.  When the names can be listed, [fillExtendedAttributes] returns a
    nil error whatever happens to the values.  It replaces the extended
    attributes the node had, reads every listed name once and in order, and
    records the names in the order listed; a name that is not recorded is
    reported by one line on standard error.  The generic attributes and the
    node type are left alone. *)
Theorem fillExtendedAttributes_lists_then_reads
    (node : Node) (path : string) (names : list string) (w1 : W) (s : Proc W) :
  LList path (world s) = (inl names, w1) ->
  exists node' s',
    fillExtendedAttributes node path s = (Ret (node', None), s') /\
    sublist (map Name (ExtendedAttributes node')) names /\
    GenericAttributes node' = GenericAttributes node /\
    NodeType node' = NodeType node /\
    calls s' = calls s ++ CallLList path :: map (CallLGet path) names /\
    (length (stderr s') + length (ExtendedAttributes node')
     = length (stderr s) + length names)%nat.
Proof.
  intros Hlist. unfold fillExtendedAttributes. unfold bind at 1.
  unfold listxattr, bind at 1, os_call. rewrite Hlist. cbn [handleXattrErr].
  unfold ret at 1. cbv beta iota. unfold bind at 1, debug_Log. cbv beta iota.
  cbn [world unknownTypes stderr debugLog calls]. unfold bind, ret.
  match goal with
  | |- context [fill_loop path names ?nd ?st] =>
      destruct (fill_loop_frame path names nd st)
        as (node' & s' & added & Hrun & Hext & Hsub & Hgen & Hty & Hcalls & Hlen)
  end.
  rewrite Hrun. exists node', s'. split; [reflexivity|].
  simpl in Hext, Hcalls, Hlen. rewrite Hext.
  split; [exact Hsub|]. split; [exact Hgen|]. split; [exact Hty|].
  rewrite Hcalls, <- app_assoc. split; [reflexivity|exact Hlen].
Qed.

Lemma setxattr_run (path name : string) (data : list byte) (s : Proc W) :
  setxattr path name data s
  = (Ret (handleXattrErr (LSet path name data (world s)).1),
     after_call (CallLSet path name data) (LSet path name data (world s)).2 s).
Proof.
  unfold setxattr, bind, os_call, ret, after_call.
  now destruct (LSet path name data (world s)) as [e w].
Qed.

Lemma xattr_restore_loop_app (path : string) (pre rest : list Attribute) :
  forall s : Proc W,
    restore_loop path (pre ++ rest) s
    = match restore_loop path pre s with
      | (Ret None, s1) => restore_loop path rest s1
      | other => other
      end.
Proof.
  induction pre as [|a pre IH]; intros s; [reflexivity|].
  cbn [app restore_loop]. unfold bind. rewrite setxattr_run.
  destruct (handleXattrErr (LSet path (Name a) (Value a) (world s)).1);
    [reflexivity|apply IH].
Qed.

(** X20.  [restoreExtendedAttributes] sets the attributes of the node in
    order and stops at the first one that fails with an error that is not
    tolerated.  The calls it makes are the set calls for a prefix of the
    attributes, it never panics and writes nothing to standard error, and
    when it returns nil every attribute has been handed to the system.
    When the attributes before one have all been set (or have failed in a
    tolerated way) and setting that one fails otherwise, the restore ends
    there: the error is returned wrapped, the call that failed is the last
    call made, and no attribute after it is handed to the system. *)
Theorem restoreExtendedAttributes_sets_prefix
    (node : Node) (path : string) (s : Proc W) :
  (exists (k : nat) (r : option error) (s' : Proc W),
     restoreExtendedAttributes node path s = (Ret r, s') /\
     (k <= length (ExtendedAttributes node))%nat /\
     calls s'
     = calls s ++ map (fun a => CallLSet path (Name a) (Value a))
                      (take k (ExtendedAttributes node)) /\
     stderr s' = stderr s /\
     (r = None -> k = length (ExtendedAttributes node)) /\
     ((k < length (ExtendedAttributes node))%nat ->
      exists e, r = Some (WithStack e))) /\
  (forall (pre : list Attribute) (a : Attribute) (post : list Attribute)
          (s1 : Proc W) (e : error) (w : W),
     ExtendedAttributes node = pre ++ a :: post ->
     restoreExtendedAttributes (set_ExtendedAttributes node pre) path s
     = (Ret None, s1) ->
     LSet path (Name a) (Value a) (world s1) = (Some e, w) ->
     tolerated e = false ->
     restoreExtendedAttributes node path s
     = (Ret (Some (WithStack e)),
        after_call (CallLSet path (Name a) (Value a)) w s1) /\
     calls (after_call (CallLSet path (Name a) (Value a)) w s1)
     = calls s ++ map (fun a => CallLSet path (Name a) (Value a)) (pre ++ [a])).
Proof.
  assert (Hprefix : forall (attrs : list Attribute) (s : Proc W),
    exists (k : nat) (r : option error) (s' : Proc W),
      restore_loop path attrs s = (Ret r, s') /\
      (k <= length attrs)%nat /\
      calls s' = calls s ++ map (fun a => CallLSet path (Name a) (Value a))
                                (take k attrs) /\
      stderr s' = stderr s /\
      (r = None -> k = length attrs) /\
      ((k < length attrs)%nat -> exists e, r = Some (WithStack e))).
  { clear node s. intros attrs.
    induction attrs as [|a attrs IH]; intros s.
    - exists 0%nat, None, s. simpl. rewrite app_nil_r.
      repeat split; (reflexivity || lia).
    - cbn [restore_loop]. unfold bind at 1. rewrite setxattr_run.
      remember (after_call (CallLSet path (Name a) (Value a))
                  (LSet path (Name a) (Value a) (world s)).2 s) as s1 eqn:Hs1.
      assert (Hfacts : calls s1 = calls s ++ [CallLSet path (Name a) (Value a)]
                       /\ stderr s1 = stderr s) by now subst s1.
      destruct Hfacts as [Hc1 He1]. clear Hs1.
      assert (Hgo : exists (k : nat) (r : option error) (s' : Proc W),
        restore_loop path attrs s1 = (Ret r, s') /\
        (k <= length (a :: attrs))%nat /\
        calls s' = calls s ++ map (fun a => CallLSet path (Name a) (Value a))
                                  (take k (a :: attrs)) /\
        stderr s' = stderr s /\
        (r = None -> k = length (a :: attrs)) /\
        ((k < length (a :: attrs))%nat -> exists e, r = Some (WithStack e))).
      { destruct (IH s1) as (k & r & s' & Hrun & Hk & Hcalls & Herr & Hnil & Hstop).
        exists (S k), r, s'. cbn [length take map]. split; [exact Hrun|].
        split; [lia|]. split; [rewrite Hcalls, Hc1; now rewrite <- app_assoc|].
        split; [congruence|]. split; [intros Hnone; now rewrite (Hnil Hnone)|].
        intros Hlt. apply Hstop. lia. }
      destruct (LSet path (Name a) (Value a) (world s)).1 as [e|].
      + rewrite handleXattrErr_Some. destruct (tolerated e); [exact Hgo|].
        exists 1%nat, (Some (WithStack e)), s1. cbn [length take map].
        rewrite take_0. split; [reflexivity|]. split; [lia|].
        split; [exact Hc1|]. split; [exact He1|]. split; [discriminate|].
        intros _. now exists e.
      + exact Hgo.
  }
  split; [apply Hprefix|].
  intros pre a post s1 e w Hattrs Hpre Hset Htol.
  unfold restoreExtendedAttributes in *.
  cbn [ExtendedAttributes set_ExtendedAttributes] in Hpre.
  rewrite Hattrs, xattr_restore_loop_app, Hpre.
  cbn [restore_loop]. unfold bind at 1.
  rewrite (setxattr_error path _ _ e w s1 Hset), handleXattrErr_Some, Htol.
  split; [reflexivity|].
  destruct (Hprefix pre s) as (k & r & s' & Hrun & _ & Hcalls & _ & Hnil & _).
  rewrite Hpre in Hrun. injection Hrun as <- <-.
  rewrite (Hnil eq_refl), firstn_all in Hcalls.
  unfold after_call. cbn [calls]. now rewrite Hcalls, map_app, app_assoc.
Qed.

End XattrLoops.

(** ** The further properties on simulated systems *)

Section WindowsRuns.
Import GoBytes GoErrors Runtime Node FileWindows NodeWindows SimWindows.

(** X10, at concrete inputs: three bytes panic although the path holds a
    NUL byte; four bytes and the same path give EINVAL; nothing is
    called. *)
Lemma handleFileAttributes_rejects_before_calls_witness :
  handleFileAttributes (String Ascii.zero "f") [x20; x00; x00]
    (initial plain_file)
  = (Panic, initial plain_file) /\
  handleFileAttributes (String Ascii.zero "f") [x20; x00; x00; x00]
    (initial plain_file)
  = (Ret (Some (Errno EINVAL)), initial plain_file).
Proof.
  pose proof (handleFileAttributes_rejects_before_calls
                (String Ascii.zero "f") [x20; x00; x00] (initial plain_file))
    as [Hshort _].
  pose proof (handleFileAttributes_rejects_before_calls
                (String Ascii.zero "f") [x20; x00; x00; x00] (initial plain_file))
    as [_ Hnul].
  split.
  - apply Hshort. simpl. lia.
  - apply Hnul; [simpl; lia|reflexivity].
Defined.

(** X11, at a concrete input: the archive bit on a plain file. *)
Lemma file_attributes_round_trip_witness :
  exists (s1 : Proc SimFile) (tr : list Call),
    restoreGenericAttribute (getFileAttributes 32) "f" (initial plain_file)
    = os_call (CallSetFileAttributes "f" 32) (SetFileAttributes "f" 32) s1 /\
    world s1 = world (fixEncryptionAttribute "f" 32 "f" (initial plain_file)).2 /\
    calls s1 = calls (initial plain_file) ++ tr /\
    Forall (fun c => forall p a, c <> CallSetFileAttributes p a) tr.
Proof.
  apply file_attributes_round_trip; [lia|reflexivity].
Defined.

(** X12, at concrete inputs: the handle the simulated system hands out is
    closed after the creation time has been set; a value of seven bytes
    whose backing array holds two more is read to its eighth byte; a value
    of seven bytes without spare capacity panics after the handle has been
    closed. *)
Lemma handleCreationTime_closes_handle_witness :
  (handleCreationTime "f" [x04; x03; x02; x01; x08; x07; x06; x05] []
     (initial plain_file)).1 = Ret None /\
  calls (handleCreationTime "f" [x04; x03; x02; x01; x08; x07; x06; x05] []
           (initial plain_file)).2
  = [CallCreateFile "f"; CallSetFileTime 3 16909060 84281096; CallCloseHandle 3] /\
  calls (handleCreationTime "f" [x04; x03; x02; x01; x08; x07; x06] [x05; x00]
           (initial plain_file)).2
  = [CallCreateFile "f"; CallSetFileTime 3 16909060 84281096; CallCloseHandle 3] /\
  (handleCreationTime "f" [x04; x03; x02; x01; x08; x07; x06] []
     (initial plain_file)).1 = Panic /\
  calls (handleCreationTime "f" [x04; x03; x02; x01; x08; x07; x06] []
           (initial plain_file)).2
  = [CallCreateFile "f"; CallCloseHandle 3].
Proof.
  assert (Hnul : strings_Contains "f" (String Ascii.zero EmptyString) = false)
    by reflexivity.
  assert (Hcreate : CreateFile "f" (world (initial plain_file)) = (inl 3, plain_file))
    by reflexivity.
  destruct (proj2 (handleCreationTime_closes_handle "f"
                     [x04; x03; x02; x01; x08; x07; x06; x05] []
                     (initial plain_file) Hnul) 3 plain_file Hcreate)
    as (_ & Hlong & _).
  destruct (Hlong ltac:(simpl; lia)) as (low & high & Hl & Hh & Hret & _ & Hcalls).
  assert (Hlow : low = 16909060) by (vm_compute in Hl; congruence).
  assert (Hhigh : high = 84281096) by (vm_compute in Hh; congruence).
  subst low high.
  destruct (proj2 (handleCreationTime_closes_handle "f"
                     [x04; x03; x02; x01; x08; x07; x06] [x05; x00]
                     (initial plain_file) Hnul) 3 plain_file Hcreate)
    as (_ & _ & Hcap & _).
  destruct (Hcap ltac:(simpl; lia)) as (low & high & Hl' & Hh' & _ & _ & Hcalls').
  assert (Hlow : low = 16909060) by (vm_compute in Hl'; congruence).
  assert (Hhigh : high = 84281096) by (vm_compute in Hh'; congruence).
  subst low high.
  destruct (proj2 (handleCreationTime_closes_handle "f"
                     [x04; x03; x02; x01; x08; x07; x06] []
                     (initial plain_file) Hnul) 3 plain_file Hcreate)
    as (_ & _ & _ & Hshort).
  destruct (Hshort ltac:(simpl; lia)) as (Hpanic & _ & Hcalls'').
  rewrite Hret, Hcalls, Hcalls', Hpanic, Hcalls''. repeat split; reflexivity.
Defined.

(** X13, at a concrete input: the creation time of the sample file info. *)
Lemma creation_time_round_trip_witness :
  exists ct s',
    (GetCreationTime sample_fi "f" (initial plain_file)).1 = Ret ct /\
    restoreGenericAttribute ct "g" (initial plain_file)
    = (Ret (SetFileTime 3 (CreationTimeLow sample_stat)
              (CreationTimeHigh sample_stat) plain_file).1, s') /\
    calls s'
    = calls (initial plain_file)
      ++ [CallCreateFile "g";
          CallSetFileTime 3 (CreationTimeLow sample_stat)
            (CreationTimeHigh sample_stat);
          CallCloseHandle 3].
Proof.
  apply (creation_time_round_trip sample_fi sample_stat "f" "g"
           (initial plain_file) (initial plain_file) 3 plain_file);
    (reflexivity || discriminate || (simpl; lia)).
Defined.

(** X14, at a concrete input. *)
Lemma security_descriptor_round_trip_witness :
  exists a s0',
    getSecurityDescriptor "f" (initial plain_file) = (Ret (a, None), s0') /\
    restoreGenericAttribute a "g" (initial encrypted_file)
    = os_call (CallSetSecurityDescriptor "g" "O:BAG:SYD:")
              (SetFileSecurityDescriptor "g" "O:BAG:SYD:") (initial encrypted_file).
Proof.
  apply (security_descriptor_round_trip "f" "g" "O:BAG:SYD:"
           (initial plain_file) (initial encrypted_file) plain_file);
    (reflexivity || discriminate).
Defined.

(** X16, at a concrete input: a plain file. *)
Lemma fillGenericAttributes_full_capture_witness :
  (fillGenericAttributes (mkNode "file" [] []) "f" sample_fi sample_stat
     (initial plain_file)).1
  = Ret (mkNode "file" []
           [mkAttribute "windows.file_attributes" [x20; x00; x00; x00];
            mkAttribute "windows.creation_time"
              [x04; x03; x02; x01; x08; x07; x06; x05];
            mkAttribute "windows.security_descriptor"
              (bytes_of_string "O:BAG:SYD:")],
         (true, None)) /\
  calls (fillGenericAttributes (mkNode "file" [] []) "f" sample_fi sample_stat
           (initial plain_file)).2
  = [CallGetSecurityDescriptor "f"].
Proof.
  assert (Hads : strings_Contains (filepath_Base "f") ":" = false) by reflexivity.
  assert (Hroot : strings_HasSuffix (filepath_Clean "f") "\" = false)
    by reflexivity.
  assert (Htype : String.eqb (NodeType (mkNode "file" [] [])) "file"
                  || String.eqb (NodeType (mkNode "file" [] [])) "dir" = true)
    by reflexivity.
  assert (Hsys : Sys sample_fi = Some sample_stat) by reflexivity.
  assert (Hget : GetFileSecurityDescriptor "f" (world (initial plain_file))
                 = (inl "O:BAG:SYD:", plain_file)) by reflexivity.
  rewrite (fillGenericAttributes_full_capture (mkNode "file" [] []) "f" sample_fi
             sample_stat sample_stat (initial plain_file) "O:BAG:SYD:" plain_file
             Hads Hroot Htype Hsys Hget
             ltac:(discriminate) ltac:(discriminate) ltac:(discriminate)
             ltac:(discriminate)).
  split; reflexivity.
Defined.

(** X17, at a concrete input: on the write-protected volume the earlier
    adapter returns the failure of the creation time, the last attribute,
    and not that of the file attributes. *)
Lemma earlier_restore_returns_last_failure_witness :
  (NodeWindowsEarlier.restoreGenericAttributes three_attributes "f"
     (initial readonly_volume_file)).1
  = Ret (Some (Errorf2 "Error restoring generic attribute for: %s : %v" "f"
                       (Errno 5))).
Proof.
  set (attrs := [mkAttribute "windows.file_attributes" [x20; x00; x00; x00];
                 mkAttribute "vendor.experimental" [x01]]).
  set (a := mkAttribute "windows.creation_time"
              [x04; x03; x02; x01; x08; x07; x06; x05]).
  set (s := initial readonly_volume_file).
  set (s1 := (NodeWindowsEarlier.restore_loop "f" attrs None s).2).
  assert (Hbefore : NodeWindowsEarlier.restore_loop "f" attrs None s
                    = (Ret (Some (Errorf2
                         "Error restoring generic attribute for: %s : %v" "f"
                         (Errno 19))), s1)) by reflexivity.
  assert (Hlast : NodeWindowsEarlier.restoreGenericAttribute a "f" s1
                  = (Ret (Some (Errno 5)),
                     (NodeWindowsEarlier.restoreGenericAttribute a "f" s1).2))
    by reflexivity.
  exact (proj1 (earlier_restore_returns_last_failure three_attributes attrs a "f"
                  s s1 _ eq_refl Hbefore) _ _ Hlast).
Defined.

End WindowsRuns.

Section XattrLoopRuns.
Import GoBytes GoErrors Runtime Node NodeXattr SimXattr.

(** X18, at a concrete input: on a mount that answers ENOATTR to every
    read, the name listed is recorded with an empty value. *)
Lemma fill_loop_value_errors_witness :
  (fill_loop "f" ["user.a"] (mkNode "file" [] []) (initial cifs_fs)).1
  = Ret (mkNode "file" [mkAttribute "user.a" []] []).
Proof.
  pose proof (fill_loop_value_errors "f" "user.a" [] (mkNode "file" [] [])
                (initial cifs_fs)) as (_ & Htolerated & _).
  rewrite (Htolerated (no_attribute "user.a") cifs_fs eq_refl eq_refl).
  reflexivity.
Defined.

(** X19, at a concrete input: two names listed, the first unreadable. *)
Lemma fillExtendedAttributes_lists_then_reads_witness :
  let fs := mkSimFs (inl ["user.a"; "user.b"])
                    (fun name => if String.eqb name "user.a"
                                 then inr io_error else inl [x01])
                    (fun _ => None) in
  exists node' s',
    fillExtendedAttributes node_user_foo "f" (initial fs) = (Ret (node', None), s') /\
    sublist (map Name (ExtendedAttributes node')) ["user.a"; "user.b"] /\
    GenericAttributes node' = GenericAttributes node_user_foo /\
    NodeType node' = NodeType node_user_foo /\
    calls s' = calls (initial fs)
               ++ CallLList "f" :: map (CallLGet "f") ["user.a"; "user.b"] /\
    (length (stderr s') + length (ExtendedAttributes node')
     = length (stderr (initial fs)) + length ["user.a"; "user.b"])%nat.
Proof.
  intros fs.
  apply (fillExtendedAttributes_lists_then_reads node_user_foo "f"
           ["user.a"; "user.b"] fs (initial fs)).
  reflexivity.
Defined.

(** X20, at a concrete input: of three attributes the second cannot be
    set; its error is returned and the third is not handed to the
    system. *)
Lemma restoreExtendedAttributes_sets_prefix_witness :
  let fs := mkSimFs (inl []) (fun _ => inl [])
                    (fun name => if String.eqb name "user.bad"
                                 then Some io_error else None) in
  let node := mkNode "file" [mkAttribute "user.foo" [x01];
                             mkAttribute "user.bad" [];
                             mkAttribute "user.baz" []] [] in
  (restoreExtendedAttributes node "f" (initial fs)).1
  = Ret (Some (WithStack io_error)) /\
  calls (restoreExtendedAttributes node "f" (initial fs)).2
  = [CallLSet "f" "user.foo" [x01]; CallLSet "f" "user.bad" []].
Proof.
  intros fs node.
  set (pre := [mkAttribute "user.foo" [x01]]).
  set (s1 := (restoreExtendedAttributes (set_ExtendedAttributes node pre) "f"
                (initial fs)).2).
  assert (Hpre : restoreExtendedAttributes (set_ExtendedAttributes node pre) "f"
                   (initial fs) = (Ret None, s1)) by reflexivity.
  assert (Hset : LSet "f" (Name (mkAttribute "user.bad" []))
                   (Value (mkAttribute "user.bad" [])) (world s1)
                 = (Some io_error, fs)) by reflexivity.
  destruct (proj2 (restoreExtendedAttributes_sets_prefix node "f" (initial fs))
              pre (mkAttribute "user.bad" []) [mkAttribute "user.baz" []]
              s1 io_error fs eq_refl Hpre Hset eq_refl) as [Hrun Hcalls].
  rewrite Hrun. split; [reflexivity|exact Hcalls].
Defined.

End XattrLoopRuns.

(** ** Long paths, the read-only flag and the file size *)

Section Paths.
Import GoBytes GoErrors Runtime FileWindowsPaths.

Lemma prefix_append (a r : string) : String.prefix a (String.append a r) = true.
Proof.
  induction a as [|c a IH]; simpl; [now destruct r|].
  destruct (Ascii.ascii_dec c c); [exact IH|congruence].
Qed.

Lemma prefix_split (a b : string) :
  String.prefix a b = true -> b = String.append a (string_drop (String.length a) b).
Proof.
  revert b. induction a as [|c a IH]; intros b Hp; [reflexivity|].
  destruct b as [|d b]; simpl in Hp; [discriminate|].
  destruct (Ascii.ascii_dec c d) as [->|]; [|discriminate].
  change (String d b
          = String d (String.append a (string_drop (String.length a) b))).
  f_equal. now apply IH.
Qed.

Lemma prefix_shorter (a a' b : string) :
  String.prefix a' a = true -> String.prefix a b = true -> String.prefix a' b = true.
Proof.
  revert a b. induction a' as [|c a' IH]; intros a b Ha Hb; [now destruct b|].
  destruct a as [|c1 a]; simpl in Ha; [discriminate|].
  destruct (Ascii.ascii_dec c c1) as [->|]; [|discriminate].
  destruct b as [|d b]; simpl in Hb; [discriminate|].
  destruct (Ascii.ascii_dec c1 d) as [->|]; [|discriminate].
  simpl. destruct (Ascii.ascii_dec d d); [|congruence]. now apply (IH a).
Qed.

(** X21.  [fixpath] gives every path that can be made absolute the
    long-path prefix: the result starts with [\\?\].  An absolute path that
    has the prefix already is returned as it is, a network path [\\...]
    has its two leading backslashes replaced by [\\?\UNC\], and any other
    absolute path has [\\?\] put in front.  Hence fixing a fixed path
    changes nothing, when [filepath.Abs] keeps it.  When the path cannot be
    made absolute, the name is returned unchanged. *)
Theorem fixpath_adds_long_path_prefix
    (filepath_Abs : string -> string + error) (name : string) :
  (forall e, filepath_Abs name = inr e -> fixpath filepath_Abs name = name) /\
  (forall abspath,
     filepath_Abs name = inl abspath ->
     strings_HasPrefix (fixpath filepath_Abs name) "\\?\" = true /\
     (strings_HasPrefix abspath "\\?\" = true ->
      fixpath filepath_Abs name = abspath) /\
     (strings_HasPrefix abspath "\\?\" = false ->
      strings_HasPrefix abspath "\\" = true ->
      fixpath filepath_Abs name
      = String.append "\\?\UNC\" (string_drop 2 abspath)) /\
     (strings_HasPrefix abspath "\\" = false ->
      fixpath filepath_Abs name = String.append "\\?\" abspath) /\
     (filepath_Abs (fixpath filepath_Abs name) = inl (fixpath filepath_Abs name) ->
      fixpath filepath_Abs (fixpath filepath_Abs name)
      = fixpath filepath_Abs name)).
Proof.
  assert (Hkeep : forall n p,
    filepath_Abs n = inl p -> strings_HasPrefix p "\\?\" = true ->
    fixpath filepath_Abs n = p).
  { intros n p Habs Hlong. unfold fixpath. rewrite Habs, Hlong.
    now destruct (strings_HasPrefix p "\\?\UNC\"). }
  split.
  - intros e Habs. unfold fixpath. now rewrite Habs.
  - intros abspath Habs.
    assert (Hunc : strings_HasPrefix abspath "\\?\UNC\" = true ->
                   strings_HasPrefix abspath "\\?\" = true).
    { apply prefix_shorter. reflexivity. }
    assert (Hnet : strings_HasPrefix abspath "\\?\" = true ->
                   strings_HasPrefix abspath "\\" = true).
    { apply prefix_shorter. reflexivity. }
    assert (Hresult : strings_HasPrefix (fixpath filepath_Abs name) "\\?\" = true).
    { unfold fixpath. rewrite Habs.
      destruct (strings_HasPrefix abspath "\\?\UNC\") eqn:H8; [now apply Hunc|].
      destruct (strings_HasPrefix abspath "\\?\") eqn:H4; [exact H4|].
      destruct (strings_HasPrefix abspath "\\") eqn:H2.
      - destruct abspath as [|c abspath]; [discriminate|].
        cbn [strings_Replace1]. unfold strings_HasPrefix in H2. rewrite H2.
        apply (prefix_shorter "\\?\UNC\"); [reflexivity|apply prefix_append].
      - apply prefix_append. }
    split; [exact Hresult|]. split; [now apply Hkeep|]. split; [|split].
    + intros H4 H2.
      assert (H8 : strings_HasPrefix abspath "\\?\UNC\" = false)
        by (apply not_true_is_false; intros E; apply Hunc in E; congruence).
      unfold fixpath. rewrite Habs, H8, H4, H2.
      destruct abspath as [|c abspath]; [discriminate|].
      cbn [strings_Replace1]. unfold strings_HasPrefix in H2. now rewrite H2.
    + intros H2.
      assert (H4 : strings_HasPrefix abspath "\\?\" = false)
        by (apply not_true_is_false; intros E; apply Hnet in E; congruence).
      assert (H8 : strings_HasPrefix abspath "\\?\UNC\" = false)
        by (apply not_true_is_false; intros E; apply Hunc in E; congruence).
      unfold fixpath. now rewrite Habs, H8, H4, H2.
    + intros Hagain. now apply Hkeep.
Qed.

(** X21, at concrete inputs: a drive path, a network path and a path that
    is prefixed already. *)
Lemma fixpath_adds_long_path_prefix_witness :
  fixpath abs_identity "C:\Users\a.txt" = "\\?\C:\Users\a.txt" /\
  fixpath abs_identity "\\server\share\a.txt" = "\\?\UNC\server\share\a.txt" /\
  fixpath abs_identity "\\?\C:\a.txt" = "\\?\C:\a.txt".
Proof.
  pose proof (proj2 (fixpath_adds_long_path_prefix abs_identity "C:\Users\a.txt")
                _ eq_refl) as (_ & _ & _ & Hplain & _).
  pose proof (proj2 (fixpath_adds_long_path_prefix abs_identity
                       "\\server\share\a.txt") _ eq_refl)
    as (_ & _ & Hnet & _).
  pose proof (proj2 (fixpath_adds_long_path_prefix abs_identity "\\?\C:\a.txt")
                _ eq_refl) as (_ & Hkeep & _).
  rewrite (Hplain eq_refl), (Hnet eq_refl eq_refl), (Hkeep eq_refl).
  repeat split; reflexivity.
Defined.

End Paths.

Section Readonly.
Import GoBytes GoErrors Runtime NodeWindows FileWindowsPaths.
Context {W : Type} `{API : WindowsAPI W}.

Lemma clear_readonly_bits (attrs i : Z) :
  0 <= attrs < 2 ^ 32 -> 0 <= i ->
  Z.testbit (Z.land attrs (uint32 (Z.lnot FILE_ATTRIBUTE_READONLY))) i
  = if i =? 0 then false else Z.testbit attrs i.
Proof.
  intros Hattrs Hi.
  change (uint32 (Z.lnot FILE_ATTRIBUTE_READONLY)) with (2 * Z.ones 31).
  rewrite Z.land_spec.
  destruct (Z.eqb_spec i 0) as [->|Hne].
  - rewrite Z.testbit_even_0. apply andb_false_r.
  - replace i with (Z.succ (i - 1)) at 2 by lia.
    rewrite Z.testbit_even_succ by lia.
    destruct (Z.ltb_spec (i - 1) 31) as [Hlow|Hhigh].
    + rewrite Z.ones_spec_low by lia. apply andb_true_r.
    + rewrite Z.ones_spec_high by lia. rewrite andb_false_r.
      rewrite <- (Z.mod_small attrs (2 ^ 32)) by lia.
      rewrite Z.mod_pow2_bits_high by lia. reflexivity.
Qed.

(** X22.  [ClearReadonly] changes the read-only bit and nothing else.  It
    reads the attributes of the main file (the path itself, or for a stream
    what [TrimAds] makes of it); when the read-only bit is not set it makes
    no further call and returns nil; when it is set it calls
    [SetFileAttributes] once, with attributes that differ from those read
    in the read-only bit only, and returns the result of that call. *)
Theorem ClearReadonly_clears_one_bit
    (TrimAds : string -> string) (isAds : bool) (path : string) (s : Proc W)
    (attrs : Z) (w1 : W) :
  let main := if isAds then TrimAds path else path in
  strings_Contains main (String Ascii.zero EmptyString) = false ->
  GetFileAttributes main (world s) = (inl attrs, w1) ->
  0 <= attrs < 2 ^ 32 ->
  exists v,
    (forall i, 0 <= i ->
       Z.testbit v i = if i =? 0 then false else Z.testbit attrs i) /\
    ClearReadonly TrimAds isAds path s
    = if IsReadonly attrs then
        (Ret (SetFileAttributes main v w1).1,
         mkProc (SetFileAttributes main v w1).2 (unknownTypes s) (stderr s)
                (debugLog s)
                (calls s ++ [CallGetFileAttributes main;
                             CallSetFileAttributes main v]))
      else
        (Ret None,
         mkProc w1 (unknownTypes s) (stderr s) (debugLog s)
                (calls s ++ [CallGetFileAttributes main])).
Proof.
  intros main Hnul Hget Hattrs.
  exists (Z.land attrs (uint32 (Z.lnot FILE_ATTRIBUTE_READONLY))).
  split; [intros i Hi; now apply clear_readonly_bits|].
  unfold ClearReadonly. fold main.
  unfold UTF16PtrFromString. rewrite Hnul.
  unfold bind at 1. unfold os_call at 1. rewrite Hget. cbv beta iota.
  destruct (IsReadonly attrs); [|reflexivity].
  unfold bind, os_call, ret. cbn [world unknownTypes stderr debugLog calls].
  destruct (SetFileAttributes main _ w1) as [[e|] w2]; cbn [fst snd];
    now rewrite <- app_assoc.
Qed.

End Readonly.

Section ReadonlyRuns.
Import GoBytes GoErrors Runtime NodeWindows FileWindowsPaths SimWindows.

(** X22, at a concrete input: a read-only archive file reached through the
    name of one of its streams. *)
Lemma ClearReadonly_clears_one_bit_witness :
  let file := mkSimFile 33 0 None None (0, 0) (inl "O:BAG:SYD:") in
  exists v,
    (forall i, 0 <= i ->
       Z.testbit v i = if i =? 0 then false else Z.testbit 33 i) /\
    ClearReadonly before_colon true "f:stream" (initial file)
    = (Ret None,
       mkProc (with_attrs file v 0) ∅ [] []
              [CallGetFileAttributes "f"; CallSetFileAttributes "f" v]).
Proof.
  intros file.
  assert (Hnul : strings_Contains (if true then before_colon "f:stream" else "f:stream")
                   (String Ascii.zero EmptyString) = false) by reflexivity.
  assert (Hget : GetFileAttributes (if true then before_colon "f:stream" else "f:stream")
                   (world (initial file)) = (inl 33, file)) by reflexivity.
  destruct (ClearReadonly_clears_one_bit before_colon true "f:stream"
              (initial file) 33 file Hnul Hget ltac:(lia)) as (v & Hbits & Hrun).
  exists v. split; [exact Hbits|]. rewrite Hrun. reflexivity.
Defined.

End ReadonlyRuns.

Section FileSize.
Import GoBytes StatT.

(** X23.  [size] puts the two words of the file size together: the high
    word counts units of 2^32 bytes.  Both words can be read back from the
    result, which is negative exactly when the top bit of the high word is
    set. *)
Theorem size_combines_words (s : statT) :
  0 <= FileSizeLow s < 2 ^ 32 ->
  0 <= FileSizeHigh s < 2 ^ 32 ->
  size s = FileSizeLow s + FileSizeHigh s * 2 ^ 32
           - (if FileSizeHigh s <? 2 ^ 31 then 0 else 2 ^ 64) /\
  size s mod 2 ^ 32 = FileSizeLow s /\
  (size s / 2 ^ 32) mod 2 ^ 32 = FileSizeHigh s.
Proof.
  intros Hlow Hhigh. unfold size.
  set (low := FileSizeLow s) in *. set (high := FileSizeHigh s) in *.
  assert (Hwrap : wrap_int (Z.shiftl high 32)
                  = Z.shiftl (high - (if high <? 2 ^ 31 then 0 else 2 ^ 32)) 32).
  { rewrite !Z.shiftl_mul_pow2 by lia. unfold wrap_int, int_bits.
    change (2 ^ (64 - 1)) with 9223372036854775808.
    change (2 ^ 64) with 18446744073709551616.
    change (2 ^ 32) with 4294967296 in *. change (2 ^ 31) with 2147483648.
    destruct (Z.ltb_spec high 2147483648); Z.div_mod_to_equations; lia. }
  rewrite Hwrap, lor_shiftl_add by lia.
  change (2 ^ 64) with (2 ^ 32 * 2 ^ 32).
  change (2 ^ 32) with 4294967296 in *. change (2 ^ 31) with 2147483648.
  destruct (Z.ltb_spec high 2147483648); repeat split;
    Z.div_mod_to_equations; lia.
Qed.

(** X23, at a concrete input: 4 GiB and five bytes. *)
Lemma size_combines_words_witness :
  size (mkStatT 1 5) = 4294967301.
Proof.
  destruct (size_combines_words (mkStatT 1 5) ltac:(simpl; lia) ltac:(simpl; lia))
    as [Hsize _].
  rewrite Hsize. reflexivity.
Defined.

End FileSize.

(** ** Aggregation of the failures of a restore *)

Section Aggregation.
Import GoBytes GoErrors Runtime Node FileWindows NodeWindows.
Context {W : Type} `{API : WindowsAPI W}.

Lemma handleFileAttributes_returns (path : string) (data : list byte) (s : Proc W) :
  (4 <= length data)%nat ->
  exists r s', handleFileAttributes path data s = (Ret r, s').
Proof.
  intros Hlen. destruct (Uint32_long data Hlen) as [attrs Hattrs].
  unfold handleFileAttributes. rewrite Hattrs.
  destruct (UTF16PtrFromString path) as [pathPointer|e]; [|now eexists _, _].
  destruct (fixEncryptionAttribute_returns path pathPointer attrs s)
    as (r & s1 & Hfix & _).
  unfold bind at 1. rewrite Hfix.
  unfold bind, debug_Log, os_call, ret.
  destruct r as [e|]; simpl;
    match goal with
    | |- context [SetFileAttributes ?p ?a ?w] =>
        destruct (SetFileAttributes p a w) as [r' w']
    end; now eexists _, _.
Qed.

Lemma handleCreationTime_returns (path : string) (data beyond : list byte)
    (s : Proc W) :
  (8 <= length data + length beyond)%nat ->
  exists r s', handleCreationTime path data beyond s = (Ret r, s').
Proof.
  intros Hcap.
  destruct (strings_Contains path (String Ascii.zero EmptyString)) eqn:Hnul.
  - unfold handleCreationTime, UTF16PtrFromString. rewrite Hnul. now eexists _, _.
  - destruct (CreateFile path (world s)) as [[handle|e] w1] eqn:Hcreate.
    + destruct (Uint32_long (data ++ beyond)) as [low Hlow];
        [rewrite length_app; lia|].
      destruct (Uint32_long (drop 4 (data ++ beyond))) as [high Hhigh];
        [rewrite length_drop, length_app; lia|].
      assert (Hl : word_at data beyond 0 = Some low)
        by (rewrite <- Hlow; apply (word_at_within data beyond 0); lia).
      assert (Hh : word_at data beyond 4 = Some high)
        by (rewrite <- Hhigh; apply (word_at_within data beyond 4); lia).
      destruct (handleCreationTime_run path data beyond s handle low high w1
                  Hnul Hcreate Hl Hh) as (s' & Hrun & _).
      rewrite Hrun. now eexists _, _.
    + unfold handleCreationTime. rewrite (no_nul_pointer path Hnul).
      unfold bind, os_call, ret. rewrite Hcreate. now eexists _, _.
Qed.

Lemma restoreGenericAttribute_returns (a : Attribute) (path : string) (s : Proc W) :
  (Name a = TypeFileAttribute -> (4 <= length (Value a))%nat) ->
  (Name a = TypeCreationTime ->
   (8 <= length (Value a) + length (ValueSpare a))%nat) ->
  exists r s', restoreGenericAttribute a path s = (Ret r, s').
Proof.
  intros Hfa Hct. unfold restoreGenericAttribute.
  destruct (String.eqb_spec (Name a) TypeFileAttribute) as [Efa|_];
    [now apply handleFileAttributes_returns, Hfa|].
  destruct (String.eqb_spec (Name a) TypeCreationTime) as [Ect|_];
    [now apply handleCreationTime_returns, Hct|].
  destruct (String.eqb (Name a) TypeSecurityDescriptor).
  - unfold handleSecurityDescriptor, os_call.
    destruct (SetFileSecurityDescriptor _ _ _). now eexists _, _.
  - rewrite bind_unknown. now eexists _, _.
Qed.

Lemma attempt_all_returns (path : string) (attrs : list Attribute) :
  forall s : Proc W,
    Forall (fun a =>
              (Name a = TypeFileAttribute -> (4 <= length (Value a))%nat) /\
              (Name a = TypeCreationTime ->
               (8 <= length (Value a) + length (ValueSpare a))%nat)) attrs ->
    exists results s', attempt_all path attrs s = (Ret results, s').
Proof.
  induction attrs as [|a attrs IH]; intros s Hwf; [now eexists _, _|].
  apply Forall_cons in Hwf as [[Hfa Hct] Hwf].
  destruct (restoreGenericAttribute_returns a path s Hfa Hct) as (r & s1 & Hone).
  destruct (IH s1 Hwf) as (results & s' & Hrest).
  exists (r :: results), s'. cbn [attempt_all]. unfold bind, ret.
  now rewrite Hone, Hrest.
Qed.

Lemma attempt_all_app (path : string) (l1 l2 : list Attribute) :
  forall s : Proc W,
    attempt_all path (l1 ++ l2) s
    = (r1 <- attempt_all path l1 ;;
       r2 <- attempt_all path l2 ;;
       ret (r1 ++ r2))%go s.
Proof.
  induction l1 as [|a l1 IH]; intros s.
  - cbn [app attempt_all]. unfold bind, ret.
    now destruct (attempt_all path l2 s) as [[r2|] s2].
  - cbn [app attempt_all]. unfold bind, ret in *.
    destruct (restoreGenericAttribute a path s) as [[r|] s1]; [|reflexivity].
    rewrite IH.
    destruct (attempt_all path l1 s1) as [[r1|] s2]; [|reflexivity].
    now destruct (attempt_all path l2 s2) as [[r2|] s3].
Qed.

(** The handlers of the earlier adapter do not read the debug log. *)
Lemma earlier_handler_same_but_log (a : Attribute) (path : string) (s t : Proc W) :
  NodeWindowsEarlier.same_but_log s t ->
  (NodeWindowsEarlier.restoreGenericAttribute a path s).1
  = (NodeWindowsEarlier.restoreGenericAttribute a path t).1 /\
  NodeWindowsEarlier.same_but_log
    (NodeWindowsEarlier.restoreGenericAttribute a path s).2
    (NodeWindowsEarlier.restoreGenericAttribute a path t).2.
Proof.
  destruct s as [ws us es ls cs], t as [wt ut et lt ct].
  unfold NodeWindowsEarlier.same_but_log. simpl.
  intros (-> & -> & -> & ->).
  unfold NodeWindowsEarlier.restoreGenericAttribute.
  destruct (String.eqb (Name a) TypeFileAttribute).
  { unfold NodeWindowsEarlier.handleFileAttributes.
    destruct (Uint32 (Value a)); [|now repeat split].
    destruct (UTF16PtrFromString path); [|now repeat split].
    unfold os_call. simpl. destruct (SetFileAttributes _ _ wt). now repeat split. }
  destruct (String.eqb (Name a) TypeCreationTime).
  { unfold NodeWindowsEarlier.handleCreationTime.
    destruct (UTF16PtrFromString path); [|now repeat split].
    unfold close_handle, bind, os_call, ret, debug_Log, panic. simpl.
    destruct (CreateFile _ wt) as [[handle|e] w1]; simpl; [|now repeat split].
    destruct (word_at (Value a) (ValueSpare a) 0) as [low|];
      [destruct (word_at (Value a) (ValueSpare a) 4) as [high|]|]; simpl.
    - destruct (SetFileTime handle low high w1) as [e1 w2]. simpl.
      destruct (CloseHandle handle w2) as [[e2|] w3]; now repeat split.
    - destruct (CloseHandle handle w1) as [[e2|] w3]; now repeat split.
    - destruct (CloseHandle handle w1) as [[e2|] w3]; now repeat split. }
  unfold bind, handleUnknownGenericAttributeFound, ret. simpl.
  destruct (decide (Name a ∈ ut)); now repeat split.
Qed.

(** The loop of the earlier adapter handles the attributes as
    [attempt_all] does and keeps the last failure. *)
Lemma earlier_loop_last_failure (path : string) (attrs : list Attribute) :
  forall (err : option error) (s t : Proc W),
    NodeWindowsEarlier.same_but_log s t ->
    (NodeWindowsEarlier.restore_loop path attrs err s).1
    = match (NodeWindowsEarlier.attempt_all path attrs t).1 with
      | Ret results => Ret (NodeWindowsEarlier.last_failure path err results)
      | Panic => Panic
      end /\
    NodeWindowsEarlier.same_but_log
      (NodeWindowsEarlier.restore_loop path attrs err s).2
      (NodeWindowsEarlier.attempt_all path attrs t).2.
Proof.
  induction attrs as [|a attrs IH]; intros err s t Hst; [now split|].
  cbn [NodeWindowsEarlier.restore_loop NodeWindowsEarlier.attempt_all].
  destruct (earlier_handler_same_but_log a path s t Hst) as [Hres Hstate].
  unfold bind, ret, debug_Log.
  destruct (NodeWindowsEarlier.restoreGenericAttribute a path s) as [r1 s1].
  destruct (NodeWindowsEarlier.restoreGenericAttribute a path t) as [r2 t1].
  simpl in Hres, Hstate. subst r2.
  destruct r1 as [[e|]|]; [| |now split].
  - match goal with
    | |- context [NodeWindowsEarlier.restore_loop path attrs ?r ?st] =>
        destruct (IH r st t1) as [Hr Hs]
    end.
    { destruct Hstate as (Hw & Hu & He & Hc). now repeat split. }
    destruct (NodeWindowsEarlier.attempt_all path attrs t1) as [[results|] t2];
      simpl in *; now split.
  - destruct (IH err s1 t1 Hstate) as [Hr Hs].
    destruct (NodeWindowsEarlier.attempt_all path attrs t1) as [[results|] t2];
      simpl in *; now split.
Qed.

Lemma earlier_attempt_all_length (path : string) (attrs : list Attribute) :
  forall (s s' : Proc W) (results : list (option error)),
    NodeWindowsEarlier.attempt_all path attrs s = (Ret results, s') ->
    length results = length attrs.
Proof.
  induction attrs as [|attr attrs IH]; intros s s' results.
  - intros [= <- _]. reflexivity.
  - cbn [NodeWindowsEarlier.attempt_all]. unfold bind, ret.
    destruct (NodeWindowsEarlier.restoreGenericAttribute attr path s)
      as [[errGen|] s1]; [|discriminate].
    destruct (NodeWindowsEarlier.attempt_all path attrs s1) as [[rest|] s2] eqn:Hrest;
      [|discriminate].
    intros [= <- _]. simpl. f_equal. now apply (IH s1 s2).
Qed.

(** C8 (amended).  In [node_windows.go], [restoreGenericAttributes] handles
    every generic attribute of the node in turn, whatever the earlier
    handlers returned, records the failure of each handler that failed,
    and returns what [errors.CombineErrors] makes of all of them: nil when
    no handler failed, and otherwise one error that holds every recorded
    failure.  This is so as long as no handler panics, and none does when
    every file-attribute value has at least four bytes and every
    creation-time value a capacity of at least eight; a handler that
    panics, as the one for a file-attribute value of fewer than four bytes
    does, ends the call, and the attributes after it are not handled.  The
    earlier adapter, as long as no handler panics, handles every attribute
    in the same way but returns the failure of the last attribute that
    failed, and only that one. *)
Theorem restoreGenericAttributes_aggregates (node : Node) (path : string)
    (s : Proc W) :
  (restoreGenericAttributes node path s
   = (results <- attempt_all path (GenericAttributes node) ;;
      ret (CombineErrors (recorded_failures path results)))%go s /\
   (forall (results : list (option error)) (s' : Proc W),
      attempt_all path (GenericAttributes node) s = (Ret results, s') ->
      length results = length (GenericAttributes node) /\
      restoreGenericAttributes node path s
      = (Ret (CombineErrors (recorded_failures path results)), s') /\
      (Forall (fun r => r = None) results ->
       CombineErrors (recorded_failures path results) = None) /\
      (~ Forall (fun r => r = None) results ->
       CombineErrors (recorded_failures path results)
       = Some (Combined (recorded_failures path results)) /\
       forall e, Some e ∈ results ->
         Errorf2 "error restoring generic attribute for: %s : %v" path e
         ∈ recorded_failures path results)) /\
   (Forall (fun a =>
              (Name a = TypeFileAttribute -> (4 <= length (Value a))%nat) /\
              (Name a = TypeCreationTime ->
               (8 <= length (Value a) + length (ValueSpare a))%nat))
           (GenericAttributes node) ->
    exists results s',
      attempt_all path (GenericAttributes node) s = (Ret results, s')) /\
   (forall pre a post results s1 s2,
      GenericAttributes node = pre ++ a :: post ->
      attempt_all path pre s = (Ret results, s1) ->
      restoreGenericAttribute a path s1 = (Panic, s2) ->
      restoreGenericAttributes node path s = (Panic, s2)) /\
   (forall pre a post results s1,
      GenericAttributes node = pre ++ a :: post ->
      attempt_all path pre s = (Ret results, s1) ->
      Name a = TypeFileAttribute -> (length (Value a) < 4)%nat ->
      restoreGenericAttributes node path s = (Panic, s1))) /\
  (forall (results : list (option error)) (t' : Proc W),
     NodeWindowsEarlier.attempt_all path (GenericAttributes node) s
     = (Ret results, t') ->
     length results = length (GenericAttributes node) /\
     exists s',
       NodeWindowsEarlier.restoreGenericAttributes node path s
       = (Ret (NodeWindowsEarlier.last_failure path None results), s') /\
       world s' = world t' /\ calls s' = calls t') /\
  (NodeWindowsEarlier.last_failure path None [] = None /\
   (forall results e,
      NodeWindowsEarlier.last_failure path None (results ++ [Some e])
      = Some (Errorf2 "Error restoring generic attribute for: %s : %v" path e)) /\
   (forall results,
      NodeWindowsEarlier.last_failure path None (results ++ [None])
      = NodeWindowsEarlier.last_failure path None results)).
Proof.
  assert (Hrun : restoreGenericAttributes node path s
    = (results <- attempt_all path (GenericAttributes node) ;;
       ret (CombineErrors (recorded_failures path results)))%go s).
  { unfold restoreGenericAttributes. unfold bind at 1.
    rewrite restore_loop_attempts_all. unfold bind, ret.
    now destruct (attempt_all path (GenericAttributes node) s) as [[results|] s']. }
  assert (Hstop : forall pre a post results s1 s2,
    GenericAttributes node = pre ++ a :: post ->
    attempt_all path pre s = (Ret results, s1) ->
    restoreGenericAttribute a path s1 = (Panic, s2) ->
    restoreGenericAttributes node path s = (Panic, s2)).
  { intros pre a post results s1 s2 Hattrs Hpre Hpanic.
    rewrite Hrun, Hattrs. unfold bind at 1. rewrite attempt_all_app.
    unfold bind at 1. rewrite Hpre. cbn [attempt_all]. unfold bind at 1 2.
    now rewrite Hpanic. }
  split; [split; [exact Hrun|split; [|split; [|split; [exact Hstop|]]]]|split].
  - intros results s' Hall.
    split; [now apply (attempt_all_length path _ s s')|].
    split; [rewrite Hrun; unfold bind, ret; now rewrite Hall|].
    split.
    + intros Hnone. apply (recorded_failures_nil path) in Hnone. now rewrite Hnone.
    + intros Hsome. split; [|apply recorded_failures_elem].
      destruct (recorded_failures path results) eqn:Hrec; [|reflexivity].
      now apply (recorded_failures_nil path) in Hrec.
  - apply attempt_all_returns.
  - intros pre a post results s1 Hattrs Hpre Hname Hshort.
    apply (Hstop pre a post results s1 s1 Hattrs Hpre).
    assert (Hpanic : restoreGenericAttribute a path s1 = (Panic, s1)).
    { unfold restoreGenericAttribute, handleFileAttributes.
      rewrite (proj2 (String.eqb_eq _ _) Hname).
      replace (Uint32 (Value a)) with (@None Z); [reflexivity|].
      destruct (Value a) as [|b0 [|b1 [|b2 [|b3 more]]]]; try reflexivity.
      simpl in Hshort. lia. }
    exact Hpanic.
  - intros results t' Hall.
    split; [now apply (earlier_attempt_all_length path _ s t')|].
    assert (Hsame : NodeWindowsEarlier.same_but_log s s) by now repeat split.
    destruct (earlier_loop_last_failure path (GenericAttributes node) None s s Hsame)
      as [Hres (Hw & _ & _ & Hc)].
    rewrite Hall in Hres, Hw, Hc. simpl in Hres, Hw, Hc.
    unfold NodeWindowsEarlier.restoreGenericAttributes.
    destruct (NodeWindowsEarlier.restore_loop path (GenericAttributes node) None s)
      as [r s'].
    simpl in *. subst r. now exists s'.
  - unfold NodeWindowsEarlier.last_failure. split; [reflexivity|].
    split; intros; now rewrite foldl_app.
Qed.

End Aggregation.

Section AggregationRuns.
Import GoBytes GoErrors Runtime Node NodeWindows SimWindows.

(** C8 (amended), at a concrete input: on a write-protected volume the file
    attributes and the creation time both fail to restore, with different
    errors.  Every attribute is handled by both adapters; the current one
    returns both failures, the earlier one the last. *)
Lemma restoreGenericAttributes_aggregates_witness :
  (attempt_all "f" (GenericAttributes three_attributes)
     (initial readonly_volume_file)).1
  = Ret [Some (Errno 19); None; Some (Errno 5)] /\
  (restoreGenericAttributes three_attributes "f" (initial readonly_volume_file)).1
  = Ret (Some (Combined
      [Errorf2 "error restoring generic attribute for: %s : %v" "f" (Errno 19);
       Errorf2 "error restoring generic attribute for: %s : %v" "f" (Errno 5)])) /\
  (NodeWindowsEarlier.restoreGenericAttributes three_attributes "f"
     (initial readonly_volume_file)).1
  = Ret (Some (Errorf2 "Error restoring generic attribute for: %s : %v" "f"
                       (Errno 5))).
Proof.
  destruct (attempt_all "f" (GenericAttributes three_attributes)
              (initial readonly_volume_file)) as [results s'] eqn:Hall.
  assert (Hres : results = Ret [Some (Errno 19); None; Some (Errno 5)]).
  { pose proof (f_equal fst Hall) as Hfst. simpl in Hfst. rewrite <- Hfst.
    vm_compute. reflexivity. }
  subst results.
  destruct (NodeWindowsEarlier.attempt_all "f" (GenericAttributes three_attributes)
              (initial readonly_volume_file)) as [results t'] eqn:Hearlier.
  assert (Hres : results = Ret [Some (Errno 19); None; Some (Errno 5)]).
  { pose proof (f_equal fst Hearlier) as Hfst. simpl in Hfst. rewrite <- Hfst.
    vm_compute. reflexivity. }
  subst results.
  pose proof (restoreGenericAttributes_aggregates three_attributes "f"
                (initial readonly_volume_file))
    as ((_ & Hcurrent & _) & Hlast & _).
  destruct (Hcurrent _ _ Hall) as (_ & Hrun & _).
  destruct (Hlast _ _ Hearlier) as (_ & s1 & Hrun' & _).
  rewrite Hrun, Hrun'. repeat split; reflexivity.
Defined.

End AggregationRuns.
